(** * Leistungsnachweis generator: the form state, the PDF export and the
      signature pad, embedded from [src/App.tsx] and
      [src/components/SignaturePad.tsx].

    The development has four modules, followed by the properties.

    - [JS]: the ECMAScript primitives the two components call
      (truthiness and [||] on strings, [trim], binary64 numbers, [+], [-], [*],
      [parseFloat], [Number.isFinite], [Number.prototype.toFixed],
      [Number::toString], and [toLocaleString] for euro amounts in the
      locale de-DE).  Numbers are IEEE 754 binary64 values, taken
      from the axiom-free specification [SpecFloat] of the standard
      library.
    - [SignaturePad]: the canvas, its 2D context and the handlers of the
      component.  The PNG encoder and the stroke rasteriser of the browser
      are the class [Browser].
    - [App]: the state held by [App()], its handlers and [handleExportPdf],
      which drives a jsPDF document.  The document is the trace of the calls
      made on the [jsPDF] object.  What jsPDF computes (page width, line
      breaking) is the class [Platform].
    - [Reference]: one instance of each class, to run the model on.

    A [useState] setter called with an updater is a function on the state;
    a handler is the composition of the setters it calls.  The value of
    [crypto.randomUUID()] is an argument of the handler that draws it.

    Strings are byte strings holding the UTF-8 encoding of the JavaScript
    string. *)

From Stdlib Require Import ZArith QArith Qround Lqa List String Ascii Bool Lia.
From Stdlib Require Import Floats.SpecFloat.
From Stdlib Require Import DecimalString.
Import ListNotations.

Open Scope string_scope.
Open Scope Z_scope.

(* ================================================================== *)
(** * ECMAScript primitives *)
(* ================================================================== *)

Module JS.

(** ** Strings *)

(** [ToBoolean] on a string: only the empty string is falsy. *)
Definition truthy (s : string) : bool :=
  match s with
  | EmptyString => false
  | String _ _ => true
  end.

(** [a || b] on strings. *)
Definition or_else (a b : string) : string :=
  if truthy a then a else b.

Definition byte (c : ascii) : N := N_of_ascii c.

(** One-byte [WhiteSpace] and [LineTerminator] code points:
    TAB, LF, VT, FF, CR, SP. *)
Definition ws1 (c : ascii) : bool :=
  let n := byte c in
  ((9 <=? n) && (n <=? 13) || (n =? 32))%N.

(** U+00A0 (no-break space), encoded C2 A0. *)
Definition ws2 (c1 c2 : ascii) : bool :=
  ((byte c1 =? 194) && (byte c2 =? 160))%N.

(** Three-byte white space: U+1680, U+2000..U+200A, U+2028, U+2029,
    U+202F, U+205F, U+3000 and U+FEFF. *)
Definition ws3 (c1 c2 c3 : ascii) : bool :=
  let a := byte c1 in
  let b := byte c2 in
  let c := byte c3 in
  ((a =? 225) && (b =? 154) && (c =? 128)
   || (a =? 226) && (b =? 128)
        && ((128 <=? c) && (c <=? 138) || (c =? 168) || (c =? 169) || (c =? 175))
   || (a =? 226) && (b =? 129) && (c =? 159)
   || (a =? 227) && (b =? 128) && (c =? 128)
   || (a =? 239) && (b =? 187) && (c =? 191))%N.

(** [String.prototype.trimStart]. *)
Fixpoint trimStart (s : string) : string :=
  match s with
  | EmptyString => s
  | String c1 r1 =>
      if ws1 c1 then trimStart r1
      else
        match r1 with
        | EmptyString => s
        | String c2 r2 =>
            if ws2 c1 c2 then trimStart r2
            else
              match r2 with
              | EmptyString => s
              | String c3 r3 => if ws3 c1 c2 c3 then trimStart r3 else s
              end
        end
  end.

(** The same scan on the reversed byte sequence: the bytes of a code point
    come last byte first. *)
Fixpoint trimStartRev (l : list ascii) : list ascii :=
  match l with
  | [] => l
  | c1 :: r1 =>
      if ws1 c1 then trimStartRev r1
      else
        match r1 with
        | [] => l
        | c2 :: r2 =>
            if ws2 c2 c1 then trimStartRev r2
            else
              match r2 with
              | [] => l
              | c3 :: r3 => if ws3 c3 c2 c1 then trimStartRev r3 else l
              end
        end
  end.

(** [String.prototype.trimEnd]. *)
Definition trimEnd (s : string) : string :=
  string_of_list_ascii (rev (trimStartRev (rev (list_ascii_of_string s)))).

(** [String.prototype.trim]. *)
Definition trim (s : string) : string := trimEnd (trimStart s).

(** ** Numbers: IEEE 754 binary64 *)

Definition prec : Z := 53.
Definition emax : Z := 1024.

Definition Number : Type := spec_float.

Definition NaN : Number := S754_nan.
Definition Infinity (neg : bool) : Number := S754_infinity neg.
Definition zero : Number := S754_zero false.

(** [x + y]. *)
Definition add (x y : Number) : Number := SFadd prec emax x y.

(** [x - y]. *)
Definition sub (x y : Number) : Number := SFsub prec emax x y.

(** [x * y]. *)
Definition mul (x y : Number) : Number := SFmul prec emax x y.

(** [Number.isFinite]. *)
Definition isFinite (x : Number) : bool :=
  match x with
  | S754_zero _ | S754_finite _ _ _ => true
  | S754_infinity _ | S754_nan => false
  end.

(** Structural equality of two numbers in canonical form. *)
Definition same (x y : Number) : bool :=
  match x, y with
  | S754_zero a, S754_zero b => Bool.eqb a b
  | S754_infinity a, S754_infinity b => Bool.eqb a b
  | S754_nan, S754_nan => true
  | S754_finite a m e, S754_finite b n f =>
      Bool.eqb a b && (m =? n)%positive && (e =? f)
  | _, _ => false
  end.

(** The Number value of the decimal [(-1)^neg * m * 10^e]: the nearest
    binary64 value, ties to even, with overflow to infinity and gradual
    underflow. *)
Definition ofDecimal (neg : bool) (m e : Z) : Number :=
  match m with
  | Zpos _ =>
      if 0 <=? e then
        match m * 10 ^ e with
        | Zpos p => binary_round prec emax neg p 0
        | _ => S754_zero neg
        end
      else
        let '(q, e', l) := SFdiv_core_binary prec emax m 0 (10 ^ (- e)) 0 in
        binary_round_aux prec emax neg q e' l
  | _ => S754_zero neg
  end.

(** ** [parseFloat] *)

Definition isDigit (c : ascii) : bool :=
  ((48 <=? byte c) && (byte c <=? 57))%N.

Definition digitVal (c : ascii) : Z := Z.of_N (byte c) - 48.

(** [DecimalDigits], greedily: the accumulated value, the number of digits
    read and the rest of the input. *)
Fixpoint takeDigits (s : string) (acc n : Z) : Z * Z * string :=
  match s with
  | String c r =>
      if isDigit c then takeDigits r (10 * acc + digitVal c) (n + 1)
      else (acc, n, s)
  | EmptyString => (acc, n, s)
  end.

(** [ExponentPart], when one is present at the head of [s]; 0 otherwise. *)
Definition exponentPart (s : string) : Z :=
  match s with
  | String c r =>
      if ((byte c =? 101) || (byte c =? 69))%N then
        match r with
        | String d r' =>
            if (byte d =? 43)%N then
              let '(v, n, _) := takeDigits r' 0 0 in
              if 0 <? n then v else 0
            else if (byte d =? 45)%N then
              let '(v, n, _) := takeDigits r' 0 0 in
              if 0 <? n then - v else 0
            else
              let '(v, n, _) := takeDigits r 0 0 in
              if 0 <? n then v else 0
        | EmptyString => 0
        end
      else 0
  | EmptyString => 0
  end.

(** The longest prefix of [s] that is a [StrUnsignedDecimalLiteral], as its
    Number value; [NaN] when there is none. *)
Definition parseUnsigned (neg : bool) (s : string) : Number :=
  if prefix "Infinity" s then Infinity neg
  else
    let '(ip, ni, r1) := takeDigits s 0 0 in
    match r1 with
    | String "." r2 =>
        let '(m, nf, r3) := takeDigits r2 ip 0 in
        if (ni =? 0) && (nf =? 0) then NaN
        else ofDecimal neg m (exponentPart r3 - nf)
    | _ =>
        if ni =? 0 then NaN else ofDecimal neg ip (exponentPart r1)
    end.

(** [parseFloat(string)]. *)
Definition parseFloat (input : string) : Number :=
  match trimStart input with
  | String "+" r => parseUnsigned false r
  | String "-" r => parseUnsigned true r
  | s => parseUnsigned false s
  end.

(** ** [Number::toString] and [Number.prototype.toFixed] *)

(** The decimal digits of a natural number, ["0"] for zero. *)
Definition digits (n : Z) : list ascii :=
  list_ascii_of_string (NilZero.string_of_uint (N.to_uint (Z.to_N n))).

Definition zeros (n : nat) : list ascii := repeat "0"%char n.

(** The magnitude of a finite number as an exact fraction
    [fst / snd], with [snd > 0]. *)
Definition magnitude (x : Number) : Z * Z :=
  match x with
  | S754_finite _ m e =>
      if 0 <=? e then (Zpos m * 2 ^ e, 1) else (Zpos m, 2 ^ (- e))
  | _ => (0, 1)
  end.

(** [x < 0] on the real value: minus zero is not negative. *)
Definition isNegative (x : Number) : bool :=
  match x with
  | S754_finite s _ _ => s
  | S754_infinity s => s
  | _ => false
  end.

(** The Number value nearest to a rational, ties to even, with overflow to
    infinity: the Number that holds a measure whose exact value is [q]. *)
Definition ofQ (q : Q) : Number :=
  match Qnum q with
  | Z0 => zero
  | Zpos n =>
      let '(m, e, l) := SFdiv_core_binary prec emax (Zpos n) 0 (Zpos (Qden q)) 0 in
      binary_round_aux prec emax false m e l
  | Zneg n =>
      let '(m, e, l) := SFdiv_core_binary prec emax (Zpos n) 0 (Zpos (Qden q)) 0 in
      binary_round_aux prec emax true m e l
  end.

(** A number that is not negative: the sign bit is clear, or the number is
    NaN. *)
Definition unsigned (x : Number) : Prop :=
  match x with
  | S754_zero s | S754_infinity s | S754_finite s _ _ => s = false
  | S754_nan => True
  end.

(** The exact value of a finite number, in lowest terms. *)
Definition exact (x : Number) : option Q :=
  match x with
  | S754_zero _ => Some 0%Q
  | S754_finite s _ _ =>
      let '(num, den) := magnitude x in
      Some (Qred ((if s then - num else num) # Z.to_pos den))
  | _ => None
  end.

(** The value of a number that is known to be finite. *)
Definition value (x : Number) : Q :=
  match exact x with
  | Some v => v
  | None => 0%Q
  end.

(** [num / den * 10^p] as a fraction. *)
Definition scaled (num den p : Z) : Z * Z :=
  if 0 <=? p then (num * 10 ^ p, den) else (num, den * 10 ^ (- p)).

(** The least [n], searching upwards from [n], with
    [num / den < 10^n]. *)
Fixpoint decimalExponent (fuel : nat) (num den n : Z) : Z :=
  match fuel with
  | O => n
  | S fuel' =>
      let '(a, b) := scaled num den (- n) in
      if a <? b then n else decimalExponent fuel' num den (n + 1)
  end.

(** The integers [s], [k], [n] of [Number::toString]: [k] is as small as
    possible with [10^(k-1) <= s < 10^k] and [s * 10^(n-k)] having the
    Number value [x]; among several [s] the one nearest to [x], and the
    even one on a tie. *)
Fixpoint shortest (fuel : nat) (x : Number) (num den n0 k : Z) : Z * Z * Z :=
  match fuel with
  | O => (0, k, n0)
  | S fuel' =>
      let '(a, b) := scaled num den (k - n0) in
      let lo := a / b in
      let hi := lo + 1 in
      let okLo := same (ofDecimal false lo (n0 - k)) x in
      let okHi := same (ofDecimal false hi (n0 - k)) x in
      let pick :=
        if okLo && okHi then
          match 2 * (a - lo * b) ?= b with
          | Lt => Some lo
          | Gt => Some hi
          | Eq => Some (if Z.even lo then lo else hi)
          end
        else if okLo then Some lo
        else if okHi then Some hi
        else None in
      match pick with
      | Some s => if s =? 10 ^ k then (10 ^ (k - 1), k, n0 + 1) else (s, k, n0)
      | None => shortest fuel' x num den n0 (k + 1)
      end
  end.

(** [Number::toString] of a positive finite number. *)
Definition toStringPositive (x : Number) : list ascii :=
  let '(num, den) := magnitude x in
  let n0 := decimalExponent 700 num den (-330) in
  let '(s, k, n) := shortest 25 x num den n0 1 in
  let d := digits s in
  if (k <=? n) && (n <=? 21) then
    (d ++ zeros (Z.to_nat (n - k)))%list
  else if (0 <? n) && (n <=? 21) then
    (firstn (Z.to_nat n) d ++ "."%char :: skipn (Z.to_nat n) d)%list
  else if (-6 <? n) && (n <=? 0) then
    ("0"%char :: "."%char :: zeros (Z.to_nat (- n)) ++ d)%list
  else
    let e := n - 1 in
    let sign := if e <? 0 then "-"%char else "+"%char in
    let expo := ("e"%char :: sign :: digits (Z.abs e))%list in
    if k =? 1 then (d ++ expo)%list
    else (firstn 1 d ++ "."%char :: skipn 1 d ++ expo)%list.

(** [Number::toString(x, 10)]. *)
Definition toString (x : Number) : string :=
  match x with
  | S754_nan => "NaN"
  | S754_zero _ => "0"
  | S754_infinity s => if s then "-Infinity" else "Infinity"
  | S754_finite s m e =>
      (if s then "-" else "")
      ++ string_of_list_ascii (toStringPositive (S754_finite false m e))
  end.

(** The integer nearest to [num / den]; the larger one on a tie. *)
Definition roundHalfUp (num den : Z) : Z := (2 * num + den) / (2 * den).

(** Steps 11.c and 11.d of [toFixed]: pad the digits of [n] with zeros to
    [f + 1] characters and put the point before the last [f]. *)
Definition fixedDigits (f : nat) (n : Z) : list ascii :=
  let m := digits n in
  match f with
  | O => m
  | S _ =>
      let m := (zeros (S f - List.length m) ++ m)%list in
      let k := List.length m in
      (firstn (k - f) m ++ "."%char :: skipn (k - f) m)%list
  end.

(** [|x| >= 10^21]. *)
Definition atLeast1e21 (x : Number) : bool :=
  let '(num, den) := magnitude x in 10 ^ 21 * den <=? num.

(** [Number.prototype.toFixed(f)], for [0 <= f <= 100]: a number that is
    not finite, or whose magnitude reaches [10^21], is written as
    [Number::toString] writes it. *)
Definition toFixed (f : nat) (x : Number) : string :=
  if isFinite x then
    let '(num, den) := magnitude x in
    let s := if isNegative x then "-" else "" in
    if atLeast1e21 x then s ++ toString (SFabs x)
    else s ++ string_of_list_ascii
                (fixedDigits f (roundHalfUp (num * 10 ^ Z.of_nat f) den))
  else toString x.

(** A decimal numeral with exactly two fraction digits: an optional minus
    sign, one or more digits, a point, two digits. *)
Definition twoDecimals (s : string) : bool :=
  let l := list_ascii_of_string s in
  let body :=
    match l with
    | c :: r => if Ascii.eqb c "-" then r else l
    | [] => l
    end in
  match rev body with
  | d2 :: d1 :: p :: i :: int =>
      Ascii.eqb p "." && isDigit d2 && isDigit d1 && isDigit i
      && forallb isDigit int
  | _ => false
  end.

(** ** [Number.prototype.toLocaleString] for euro amounts in German *)

(** Digits in groups of three, separated by [sep], counted from the right;
    [l] is the digit string reversed. *)
Fixpoint groupRev (sep : ascii) (l : list ascii) : list ascii :=
  match l with
  | a :: b :: c :: (_ :: _) as r => a :: b :: c :: sep :: groupRev sep r
  | _ => l
  end.

Definition nbsp : string :=
  String (ascii_of_N 194) (String (ascii_of_N 160) EmptyString).

Definition euro : string :=
  String (ascii_of_N 226)
    (String (ascii_of_N 130) (String (ascii_of_N 172) EmptyString)).

(** The decimal that [Intl.NumberFormat] formats: the shortest one that
    reads back as the magnitude of [x], the digits of [Number::toString],
    as a fraction. *)
Definition shortestDecimal (x : Number) : Z * Z :=
  match x with
  | S754_finite _ m e =>
      let '(num, den) := magnitude x in
      let n0 := decimalExponent 700 num den (-330) in
      let '(s, k, n) := shortest 25 (S754_finite false m e) num den n0 1 in
      scaled s 1 (n - k)
  | _ => (0, 1)
  end.

(** [x.toLocaleString('de-DE', { style: 'currency', currency: 'EUR' })]:
    the currency notation of the locale de-DE for EUR, as ECMA-402 with the
    CLDR data gives it.  The shortest decimal of the number is rounded to
    two fraction digits, half away from zero, and written with
    point-separated groups of three, a decimal comma, and the euro sign
    after a no-break space. *)
Definition currencyDeDE (x : Number) : string :=
  match x with
  | S754_nan => "NaN" ++ nbsp ++ euro
  | S754_infinity s =>
      (if s then "-" else "")
      ++ String (ascii_of_N 226)
           (String (ascii_of_N 136) (String (ascii_of_N 158) EmptyString))
      ++ nbsp ++ euro
  | _ =>
      let '(num, den) := shortestDecimal x in
      let n := roundHalfUp (num * 100) den in
      let sign :=
        match x with
        | S754_zero s | S754_finite s _ _ => if s then "-" else ""
        | _ => ""
        end in
      let cents := digits (n mod 100) in
      sign
      ++ string_of_list_ascii (rev (groupRev "."%char (rev (digits (n / 100)))))
      ++ ","
      ++ string_of_list_ascii (zeros (2 - List.length cents) ++ cents)%list
      ++ nbsp ++ euro
  end.

(** A string that ends in a decimal comma, two digits, a no-break space
    and the euro sign. *)
Definition endsInCentsAndEuro (s : string) : bool :=
  match rev (list_ascii_of_string s) with
  | e3 :: e2 :: e1 :: n2 :: n1 :: d2 :: d1 :: c :: _ =>
      String.eqb (string_of_list_ascii [n1; n2]) nbsp
      && String.eqb (string_of_list_ascii [e1; e2; e3]) euro
      && Ascii.eqb c "," && isDigit d1 && isDigit d2
  | _ => false
  end.

(** The cents of an amount, padded to two digits, are two digits. *)
Definition centsOk (k : Z) : bool :=
  match (zeros (2 - List.length (digits k)) ++ digits k)%list with
  | [d1; d2] => isDigit d1 && isDigit d2
  | _ => false
  end.

End JS.

(* ================================================================== *)
(** * [components/SignaturePad.tsx] *)
(* ================================================================== *)

Module SignaturePad.

(** ** The canvas *)

(** A pixel of the bitmap: transparent black, painted with an opaque CSS
    colour, or, where the edge of a shape crosses the pixel, [over] laid on
    what was there in proportion to the part [coverage] of the pixel that
    the shape takes. *)
Inductive Pixel : Type :=
| Transparent
| Painted (colour : string)
| Blended (coverage : Q) (over under : Pixel).

(** The bitmap, indexed by device pixel (column, row). *)
Definition Bitmap : Type := Z -> Z -> Pixel.

(** The state of a [CanvasRenderingContext2D] that the pad touches.  The pad
    only installs uniform scalings, [setTransform(r, 0, 0, r, 0, 0)], so the
    matrix is its factor. *)
Record Context2D : Type := mkContext2D {
  scale : Q;
  lineCap : string;
  lineJoin : string;
  lineWidth : Q;
  strokeStyle : string;
  fillStyle : string;
  path : list (Q * Q)
}.

Definition defaultContext : Context2D :=
  {| scale := 1; lineCap := "butt"; lineJoin := "miter"; lineWidth := 1;
     strokeStyle := "#000000"; fillStyle := "#000000"; path := [] |}.

(** An [HTMLCanvasElement]: bitmap size in device pixels, the CSS size set
    through [canvas.style] (in px), the bitmap, and the context that
    [getContext('2d')] hands out ([None] when it returns null). *)
Record Canvas : Type := mkCanvas {
  width : Z;
  height : Z;
  styleWidth : option Q;
  styleHeight : option Q;
  bitmap : Bitmap;
  context2d : option Context2D
}.

(** The measures that the page hands to the component are Numbers; a
    rational stands for the Number nearest to it, [JS.ofQ], and is that
    Number's exact value whenever the Number is finite. *)

(** A [DOMRect], as [getBoundingClientRect] measures it: a box has no
    negative side. *)
Record Rect : Type := mkRect {
  left : Q;
  top : Q;
  rectWidth : Q;
  rectHeight : Q;
  rectSides : (0 <= rectWidth)%Q /\ (0 <= rectHeight)%Q
}.

(** What the handlers read from the page when they run.  The pixel ratio of
    a window is not negative. *)
Record Env : Type := mkEnv {
  devicePixelRatio : Q;                    (* 0 stands for a falsy reading *)
  devicePixelRatioSign : (0 <= devicePixelRatio)%Q;
  parentRect : option Rect;                (* canvas.parentElement, measured *)
  canvasRect : Rect;                       (* canvas.getBoundingClientRect() *)
  getPropertyValue : string -> string      (* computed style of the body *)
}.

(** The platform services the pad calls and the repository does not define:
    the PNG encoder behind [toDataURL] and the rasteriser behind
    [stroke]. *)
Class Browser : Type := {
  toDataURL : Z -> Z -> Bitmap -> string;
  strokePath : Context2D -> Bitmap -> Bitmap
}.

(** The rectangle of [clearRect] and [fillRect] is given in user space and
    is mapped to the bitmap through the current transformation, like every
    shape the context draws.  [span t a len]: the image of the side from
    [a] to [a + len] under the scaling [t], lower end first; sum and
    products are those of Numbers.  There is none when an end is not
    finite. *)
Definition span (t a len : Q) : option (Q * Q) :=
  match JS.exact (JS.mul (JS.ofQ t) (JS.ofQ a)),
        JS.exact (JS.mul (JS.ofQ t) (JS.add (JS.ofQ a) (JS.ofQ len))) with
  | Some p, Some q => Some (if Qle_bool p q then (p, q) else (q, p))
  | _, _ => None
  end.

(** The length of the part of [[i, i + 1]] that lies in the span. *)
Definition overlap (s : Q * Q) (i : Z) : Q :=
  let lo := if Qle_bool (fst s) (inject_Z i) then inject_Z i else fst s in
  let hi := if Qle_bool (inject_Z (i + 1)) (snd s) then inject_Z (i + 1) else snd s in
  if Qle_bool hi lo then 0%Q else (hi - lo)%Q.

(** The part of the device pixel [(i, j)] that the image of the rectangle
    [(x, y, w, h)] under the scaling [t] takes: 1 for a pixel inside it, 0
    for a pixel outside. *)
Definition coverage (t x y w h : Q) (i j : Z) : Q :=
  match span t x w, span t y h with
  | Some sx, Some sy => (overlap sx i * overlap sy j)%Q
  | _, _ => 0%Q
  end.

(** What a shape does to a pixel of which it takes the part [c]. *)
Definition composite (c : Q) (over under : Pixel) : Pixel :=
  if Qle_bool 1 c then over
  else if Qle_bool c 0 then under
  else Blended c over under.

(** [ctx.clearRect(x, y, w, h)]. *)
Definition clearRect (ctx : Context2D) (x y w h : Q) (b : Bitmap) : Bitmap :=
  fun i j => composite (coverage (scale ctx) x y w h i j) Transparent (b i j).

(** [ctx.fillRect(x, y, w, h)]. *)
Definition fillRect (ctx : Context2D) (x y w h : Q) (b : Bitmap) : Bitmap :=
  fun i j =>
    composite (coverage (scale ctx) x y w h i j) (Painted (fillStyle ctx)) (b i j).

(** The conversion of a Number to the IDL type [unsigned long]: 0 for NaN
    and the infinities, else the integer part modulo 2^32. *)
Definition toUnsignedLong (x : JS.Number) : Z :=
  match x with
  | S754_finite s _ _ =>
      let '(num, den) := JS.magnitude x in
      (if s then - (num / den) else num / den) mod 2 ^ 32
  | _ => 0
  end.

(** [canvas.width] and [canvas.height] reflect content attributes: a value
    above 2^31 - 1 is replaced by the default of the attribute. *)
Definition reflected (default n : Z) : Z :=
  if n <=? 2147483647 then n else default.

(** The image of the rectangle [(0, 0, w, h)] under the scaling [t] holds
    the device pixels from [(0, 0)] to [(w - 1, h - 1)]. *)
Definition holds (t : Q) (w h : Z) : bool :=
  match span t 0 (inject_Z w), span t 0 (inject_Z h) with
  | Some sx, Some sy =>
      Qle_bool (fst sx) 0 && Qle_bool (inject_Z w) (snd sx)
      && Qle_bool (fst sy) 0 && Qle_bool (inject_Z h) (snd sy)
  | _, _ => false
  end.

(** Assigning [canvas.width] or [canvas.height] clears the bitmap and resets
    the context. *)
Definition resetOnResize (c : Canvas) : Canvas :=
  {| width := width c; height := height c;
     styleWidth := styleWidth c; styleHeight := styleHeight c;
     bitmap := fun _ _ => Transparent;
     context2d := option_map (fun _ => defaultContext) (context2d c) |}.

Definition setWidth (w : JS.Number) (c : Canvas) : Canvas :=
  resetOnResize
    {| width := reflected 300 (toUnsignedLong w); height := height c;
       styleWidth := styleWidth c; styleHeight := styleHeight c;
       bitmap := bitmap c; context2d := context2d c |}.

Definition setHeight (h : JS.Number) (c : Canvas) : Canvas :=
  resetOnResize
    {| width := width c; height := reflected 150 (toUnsignedLong h);
       styleWidth := styleWidth c; styleHeight := styleHeight c;
       bitmap := bitmap c; context2d := context2d c |}.

Definition setStyle (w h : Q) (c : Canvas) : Canvas :=
  {| width := width c; height := height c;
     styleWidth := Some w; styleHeight := Some h;
     bitmap := bitmap c; context2d := context2d c |}.

Definition withDrawing (b : Bitmap) (ctx : Context2D) (c : Canvas) : Canvas :=
  {| width := width c; height := height c;
     styleWidth := styleWidth c; styleHeight := styleHeight c;
     bitmap := b; context2d := Some ctx |}.

Definition withStrokeStyle (s : string) (ctx : Context2D) : Context2D :=
  {| scale := scale ctx; lineCap := lineCap ctx; lineJoin := lineJoin ctx;
     lineWidth := lineWidth ctx; strokeStyle := s;
     fillStyle := fillStyle ctx; path := path ctx |}.

Definition withFillStyle (s : string) (ctx : Context2D) : Context2D :=
  {| scale := scale ctx; lineCap := lineCap ctx; lineJoin := lineJoin ctx;
     lineWidth := lineWidth ctx; strokeStyle := strokeStyle ctx;
     fillStyle := s; path := path ctx |}.

Definition withPath (p : list (Q * Q)) (ctx : Context2D) : Context2D :=
  {| scale := scale ctx; lineCap := lineCap ctx; lineJoin := lineJoin ctx;
     lineWidth := lineWidth ctx; strokeStyle := strokeStyle ctx;
     fillStyle := fillStyle ctx; path := p |}.

(** ** The component *)

Section Component.

(** [H] is the state of whoever mounts the pad; [onChange] updates it. *)
Context {H : Type} `{Browser}.

Record Props : Type := mkProps {
  label : string;
  helper : option string;
  onChange : option (option string -> H -> H)
}.

(** The two refs of the component and the two variables of its second
    effect. *)
Record Pad : Type := mkPad {
  canvasRef : option Canvas;
  drawing : bool;
  lastX : Q;
  lastY : Q
}.

Record PointerEvent : Type := mkPointerEvent {
  clientX : Q;
  clientY : Q
}.

Definition emitChange (props : Props) (pad : Pad) (host : H) : H :=
  match canvasRef pad, onChange props with
  | Some canvas, Some notify =>
      notify (Some (toDataURL (width canvas) (height canvas) (bitmap canvas))) host
  | _, _ => host
  end.

Definition getCssVar (env : Env) (variable : string) : string :=
  JS.trim (getPropertyValue env variable).

Definition getBackgroundColor (env : Env) : string :=
  JS.or_else (getCssVar env "--card-bg") "#ffffff".

Definition getStrokeColor (env : Env) : string :=
  JS.or_else (getCssVar env "--text-primary") "#0f172a".

(** [resizeCanvas], the body of the first effect. *)
Definition resizeCanvas (env : Env) (canvas : Canvas) : Canvas :=
  match parentRect env with
  | None => canvas
  | Some rect =>
      let ratio :=
        if Qeq_bool (devicePixelRatio env) 0 then 1%Q else devicePixelRatio env in
      let canvas :=
        setWidth (JS.mul (JS.ofQ (rectWidth rect)) (JS.ofQ ratio)) canvas in
      let canvas :=
        setHeight (JS.mul (JS.ofQ (rectHeight rect)) (JS.ofQ ratio)) canvas in
      let canvas := setStyle (rectWidth rect) (rectHeight rect) canvas in
      match context2d canvas with
      | None => canvas
      | Some _ =>
          let context :=
            {| scale := ratio; lineCap := "round"; lineJoin := "round";
               lineWidth := 2; strokeStyle := getStrokeColor env;
               fillStyle := getBackgroundColor env; path := [] |} in
          let b := clearRect context 0 0 (rectWidth rect) (rectHeight rect)
                     (bitmap canvas) in
          let b := fillRect context 0 0 (rectWidth rect) (rectHeight rect) b in
          withDrawing b context canvas
      end
  end.

(** The position of the pointer on the canvas; the coordinates of the page
    are finite, and so are their differences. *)
Definition getPos (env : Env) (event : PointerEvent) : Q * Q :=
  let rect := canvasRect env in
  (JS.value (JS.sub (JS.ofQ (clientX event)) (JS.ofQ (left rect))),
   JS.value (JS.sub (JS.ofQ (clientY event)) (JS.ofQ (top rect)))).

(** The three listeners of the second effect.  They close over the canvas
    and its context and are only installed when both exist. *)
Definition handlePointerDown (env : Env) (event : PointerEvent) (pad : Pad) : Pad :=
  match canvasRef pad with
  | Some canvas =>
      match context2d canvas with
      | Some ctx =>
          let ctx := withStrokeStyle (getStrokeColor env) ctx in
          let position := getPos env event in
          let ctx := withPath [position] ctx in
          {| canvasRef := Some (withDrawing (bitmap canvas) ctx canvas);
             drawing := true;
             lastX := fst position; lastY := snd position |}
      | None => pad
      end
  | None => pad
  end.

Definition handlePointerMove (env : Env) (event : PointerEvent) (pad : Pad) : Pad :=
  match canvasRef pad with
  | Some canvas =>
      match context2d canvas with
      | Some ctx =>
          if negb (drawing pad) then pad
          else
            let ctx := withStrokeStyle (getStrokeColor env) ctx in
            let position := getPos env event in
            let ctx := withPath (path ctx ++ [position])%list ctx in
            {| canvasRef :=
                 Some (withDrawing (strokePath ctx (bitmap canvas)) ctx canvas);
               drawing := drawing pad;
               lastX := fst position; lastY := snd position |}
      | None => pad
      end
  | None => pad
  end.

(** [stopDrawing], bound to pointerup, pointerleave and pointercancel. *)
Definition stopDrawing (props : Props) (pad : Pad) (host : H) : Pad * H :=
  match canvasRef pad with
  | Some canvas =>
      match context2d canvas with
      | Some _ =>
          let pad := {| canvasRef := canvasRef pad; drawing := false;
                        lastX := lastX pad; lastY := lastY pad |} in
          (pad, emitChange props pad host)
      | None => (pad, host)
      end
  | None => (pad, host)
  end.

(** [handleClear], bound to the reset button. *)
Definition handleClear (props : Props) (env : Env) (pad : Pad) (host : H) : Pad * H :=
  match canvasRef pad with
  | None => (pad, host)
  | Some canvas =>
      match context2d canvas with
      | None => (pad, host)
      | Some ctx =>
          let w := inject_Z (width canvas) in
          let h := inject_Z (height canvas) in
          let b := clearRect ctx 0 0 w h (bitmap canvas) in
          let ctx := withFillStyle (getBackgroundColor env) ctx in
          let b := fillRect ctx 0 0 w h b in
          ({| canvasRef := Some (withDrawing b ctx canvas);
              drawing := drawing pad;
              lastX := lastX pad; lastY := lastY pad |},
           match onChange props with
           | Some notify => notify None host
           | None => host
           end)
      end
  end.

(** The pad after its two effects have run on a fresh canvas element. *)
Definition mount (env : Env) (has2d : bool) : Pad :=
  let canvas :=
    {| width := 300; height := 150; styleWidth := None; styleHeight := None;
       bitmap := fun _ _ => Transparent;
       context2d := if has2d then Some defaultContext else None |} in
  {| canvasRef := Some (resizeCanvas env canvas); drawing := false;
     lastX := 0; lastY := 0 |}.

(** The [resize] listener of the first effect: [resizeCanvas] on the canvas
    the effect captured. *)
Definition handleResize (env : Env) (pad : Pad) : Pad :=
  match canvasRef pad with
  | Some canvas =>
      {| canvasRef := Some (resizeCanvas env canvas); drawing := drawing pad;
         lastX := lastX pad; lastY := lastY pad |}
  | None => pad
  end.

(** A run of pointermove events. *)
Definition drag (env : Env) (events : list PointerEvent) (pad : Pad) : Pad :=
  fold_left (fun pad event => handlePointerMove env event pad) events pad.

(** The bitmap after [ctx.stroke()] on the growing path, once for each new
    point: [p] is the path so far, [new] the points still to come. *)
Fixpoint strokes (ctx : Context2D) (p : list (Q * Q)) (new : list (Q * Q))
         (b : Bitmap) : Bitmap :=
  match new with
  | [] => b
  | q :: r =>
      strokes ctx (p ++ [q])%list r (strokePath (withPath (p ++ [q])%list ctx) b)
  end.

(** The events the component listens to: the five pointer events on the
    canvas, a click on the reset button and a resize of the window. *)
Inductive PadEvent : Type :=
| pointerdown (event : PointerEvent)
| pointermove (event : PointerEvent)
| pointerup
| pointerleave
| pointercancel
| click
| resize.

(** The listener bound to each event, run on the pad and on the owner of
    [onChange]. *)
Definition dispatch (props : Props) (env : Env) (e : PadEvent) (s : Pad * H)
  : Pad * H :=
  match e with
  | pointerdown event => (handlePointerDown env event (fst s), snd s)
  | pointermove event => (handlePointerMove env event (fst s), snd s)
  | pointerup | pointerleave | pointercancel => stopDrawing props (fst s) (snd s)
  | click => handleClear props env (fst s) (snd s)
  | resize => (handleResize env (fst s), snd s)
  end.

Definition play (props : Props) (env : Env) (events : list PadEvent)
           (s : Pad * H) : Pad * H :=
  fold_left (fun s e => dispatch props env e s) events s.

End Component.

(** The bitmap shows nothing but the colour [bg]. *)
Definition blank (bg : string) (c : Canvas) : Prop :=
  forall i j, 0 <= i < width c -> 0 <= j < height c -> bitmap c i j = Painted bg.

End SignaturePad.

(* ================================================================== *)
(** * [App.tsx] *)
(* ================================================================== *)

Module App.

(** ** Data *)

Record Customer : Type := mkCustomer {
  fullName : string;
  email : string;
  street : string;
  city : string;
  phone : string
}.

Record Order : Type := mkOrder {
  orderNumber : string;
  technician : string;
  technicianTwo : string;
  month : string;
  year : string;
  company : string
}.

Record ServiceEntry : Type := mkServiceEntry {
  id : string;
  date : string;
  description : string;
  hours : string;
  rate : string
}.

Record CompanyOption : Type := mkCompanyOption {
  label : string;
  value : string;
  address : string
}.

Definition companyOptions : list CompanyOption :=
  [ {| label := "IT Systemhaus Alsleben GmbH";
       value := "alsleben";
       address := "Treskowallee 114, 10319 Berlin" |};
    {| label := "Talk & Phone GmbH";
       value := "talk-phone";
       address := "Treskowallee 114, 10319 Berlin" |} ].

Definition paymentOptions : list string :=
  [ "Barzahlung"; "Kartenzahlung"; "Rechnung" ].

(** [createEmptyService]; [uuid] is the value [crypto.randomUUID()]
    returns. *)
Definition createEmptyService (uuid : string) : ServiceEntry :=
  {| id := uuid; date := ""; description := ""; hours := ""; rate := "" |}.

(** The services that [App.tsx] obtains from jsPDF: the page width it
    reports for an A4 portrait page in mm, and its line breaker. *)
Class Platform : Type := {
  pageWidth : Q;
  splitTextToSize : string -> Q -> list string
}.

Definition formatCurrency (value : JS.Number) : string :=
  JS.currencyDeDE value.

(** ** The state of the component *)

Record State : Type := mkState {
  customer : Customer;
  order : Order;
  paymentMethod : string;
  services : list ServiceEntry;
  showSecondTechnician : bool;
  companyTouched : bool;
  technicianSignature : option string;
  customerSignature : option string
}.

(** The state of the first render: [thisYear] is
    [new Date().getFullYear().toString()], [uuid] the identifier drawn for
    the first service entry. *)
Definition initialState (thisYear uuid : string) : State :=
  {| customer := {| fullName := ""; email := ""; street := ""; city := "";
                    phone := "" |};
     order := {| orderNumber := ""; technician := ""; technicianTwo := "";
                 month := ""; year := thisYear; company := "" |};
     paymentMethod := hd "" paymentOptions;
     services := [createEmptyService uuid];
     showSecondTechnician := false;
     companyTouched := false;
     technicianSignature := None;
     customerSignature := None |}.

(** The state setters of [useState]. *)
Definition setCustomer (f : Customer -> Customer) (st : State) : State :=
  {| customer := f (customer st); order := order st;
     paymentMethod := paymentMethod st; services := services st;
     showSecondTechnician := showSecondTechnician st;
     companyTouched := companyTouched st;
     technicianSignature := technicianSignature st;
     customerSignature := customerSignature st |}.

Definition setOrder (f : Order -> Order) (st : State) : State :=
  {| customer := customer st; order := f (order st);
     paymentMethod := paymentMethod st; services := services st;
     showSecondTechnician := showSecondTechnician st;
     companyTouched := companyTouched st;
     technicianSignature := technicianSignature st;
     customerSignature := customerSignature st |}.

Definition setPaymentMethod (p : string) (st : State) : State :=
  {| customer := customer st; order := order st;
     paymentMethod := p; services := services st;
     showSecondTechnician := showSecondTechnician st;
     companyTouched := companyTouched st;
     technicianSignature := technicianSignature st;
     customerSignature := customerSignature st |}.

Definition setServices (f : list ServiceEntry -> list ServiceEntry) (st : State) : State :=
  {| customer := customer st; order := order st;
     paymentMethod := paymentMethod st; services := f (services st);
     showSecondTechnician := showSecondTechnician st;
     companyTouched := companyTouched st;
     technicianSignature := technicianSignature st;
     customerSignature := customerSignature st |}.

Definition setShowSecondTechnician (b : bool) (st : State) : State :=
  {| customer := customer st; order := order st;
     paymentMethod := paymentMethod st; services := services st;
     showSecondTechnician := b;
     companyTouched := companyTouched st;
     technicianSignature := technicianSignature st;
     customerSignature := customerSignature st |}.

Definition setCompanyTouched (b : bool) (st : State) : State :=
  {| customer := customer st; order := order st;
     paymentMethod := paymentMethod st; services := services st;
     showSecondTechnician := showSecondTechnician st;
     companyTouched := b;
     technicianSignature := technicianSignature st;
     customerSignature := customerSignature st |}.

Definition setTechnicianSignature (s : option string) (st : State) : State :=
  {| customer := customer st; order := order st;
     paymentMethod := paymentMethod st; services := services st;
     showSecondTechnician := showSecondTechnician st;
     companyTouched := companyTouched st;
     technicianSignature := s;
     customerSignature := customerSignature st |}.

Definition setCustomerSignature (s : option string) (st : State) : State :=
  {| customer := customer st; order := order st;
     paymentMethod := paymentMethod st; services := services st;
     showSecondTechnician := showSecondTechnician st;
     companyTouched := companyTouched st;
     technicianSignature := technicianSignature st;
     customerSignature := s |}.

(** ** Derived values *)

Definition totalHours (services : list ServiceEntry) : JS.Number :=
  fold_left
    (fun acc service =>
       let hours := JS.parseFloat (hours service) in
       if JS.isFinite hours then JS.add acc hours else acc)
    services JS.zero.

Definition totalAmount (services : list ServiceEntry) : JS.Number :=
  fold_left
    (fun acc service =>
       let rate := JS.parseFloat (rate service) in
       if JS.isFinite rate then JS.add acc rate else acc)
    services JS.zero.

Definition findCompany (order : Order) : option CompanyOption :=
  find (fun company => String.eqb (value company) (App.company order))
       companyOptions.

Definition companyAddress (order : Order) : string :=
  match findCompany order with
  | Some company => address company
  | None => ""
  end.

Definition companyLabel (order : Order) : string :=
  match findCompany order with
  | Some company => label company
  | None => ""
  end.

Definition companyError (st : State) : bool :=
  companyTouched st && negb (JS.truthy (company (order st))).

(** ** Handlers *)

Inductive CustomerField : Type :=
| FullName | Email | Street | City | Phone.

Inductive OrderField : Type :=
| OrderNumber | Technician | TechnicianTwo | Month | Year | Company.

(** [keyof Omit<ServiceEntry, 'id'>]. *)
Inductive ServiceField : Type :=
| Date | Description | Hours | Rate.

Definition updateCustomer (field : CustomerField) (v : string) (prev : Customer) : Customer :=
  match field with
  | FullName => {| fullName := v; email := email prev; street := street prev;
                   city := city prev; phone := phone prev |}
  | Email => {| fullName := fullName prev; email := v; street := street prev;
                city := city prev; phone := phone prev |}
  | Street => {| fullName := fullName prev; email := email prev; street := v;
                 city := city prev; phone := phone prev |}
  | City => {| fullName := fullName prev; email := email prev;
               street := street prev; city := v; phone := phone prev |}
  | Phone => {| fullName := fullName prev; email := email prev;
                street := street prev; city := city prev; phone := v |}
  end.

Definition updateOrder (field : OrderField) (v : string) (prev : Order) : Order :=
  match field with
  | OrderNumber =>
      {| orderNumber := v; technician := technician prev;
         technicianTwo := technicianTwo prev; month := month prev;
         year := year prev; company := company prev |}
  | Technician =>
      {| orderNumber := orderNumber prev; technician := v;
         technicianTwo := technicianTwo prev; month := month prev;
         year := year prev; company := company prev |}
  | TechnicianTwo =>
      {| orderNumber := orderNumber prev; technician := technician prev;
         technicianTwo := v; month := month prev;
         year := year prev; company := company prev |}
  | Month =>
      {| orderNumber := orderNumber prev; technician := technician prev;
         technicianTwo := technicianTwo prev; month := v;
         year := year prev; company := company prev |}
  | Year =>
      {| orderNumber := orderNumber prev; technician := technician prev;
         technicianTwo := technicianTwo prev; month := month prev;
         year := v; company := company prev |}
  | Company =>
      {| orderNumber := orderNumber prev; technician := technician prev;
         technicianTwo := technicianTwo prev; month := month prev;
         year := year prev; company := v |}
  end.

Definition updateService (field : ServiceField) (v : string) (service : ServiceEntry) : ServiceEntry :=
  match field with
  | Date => {| id := id service; date := v; description := description service;
               hours := hours service; rate := rate service |}
  | Description => {| id := id service; date := date service; description := v;
                      hours := hours service; rate := rate service |}
  | Hours => {| id := id service; date := date service;
                description := description service;
                hours := v; rate := rate service |}
  | Rate => {| id := id service; date := date service;
               description := description service;
               hours := hours service; rate := v |}
  end.

Definition handleCustomerChange (field : CustomerField) (v : string) : State -> State :=
  setCustomer (updateCustomer field v).

Definition handleOrderChange (field : OrderField) (v : string) : State -> State :=
  setOrder (updateOrder field v).

Definition handleServiceChange (i : string) (field : ServiceField) (v : string) : State -> State :=
  setServices
    (fun prev =>
       map (fun service =>
              if String.eqb (id service) i then updateService field v service
              else service)
           prev).

Definition addService (uuid : string) : State -> State :=
  setServices (fun prev => (prev ++ [createEmptyService uuid])%list).

Definition removeService (i : string) : State -> State :=
  setServices
    (fun prev =>
       if (List.length prev =? 1)%nat then prev
       else filter (fun service => negb (String.eqb (id service) i)) prev).

Definition handleAddSecondTechnician : State -> State :=
  setShowSecondTechnician true.

Definition handleRemoveSecondTechnician (st : State) : State :=
  handleOrderChange TechnicianTwo "" (setShowSecondTechnician false st).

(** The conditional rendering [{showSecondTechnician && (...)}] of the
    second technician's input. *)
Definition secondTechnicianFieldShown (st : State) : bool :=
  showSecondTechnician st.

(** ** The jsPDF document *)

(** The first argument of [pdf.text]: a string or an array of lines. *)
Inductive TextArg : Type :=
| Str (s : string)
| Lines (l : list string).

(** One call on the [jsPDF] object.  Horizontal positions and widths are
    rationals (they depend on the page width the library reports); vertical
    positions and heights are integers, as every one of them is a sum of
    integer constants and of integer multiples of line counts. *)
Inductive PdfCall : Type :=
| jsPDF (orientation unit format : string)
| setFont (family style : string)
| setFontSize (size : Z)
| text (t : TextArg) (x : Q) (y : Z) (align : option string)
| setFillColor (r g b : Z)
| rect (x : Q) (y : Z) (w : Q) (h : Z) (style : string)
| line (x1 : Q) (y1 : Z) (x2 : Q) (y2 : Z)
| addImage (data format : string) (x : Q) (y : Z) (w : Q) (h : Z)
| save (filename : string).

(** A step of the export: it reads and moves [cursorY] and appends calls to
    the document. *)
Definition Render (A : Type) : Type :=
  Z -> list PdfCall -> A * Z * list PdfCall.

Definition ret {A : Type} (a : A) : Render A :=
  fun y log => (a, y, log).

Definition bind {A B : Type} (m : Render A) (k : A -> Render B) : Render B :=
  fun y log => let '(a, y', log') := m y log in k a y' log'.

Definition pdf (c : PdfCall) : Render unit :=
  fun y log => (tt, y, (log ++ [c])%list).

Definition cursorY : Render Z :=
  fun y log => (y, y, log).

Definition advance (d : Z) : Render unit :=
  fun y log => (tt, y + d, log).

Notation "x <- m ;; k" := (bind m (fun x => k))
  (at level 61, m at next level, right associativity).
Notation "m ;; k" := (bind m (fun _ => k))
  (at level 61, right associativity).

Fixpoint forEach {A : Type} (l : list A) (f : A -> Render unit) : Render unit :=
  match l with
  | [] => ret tt
  | a :: r => f a ;; forEach r f
  end.

(** The calls a step makes when it starts at [y], and where it leaves the
    cursor. *)
Definition calls {A : Type} (m : Render A) (y : Z) : list PdfCall :=
  snd (m y []).

Definition cursorAfter {A : Type} (m : Render A) (y : Z) : Z :=
  snd (fst (m y [])).

(** A step extends the document it is given; what it appends and where it
    leaves the cursor do not depend on that document. *)
Definition appends {A : Type} (m : Render A) : Prop :=
  forall y log,
    m y log = (fst (fst (m y [])), cursorAfter m y, (log ++ calls m y)%list).

Section ExportPdf.

Context `{Platform}.

Definition marginX : Q := 20.
Definition tableWidth : Q := pageWidth - marginX * 2.
Definition dateWidth : Q := 35.
Definition hoursWidth : Q := 30.
Definition priceWidth : Q := 35.
Definition descWidth : Q := tableWidth - dateWidth - hoursWidth - priceWidth.
Definition headerHeight : Z := 8.
Definition signatureWidth : Q := 60.
Definition signatureHeight : Z := 23.

Definition technicianLines (st : State) : list string :=
  filter JS.truthy
    [ JS.or_else (technician (order st)) "-";
      if JS.truthy (technicianTwo (order st))
      then "+ " ++ technicianTwo (order st) else "";
      companyLabel (order st);
      companyAddress (order st) ].

Definition customerLines (st : State) : list string :=
  filter JS.truthy
    [ JS.or_else (fullName (customer st)) "-";
      JS.or_else (street (customer st)) "";
      JS.or_else (city (customer st)) "";
      if JS.truthy (phone (customer st))
      then "Tel: " ++ phone (customer st) else "";
      if JS.truthy (email (customer st))
      then "E-Mail: " ++ email (customer st) else "" ].

Definition technicianBlockHeight (st : State) : Z :=
  (Z.of_nat (List.length (technicianLines st)) + 1) * 6.

Definition customerBlockHeight (st : State) : Z :=
  (Z.of_nat (List.length (customerLines st)) + 1) * 6.

Definition summaryLines (st : State) : list string :=
  [ "Auftragsnummer: " ++ JS.or_else (orderNumber (order st)) "-";
    JS.trim ("Zeitraum: " ++ JS.or_else (month (order st)) "-" ++ " "
             ++ JS.or_else (year (order st)) "");
    "Zahlungsart: " ++ paymentMethod st ].

(** The title. *)
Definition renderTitle : Render unit :=
  pdf (setFont "helvetica" "bold") ;;
  pdf (setFontSize 20) ;;
  y <- cursorY ;;
  pdf (text (Str "Leistungsnachweis") (pageWidth / 2) y (Some "center")) ;;
  advance 14.

(** The technician block and the customer block, side by side. *)
Definition renderBlocks (st : State) : Render unit :=
  pdf (setFontSize 11) ;;
  y <- cursorY ;;
  pdf (text (Str "Techniker:") marginX y None) ;;
  pdf (setFont "helvetica" "normal") ;;
  pdf (text (Lines (technicianLines st)) marginX (y + 6) None) ;;
  pdf (setFont "helvetica" "bold") ;;
  pdf (text (Str "Kunde:") (pageWidth / 2 + 5) y None) ;;
  pdf (setFont "helvetica" "normal") ;;
  pdf (text (Lines (customerLines st)) (pageWidth / 2 + 5) (y + 6) None) ;;
  advance (Z.max (technicianBlockHeight st) (customerBlockHeight st) + 4).

(** The three summary lines. *)
Definition renderSummary (st : State) : Render unit :=
  pdf (setFont "helvetica" "normal") ;;
  forEach (summaryLines st)
    (fun l => y <- cursorY ;; pdf (text (Str l) marginX y None) ;; advance 6).

(** The shaded header row of the table. *)
Definition renderTableHeader : Render unit :=
  pdf (setFillColor 240 240 240) ;;
  y <- cursorY ;;
  pdf (rect marginX y tableWidth headerHeight "F") ;;
  pdf (setFont "helvetica" "bold") ;;
  pdf (text (Str "Datum") (marginX + 3) (y + 6) None) ;;
  pdf (text (Str "Beschreibung") (marginX + dateWidth + 3) (y + 6) None) ;;
  pdf (text (Str "Stunden") (marginX + dateWidth + descWidth + 3) (y + 6) None) ;;
  pdf (text (Str "Preis") (marginX + dateWidth + descWidth + hoursWidth + 3)
         (y + 6) None) ;;
  advance headerHeight ;;
  pdf (setFont "helvetica" "normal").

(** The cells of one service row. *)
Definition dateText (service : ServiceEntry) : string :=
  JS.or_else (date service) "-".

Definition hoursText (service : ServiceEntry) : string :=
  let hoursValue := JS.parseFloat (hours service) in
  if JS.isFinite hoursValue then JS.toFixed 2 hoursValue else "-".

Definition rateText (service : ServiceEntry) : string :=
  let rateValue := JS.parseFloat (rate service) in
  if JS.isFinite rateValue then formatCurrency rateValue else "-".

Definition descLines (service : ServiceEntry) : list string :=
  splitTextToSize (JS.or_else (description service) "-") (descWidth - 6).

Definition rowHeight (service : ServiceEntry) : Z :=
  Z.max (Z.of_nat (List.length (descLines service)) * 6) 8.

(** The body of [services.forEach]. *)
Definition renderRow (service : ServiceEntry) : Render unit :=
  y <- cursorY ;;
  pdf (text (Str (dateText service)) (marginX + 3) (y + 5) None) ;;
  pdf (text (Lines (descLines service)) (marginX + dateWidth + 3) (y + 5) None) ;;
  pdf (text (Str (hoursText service)) (marginX + dateWidth + descWidth + 3)
         (y + 5) None) ;;
  pdf (text (Str (rateText service))
         (marginX + dateWidth + descWidth + hoursWidth + 3) (y + 5) None) ;;
  pdf (line marginX (y + rowHeight service) (marginX + tableWidth)
         (y + rowHeight service)) ;;
  advance (rowHeight service).

(** The totals below the table. *)
Definition renderTotals (st : State) : Render unit :=
  advance 8 ;;
  y <- cursorY ;;
  pdf (text (Str ("Gesamtstunden: " ++ JS.toFixed 2 (totalHours (services st))))
         marginX y None) ;;
  advance 6 ;;
  y <- cursorY ;;
  pdf (text (Str ("Gesamtpreis: " ++ formatCurrency (totalAmount (services st))))
         marginX y None).

(** [if (signature) pdf.addImage(...)]: null and the empty string are
    falsy. *)
Definition addSignature (signature : option string) (x : Q) (y : Z) : Render unit :=
  match signature with
  | Some data =>
      if JS.truthy data
      then pdf (addImage data "PNG" x (y - signatureHeight) signatureWidth
                  signatureHeight)
      else ret tt
  | None => ret tt
  end.

(** The signature images, the two rules and their captions. *)
Definition renderSignatures (st : State) : Render unit :=
  advance 20 ;;
  y <- cursorY ;;
  addSignature (technicianSignature st) marginX y ;;
  addSignature (customerSignature st) (pageWidth - marginX - signatureWidth) y ;;
  pdf (line marginX y (marginX + signatureWidth + 20) y) ;;
  pdf (line (pageWidth - marginX - signatureWidth - 20) y (pageWidth - marginX) y) ;;
  pdf (text (Str "Datum, Unterschrift Techniker") marginX (y + 6) None) ;;
  pdf (text (Str "Datum, Unterschrift Kunde")
         (pageWidth - marginX - signatureWidth - 10) (y + 6) None).

(** Everything [handleExportPdf] does once the company is known. *)
Definition renderDocument (st : State) : Render unit :=
  renderTitle ;;
  renderBlocks st ;;
  renderSummary st ;;
  advance 6 ;;
  renderTableHeader ;;
  forEach (services st) renderRow ;;
  renderTotals st ;;
  renderSignatures st ;;
  pdf (save "leistungsnachweis.pdf").

(** The calls made on the document, in order. *)
Definition document (st : State) : list PdfCall :=
  let '(_, _, log) := renderDocument st 25 [jsPDF "p" "mm" "a4"] in log.

(** [handleExportPdf]: the next state, and the document that is saved, if
    any. *)
Definition handleExportPdf (st : State) : State * option (list PdfCall) :=
  if negb (JS.truthy (company (order st))) then (setCompanyTouched true st, None)
  else (st, Some (document st)).

(** ** Runs of the component *)

(** What the user and the two pads can do to the state. *)
Inductive Action : Type :=
| CustomerChange (field : CustomerField) (v : string)
| OrderChange (field : OrderField) (v : string)
| ServiceChange (i : string) (field : ServiceField) (v : string)
| AddService (uuid : string)
| RemoveService (i : string)
| AddSecondTechnician
| RemoveSecondTechnician
| PaymentMethod (p : string)
| CompanyBlur
| ExportPdf
| TechnicianSignature (s : option string)
| CustomerSignature (s : option string).

Definition step (a : Action) (st : State) : State :=
  match a with
  | CustomerChange field v => handleCustomerChange field v st
  | OrderChange field v => handleOrderChange field v st
  | ServiceChange i field v => handleServiceChange i field v st
  | AddService uuid => addService uuid st
  | RemoveService i => removeService i st
  | AddSecondTechnician => handleAddSecondTechnician st
  | RemoveSecondTechnician => handleRemoveSecondTechnician st
  | PaymentMethod p => setPaymentMethod p st
  | CompanyBlur => setCompanyTouched true st
  | ExportPdf => fst (handleExportPdf st)
  | TechnicianSignature s => setTechnicianSignature s st
  | CustomerSignature s => setCustomerSignature s st
  end.

Definition run (acts : list Action) (st : State) : State :=
  fold_left (fun st a => step a st) acts st.

(** [crypto.randomUUID()] does not repeat an identifier: the one drawn for
    a new entry differs from those of the entries in the list. *)
Definition fresh (uuid : string) (st : State) : bool :=
  negb (existsb (fun service => String.eqb (id service) uuid) (services st)).

Fixpoint admissible (acts : list Action) (st : State) : bool :=
  match acts with
  | [] => true
  | a :: r =>
      match a with
      | AddService uuid => fresh uuid st
      | _ => true
      end
      && admissible r (step a st)
  end.

(** What the rendered page offers in state [st]: the input of the second
    technician and its remove button exist while [showSecondTechnician]
    holds, the add button while it does not; the company is chosen among the
    options of the select, the payment method among the buttons; every row
    carries the inputs and the delete button of its own entry; a new entry
    gets an identifier that is not in use. *)
Definition offered (a : Action) (st : State) : bool :=
  match a with
  | OrderChange TechnicianTwo _ => showSecondTechnician st
  | OrderChange Company v =>
      existsb (fun option => String.eqb (value option) v) companyOptions
  | ServiceChange i _ _ | RemoveService i =>
      existsb (fun service => String.eqb (id service) i) (services st)
  | AddService uuid => fresh uuid st
  | AddSecondTechnician => negb (showSecondTechnician st)
  | RemoveSecondTechnician => showSecondTechnician st
  | PaymentMethod p => existsb (String.eqb p) paymentOptions
  | _ => true
  end.

Fixpoint offeredRun (acts : list Action) (st : State) : bool :=
  match acts with
  | [] => true
  | a :: r => offered a st && offeredRun r (step a st)
  end.

(** Where the two signature rules are drawn: the constant advances of the
    export, the taller of the two blocks and the rows of the table. *)
(** The height at which the first summary line is printed. *)
Definition summaryY (st : State) : Z :=
  43 + Z.max (technicianBlockHeight st) (customerBlockHeight st).

Definition ruleY (st : State) : Z :=
  109 + Z.max (technicianBlockHeight st) (customerBlockHeight st)
  + fold_right Z.add 0 (map rowHeight (services st)).

(** The image a signature gives: none for null and for the empty string,
    else one that stands on the rule at height [y]. *)
Definition signatureImage (signature : option string) (x : Q) (y : Z)
  : list PdfCall :=
  match signature with
  | Some data =>
      if JS.truthy data
      then [addImage data "PNG" x (y - signatureHeight) signatureWidth
              signatureHeight]
      else []
  | None => []
  end.

End ExportPdf.

(** Each entry of the list with the cursor position at which its row
    starts, when the first row starts at [y] and every row is as tall as
    [height] says. *)
Fixpoint rowsFrom {A : Type} (height : A -> Z) (l : list A) (y : Z) : list (A * Z) :=
  match l with
  | [] => []
  | a :: r => (a, y) :: rowsFrom height r (y + height a)
  end.

(** The list of entries is not empty and no identifier occurs twice. *)
Definition wellFormed (l : list ServiceEntry) : Prop :=
  l <> [] /\ NoDup (map id l).

(** [l1] is [l2] with some elements left out, the others in their order. *)
Inductive Subsequence {A : Type} : list A -> list A -> Prop :=
| sub_nil : Subsequence [] []
| sub_skip (x : A) (l1 l2 : list A) :
    Subsequence l1 l2 -> Subsequence l1 (x :: l2)
| sub_keep (x : A) (l1 l2 : list A) :
    Subsequence l1 l2 -> Subsequence (x :: l1) (x :: l2).

(** [fold_left] of [+] from zero: the sum a [reduce] accumulates. *)
Definition sum (l : list JS.Number) : JS.Number :=
  fold_left JS.add l JS.zero.

(** [Number.isFinite(parseFloat(v))]. *)
Definition parses (v : string) : bool :=
  JS.isFinite (JS.parseFloat v).


(** ** Reading the state *)

(** The property of a record that a key names. *)
Definition customerField (field : CustomerField) (c : Customer) : string :=
  match field with
  | FullName => fullName c
  | Email => email c
  | Street => street c
  | City => city c
  | Phone => phone c
  end.

Definition orderField (field : OrderField) (o : Order) : string :=
  match field with
  | OrderNumber => orderNumber o
  | Technician => technician o
  | TechnicianTwo => technicianTwo o
  | Month => month o
  | Year => year o
  | Company => company o
  end.

Definition serviceField (field : ServiceField) (s : ServiceEntry) : string :=
  match field with
  | Date => date s
  | Description => description s
  | Hours => hours s
  | Rate => rate s
  end.

(** How an entry [s] and the entry [s'] in its place are related after
    [handleServiceChange i field v]. *)
Definition changed (i : string) (field : ServiceField) (v : string)
           (s s' : ServiceEntry) : Prop :=
  id s' = id s
  /\ (id s = i ->
      serviceField field s' = v
      /\ forall g, g <> field -> serviceField g s' = serviceField g s)
  /\ (id s <> i -> s' = s).

(** The images of a document: its [addImage] calls. *)
Definition isAddImage (c : PdfCall) : bool :=
  match c with
  | addImage _ _ _ _ _ _ => true
  | _ => false
  end.

Definition images (doc : list PdfCall) : list PdfCall :=
  filter isAddImage doc.

(** The calls of a document other than its images. *)
Definition withoutImages (doc : list PdfCall) : list PdfCall :=
  filter (fun c => negb (isAddImage c)) doc.

(** 1 for a string that is not empty, 0 for the empty string. *)
Definition present (s : string) : Z :=
  if JS.truthy s then 1 else 0.

(** [order.company] is the value of one of the company options. *)
Definition listed (o : Order) : bool :=
  existsb (fun option => String.eqb (value option) (company o)) companyOptions.

(** What holds of the form besides the shape of the list of entries. *)
Definition consistent (st : State) : Prop :=
  In (paymentMethod st) paymentOptions
  /\ (company (order st) = "" \/ listed (order st) = true)
  /\ (showSecondTechnician st = false -> technicianTwo (order st) = "").

(** ** The two signature pads *)

Definition technicianPad : SignaturePad.Props (H := State) :=
  {| SignaturePad.label := "Unterschrift Techniker";
     SignaturePad.helper :=
       Some "Unterschrift des Technikers zur Bestätigung der erbrachten Leistungen";
     SignaturePad.onChange := Some setTechnicianSignature |}.

Definition customerPad : SignaturePad.Props (H := State) :=
  {| SignaturePad.label := "Unterschrift Kunde";
     SignaturePad.helper :=
       Some "Unterschrift des Kunden zur Bestätigung der erbrachten Leistungen";
     SignaturePad.onChange := Some setCustomerSignature |}.

End App.

(* ================================================================== *)
(** * A platform to run the model on *)
(* ================================================================== *)

Module Reference.

(** jsPDF reports 595.28 pt for the width of an A4 page, that is
    945007/4500 mm.  The line breaker here never breaks a line. *)
#[export] Instance platform : App.Platform :=
  {| App.pageWidth := 945007 # 4500;
     App.splitTextToSize := fun t _ => [t] |}.

(** An encoder that writes the size of the bitmap and the colour of every
    pixel, row by row, in place of the PNG stream; and a rasteriser that
    paints the device pixel under each point of the path. *)
Definition pixelCode (p : SignaturePad.Pixel) : string :=
  match p with
  | SignaturePad.Transparent => "transparent;"
  | SignaturePad.Painted c => c ++ ";"
  | SignaturePad.Blended _ _ _ => "blended;"
  end.

Definition dumpRow (b : SignaturePad.Bitmap) (w : Z) (j : Z) : string :=
  concat "" (map (fun i => pixelCode (b (Z.of_nat i) j)) (seq 0 (Z.to_nat w))).

Definition dump (w h : Z) (b : SignaturePad.Bitmap) : string :=
  "data:image/png;base64,"
  ++ string_of_list_ascii (JS.digits w) ++ "x"
  ++ string_of_list_ascii (JS.digits h) ++ ":"
  ++ concat "" (map (fun j => dumpRow b w (Z.of_nat j)) (seq 0 (Z.to_nat h))).

Definition paintPoints (ctx : SignaturePad.Context2D) (b : SignaturePad.Bitmap)
  : SignaturePad.Bitmap :=
  fun i j =>
    if existsb
         (fun p : Q * Q =>
            (Qfloor (SignaturePad.scale ctx * fst p) =? i)
            && (Qfloor (SignaturePad.scale ctx * snd p) =? j))
         (SignaturePad.path ctx)
    then SignaturePad.Painted (SignaturePad.strokeStyle ctx)
    else b i j.

#[export] Instance browser : SignaturePad.Browser :=
  {| SignaturePad.toDataURL := dump;
     SignaturePad.strokePath := paintPoints |}.

(** Three pages to mount a pad on: one zoomed out to 50 %, with a pad of
    200 by 100 CSS pixels, one at 100 % with a pad of 3 by 2, and one zoomed
    in to 120 %, with a pad of 300 by 100. *)
Definition measure (n : N) : Q := inject_Z (Z.of_N n).

Definition measured (w h : N) : (0 <= measure w)%Q /\ (0 <= measure h)%Q.
Proof.
  unfold measure. change 0%Q with (inject_Z 0). rewrite <- !Zle_Qle.
  split; apply N2Z.is_nonneg.
Qed.

Definition box (w h : N) : SignaturePad.Rect :=
  {| SignaturePad.left := 0; SignaturePad.top := 0;
     SignaturePad.rectWidth := measure w; SignaturePad.rectHeight := measure h;
     SignaturePad.rectSides := measured w h |}.

Definition ratioSign (n : N) (d : positive) : (0 <= Z.of_N n # d)%Q.
Proof. unfold Qle. simpl. rewrite Z.mul_1_r. apply N2Z.is_nonneg. Qed.

Definition zoomedOut : SignaturePad.Env :=
  {| SignaturePad.devicePixelRatio := 1 # 2;
     SignaturePad.devicePixelRatioSign := ratioSign 1 2;
     SignaturePad.parentRect := Some (box 200 100);
     SignaturePad.canvasRect := box 200 100;
     SignaturePad.getPropertyValue := fun _ => "" |}.

Definition small : SignaturePad.Env :=
  {| SignaturePad.devicePixelRatio := 1;
     SignaturePad.devicePixelRatioSign := ratioSign 1 1;
     SignaturePad.parentRect := Some (box 3 2);
     SignaturePad.canvasRect := box 3 2;
     SignaturePad.getPropertyValue := fun _ => "" |}.

Definition zoomedIn : SignaturePad.Env :=
  {| SignaturePad.devicePixelRatio := 6 # 5;
     SignaturePad.devicePixelRatioSign := ratioSign 6 5;
     SignaturePad.parentRect := Some (box 300 100);
     SignaturePad.canvasRect := box 300 100;
     SignaturePad.getPropertyValue := fun _ => "" |}.

Definition pointerAt (x y : Q) : SignaturePad.PointerEvent :=
  {| SignaturePad.clientX := x; SignaturePad.clientY := y |}.

(** A pad on the zoomed-out page after a stroke from (150, 80) to
    (160, 80), on any browser. *)
Definition signedZoomedOut `{SignaturePad.Browser} : SignaturePad.Pad :=
  SignaturePad.handlePointerMove zoomedOut (pointerAt 160 80)
    (SignaturePad.handlePointerDown zoomedOut (pointerAt 150 80)
       (SignaturePad.mount zoomedOut true)).

End Reference.

(* ================================================================== *)
(** * Properties of the derived totals *)
(* ================================================================== *)

Import App.

Section Totals.

Variable A : Type.
Variable keep : A -> bool.
Variable val : A -> JS.Number.

(** A [reduce] that adds the selected elements only is the sum over the
    filtered list, from any accumulator. *)
Lemma reduce_selected (l : list A) (acc : JS.Number) :
  fold_left (fun acc a => if keep a then JS.add acc (val a) else acc) l acc
  = fold_left JS.add (map val (filter keep l)) acc.
Proof.
  revert acc; induction l as [|a l IH]; intro acc; simpl.
  - reflexivity.
  - destruct (keep a); simpl; apply IH.
Qed.

(** An element that is not selected can be dropped from the list. *)
Lemma filter_middle (before after : list A) (a : A) :
  filter keep (before ++ a :: after)
  = (filter keep before ++ (if keep a then [a] else []) ++ filter keep after)%list.
Proof.
  rewrite filter_app; simpl. destruct (keep a); reflexivity.
Qed.

End Totals.

Lemma totalHours_sum (l : list ServiceEntry) :
  totalHours l
  = sum (map (fun s => JS.parseFloat (hours s))
             (filter (fun s => parses (hours s)) l)).
Proof.
  unfold totalHours, sum, parses.
  apply (reduce_selected ServiceEntry
           (fun s => JS.isFinite (JS.parseFloat (hours s)))
           (fun s => JS.parseFloat (hours s))).
Qed.

Lemma totalAmount_sum (l : list ServiceEntry) :
  totalAmount l
  = sum (map (fun s => JS.parseFloat (rate s))
             (filter (fun s => parses (rate s)) l)).
Proof.
  unfold totalAmount, sum, parses.
  apply (reduce_selected ServiceEntry
           (fun s => JS.isFinite (JS.parseFloat (rate s)))
           (fun s => JS.parseFloat (rate s))).
Qed.

(** C1.  For every list of service entries the total of hours is the sum,
    accumulated from zero in list order, of the [hours] values that parse
    as finite numbers, and the total amount is that sum over the [rate]
    values; an entry whose value does not parse can be taken out of the list
    without changing the total.  Both totals are functions of the entry
    list alone. *)
Theorem totals_sum_parseable (l : list ServiceEntry) :
  totalHours l
  = sum (map (fun s => JS.parseFloat (hours s))
             (filter (fun s => parses (hours s)) l))
  /\ totalAmount l
     = sum (map (fun s => JS.parseFloat (rate s))
                (filter (fun s => parses (rate s)) l))
  /\ (forall before s after,
        totalHours (before ++ s :: after)
        = totalHours (before ++ (if parses (hours s) then [s] else []) ++ after)
        /\ totalAmount (before ++ s :: after)
           = totalAmount (before ++ (if parses (rate s) then [s] else []) ++ after)).
Proof.
  split; [apply totalHours_sum|].
  split; [apply totalAmount_sum|].
  intros before s after.
  rewrite !totalHours_sum, !totalAmount_sum.
  rewrite !filter_middle, !filter_app.
  split.
  - destruct (parses (hours s)) eqn:E; simpl; rewrite ?E; reflexivity.
  - destruct (parses (rate s)) eqn:E; simpl; rewrite ?E; reflexivity.
Qed.

(* ================================================================== *)
(** * Properties of the export *)
(* ================================================================== *)

Lemma appends_ret {A : Type} (a : A) : appends (ret a).
Proof. intros y log. unfold ret, calls, cursorAfter. simpl. now rewrite app_nil_r. Qed.

Lemma appends_pdf (c : PdfCall) : appends (pdf c).
Proof. intros y log. reflexivity. Qed.

Lemma appends_cursorY : appends cursorY.
Proof. intros y log. unfold cursorY, calls, cursorAfter. simpl. now rewrite app_nil_r. Qed.

Lemma appends_advance (d : Z) : appends (advance d).
Proof. intros y log. unfold advance, calls, cursorAfter. simpl. now rewrite app_nil_r. Qed.

Lemma appends_bind {A B : Type} (m : Render A) (k : A -> Render B) :
  appends m -> (forall a, appends (k a)) -> appends (bind m k).
Proof.
  intros Hm Hk y log. unfold calls, cursorAfter, bind.
  rewrite (Hm y log).
  destruct (m y []) as [[a y'] c] eqn:E. unfold calls, cursorAfter. rewrite E. simpl.
  rewrite (Hk a y' (log ++ c)%list), (Hk a y' c).
  unfold calls, cursorAfter. simpl. now rewrite app_assoc.
Qed.

Lemma appends_forEach {A : Type} (l : list A) (f : A -> Render unit) :
  (forall a, appends (f a)) -> appends (forEach l f).
Proof.
  intro Hf. induction l as [|a l IH]; simpl.
  - apply appends_ret.
  - apply appends_bind; auto.
Qed.

(** The calls and the final cursor of a sequence of two steps. *)
Lemma calls_seq (m k : Render unit) (y : Z) :
  appends k ->
  calls (m ;; k) y = (calls m y ++ calls k (cursorAfter m y))%list.
Proof.
  intro Hk. unfold calls, cursorAfter, bind.
  destruct (m y []) as [[a y'] c] eqn:E.
  rewrite (Hk y' c). reflexivity.
Qed.

Lemma cursorAfter_seq (m k : Render unit) (y : Z) :
  appends k ->
  cursorAfter (m ;; k) y = cursorAfter k (cursorAfter m y).
Proof.
  intro Hk. unfold cursorAfter, bind.
  destruct (m y []) as [[a y'] c] eqn:E.
  rewrite (Hk y' c). reflexivity.
Qed.

Section ExportProperties.

Context `{Platform}.

Ltac step_appends :=
  repeat first
    [ apply appends_pdf | apply appends_advance | apply appends_cursorY
    | apply appends_ret
    | apply appends_forEach; intro
    | apply appends_bind; [|intro] ].

Lemma appends_renderTitle : appends renderTitle.
Proof. unfold renderTitle. step_appends. Qed.

Lemma appends_renderBlocks (st : State) : appends (renderBlocks st).
Proof. unfold renderBlocks. step_appends. Qed.

Lemma appends_renderSummary (st : State) : appends (renderSummary st).
Proof. unfold renderSummary. step_appends. Qed.

Lemma appends_renderTableHeader : appends renderTableHeader.
Proof. unfold renderTableHeader. step_appends. Qed.

Lemma appends_renderRow (s : ServiceEntry) : appends (renderRow s).
Proof. unfold renderRow. step_appends. Qed.

Lemma appends_renderTotals (st : State) : appends (renderTotals st).
Proof. unfold renderTotals. step_appends. Qed.

Lemma appends_addSignature (sig : option string) (x : Q) (y : Z) :
  appends (addSignature sig x y).
Proof.
  unfold addSignature. destruct sig as [d|]; [destruct (JS.truthy d)|]; step_appends.
Qed.

Lemma appends_renderSignatures (st : State) : appends (renderSignatures st).
Proof.
  unfold renderSignatures.
  repeat first
    [ apply appends_addSignature | apply appends_pdf | apply appends_advance
    | apply appends_cursorY | apply appends_bind; [|intro] ].
Qed.

Lemma appends_rows (l : list ServiceEntry) : appends (forEach l renderRow).
Proof. apply appends_forEach, appends_renderRow. Qed.

End ExportProperties.

Section Layout.

Context `{Platform}.

(** The whole export only appends to the document. *)
Lemma appends_renderDocument (st : State) : appends (renderDocument st).
Proof.
  unfold renderDocument.
  apply appends_bind; [apply appends_renderTitle|intros _].
  apply appends_bind; [apply appends_renderBlocks|intros _].
  apply appends_bind; [apply appends_renderSummary|intros _].
  apply appends_bind; [apply appends_advance|intros _].
  apply appends_bind; [apply appends_renderTableHeader|intros _].
  apply appends_bind; [apply appends_rows|intros _].
  apply appends_bind; [apply appends_renderTotals|intros _].
  apply appends_bind; [apply appends_renderSignatures|intros _].
  apply appends_pdf.
Qed.

Lemma document_calls (st : State) :
  document st = jsPDF "p" "mm" "a4" :: calls (renderDocument st) 25.
Proof.
  unfold document.
  rewrite (appends_renderDocument st 25 [jsPDF "p" "mm" "a4"]).
  reflexivity.
Qed.

(** The saved document, phase by phase, with the cursor at which each phase
    starts. *)
Lemma document_layout (st : State) :
  let y2 := cursorAfter (renderBlocks st) 39 in
  let y3 := y2 + 6 + 6 + 6 + 6 in
  let y4 := y3 + 8 in
  let y5 := cursorAfter (forEach (services st) renderRow) y4 in
  document st
  = (jsPDF "p" "mm" "a4" :: calls renderTitle 25
     ++ calls (renderBlocks st) 39
     ++ calls (renderSummary st) y2
     ++ calls renderTableHeader y3
     ++ calls (forEach (services st) renderRow) y4
     ++ calls (renderTotals st) y5
     ++ calls (renderSignatures st) (y5 + 8 + 6)
     ++ [save "leistungsnachweis.pdf"])%list.
Proof.
  intros y2 y3 y4 y5.
  rewrite document_calls. f_equal. unfold renderDocument.
  assert (Hs : appends (pdf (save "leistungsnachweis.pdf"))) by apply appends_pdf.
  assert (H7 : appends (renderSignatures st ;; pdf (save "leistungsnachweis.pdf")))
    by (apply appends_bind; [apply appends_renderSignatures | intro; exact Hs]).
  assert (H6 : appends (renderTotals st ;; renderSignatures st ;;
                        pdf (save "leistungsnachweis.pdf")))
    by (apply appends_bind; [apply appends_renderTotals | intro; exact H7]).
  assert (H5 : appends (forEach (services st) renderRow ;; renderTotals st ;;
                        renderSignatures st ;; pdf (save "leistungsnachweis.pdf")))
    by (apply appends_bind; [apply appends_rows | intro; exact H6]).
  assert (H4 : appends (renderTableHeader ;; forEach (services st) renderRow ;;
                        renderTotals st ;; renderSignatures st ;;
                        pdf (save "leistungsnachweis.pdf")))
    by (apply appends_bind; [apply appends_renderTableHeader | intro; exact H5]).
  assert (H3 : appends (advance 6 ;; renderTableHeader ;;
                        forEach (services st) renderRow ;;
                        renderTotals st ;; renderSignatures st ;;
                        pdf (save "leistungsnachweis.pdf")))
    by (apply appends_bind; [apply appends_advance | intro; exact H4]).
  assert (H2 : appends (renderSummary st ;; advance 6 ;; renderTableHeader ;;
                        forEach (services st) renderRow ;;
                        renderTotals st ;; renderSignatures st ;;
                        pdf (save "leistungsnachweis.pdf")))
    by (apply appends_bind; [apply appends_renderSummary | intro; exact H3]).
  assert (H1 : appends (renderBlocks st ;; renderSummary st ;; advance 6 ;;
                        renderTableHeader ;;
                        forEach (services st) renderRow ;;
                        renderTotals st ;; renderSignatures st ;;
                        pdf (save "leistungsnachweis.pdf")))
    by (apply appends_bind; [apply appends_renderBlocks | intro; exact H2]).
  rewrite (calls_seq _ _ _ H1), (calls_seq _ _ _ H2), (calls_seq _ _ _ H3),
    (calls_seq _ _ _ H4), (calls_seq _ _ _ H5), (calls_seq _ _ _ H6),
    (calls_seq _ _ _ H7), (calls_seq _ _ _ Hs).
  reflexivity.
Qed.

End Layout.

(* ================================================================== *)
(** * Properties of [toFixed] *)
(* ================================================================== *)

Section Digits.

Lemma string_of_uint_digits (d : Decimal.uint) :
  forallb JS.isDigit (list_ascii_of_string (NilEmpty.string_of_uint d)) = true.
Proof. induction d; simpl; auto. Qed.

Lemma digits_all (n : Z) : forallb JS.isDigit (JS.digits n) = true.
Proof.
  unfold JS.digits, NilZero.string_of_uint.
  destruct (N.to_uint (Z.to_N n)) eqn:E; try reflexivity;
    rewrite <- E; apply string_of_uint_digits.
Qed.

Lemma zeros_all (k : nat) : forallb JS.isDigit (JS.zeros k) = true.
Proof. induction k; simpl; auto. Qed.

Lemma list_of_append (a b : string) :
  list_ascii_of_string (a ++ b) = (list_ascii_of_string a ++ list_ascii_of_string b)%list.
Proof. induction a; simpl; congruence. Qed.

(** The shape of steps 11.c and 11.d for two fraction digits. *)
Lemma fixedDigits_shape (n : Z) :
  exists i int d1 d2,
    JS.fixedDigits 2 n = (i :: int ++ ["."%char; d1; d2])%list
    /\ forallb JS.isDigit (i :: int) = true
    /\ JS.isDigit d1 = true /\ JS.isDigit d2 = true.
Proof.
  unfold JS.fixedDigits.
  set (m := (JS.zeros (3 - List.length (JS.digits n)) ++ JS.digits n)%list).
  assert (Hall : forallb JS.isDigit m = true).
  { unfold m. rewrite forallb_app, zeros_all, digits_all. reflexivity. }
  assert (Hlen : (3 <= List.length m)%nat).
  { unfold m. rewrite length_app. unfold JS.zeros. rewrite repeat_length. lia. }
  assert (Hsplit : m = (firstn (List.length m - 2) m ++ skipn (List.length m - 2) m)%list)
    by (symmetry; apply firstn_skipn).
  assert (Hl1 : List.length (firstn (List.length m - 2) m) = (List.length m - 2)%nat)
    by (apply firstn_length_le; lia).
  assert (Hl2 : List.length (skipn (List.length m - 2) m) = 2%nat)
    by (rewrite length_skipn; lia).
  rewrite Hsplit in Hall. rewrite forallb_app in Hall.
  apply andb_true_iff in Hall. destruct Hall as [Ha Hb].
  destruct (firstn (List.length m - 2) m) as [|i int] eqn:Ef; [simpl in Hl1; lia|].
  destruct (skipn (List.length m - 2) m) as [|d1 [|d2 [|? ?]]] eqn:Es;
    simpl in Hl2; try lia.
  simpl in Hb. apply andb_true_iff in Hb. destruct Hb as [Hd1 Hd2].
  apply andb_true_iff in Hd2. destruct Hd2 as [Hd2 _].
  exists i, int, d1, d2. repeat split; auto.
Qed.

Lemma twoDecimals_body (i : ascii) (int : list ascii) (d1 d2 : ascii) :
  forallb JS.isDigit (i :: int) = true ->
  JS.isDigit d1 = true -> JS.isDigit d2 = true ->
  match rev (i :: int ++ ["."%char; d1; d2]) with
  | d2 :: d1 :: p :: i :: int =>
      Ascii.eqb p "." && JS.isDigit d2 && JS.isDigit d1 && JS.isDigit i
      && forallb JS.isDigit int
  | _ => false
  end = true.
Proof.
  intros Hint Hd1 Hd2.
  change (i :: int ++ ["."%char; d1; d2])%list
    with ((i :: int) ++ ["."%char; d1; d2])%list.
  rewrite rev_app_distr.
  change (rev ["."%char; d1; d2]) with [d2; d1; "."%char].
  destruct (rev (i :: int)) as [|a r] eqn:Er.
  { apply (f_equal (@List.length _)) in Er. rewrite length_rev in Er. discriminate. }
  assert (Hr : forallb JS.isDigit (a :: r) = true).
  { rewrite <- Er. rewrite forallb_forall in *. intros x Hx. apply Hint.
    now apply in_rev. }
  simpl in Hr. apply andb_true_iff in Hr. destruct Hr as [Ha Hr].
  cbn [app]. rewrite Hd1, Hd2, Ha, Hr. reflexivity.
Qed.

Lemma twoDecimals_shape (neg : bool) (i : ascii) (int : list ascii) (d1 d2 : ascii) :
  forallb JS.isDigit (i :: int) = true ->
  JS.isDigit d1 = true -> JS.isDigit d2 = true ->
  JS.twoDecimals
    ((if neg then "-" else "")
     ++ string_of_list_ascii (i :: int ++ ["."%char; d1; d2])) = true.
Proof.
  intros Hint Hd1 Hd2. unfold JS.twoDecimals.
  rewrite list_of_append, list_ascii_of_string_of_list_ascii.
  destruct neg.
  - change (list_ascii_of_string "-") with ["-"%char]. cbn [app].
    change (Ascii.eqb "-" "-") with true. cbv iota.
    now apply twoDecimals_body.
  - change (list_ascii_of_string "") with (@nil ascii). cbn [app].
    assert (Hi : Ascii.eqb i "-" = false).
    { simpl in Hint. apply andb_true_iff in Hint. destruct Hint as [Hi _].
      destruct (Ascii.eqb_spec i "-"%char) as [->|Hne]; [discriminate Hi|reflexivity]. }
    rewrite Hi. now apply twoDecimals_body.
Qed.

(** [toFixed(2)] of a finite number below [10^21] in magnitude is a numeral
    with exactly two decimals. *)
Lemma toFixed_twoDecimals (x : JS.Number) :
  JS.isFinite x = true -> JS.atLeast1e21 x = false ->
  JS.twoDecimals (JS.toFixed 2 x) = true.
Proof.
  intros Hfin Hlt. unfold JS.toFixed. rewrite Hfin.
  destruct (JS.magnitude x) as [num den]. rewrite Hlt.
  destruct (fixedDigits_shape (JS.roundHalfUp (num * 10 ^ Z.of_nat 2) den))
    as (i & int & d1 & d2 & -> & Hint & Hd1 & Hd2).
  now apply twoDecimals_shape.
Qed.

End Digits.

Section Currency.

Lemma cents_two_digits (k : Z) : 0 <= k < 100 -> JS.centsOk k = true.
Proof.
  intro Hk.
  assert (Hall : forallb JS.centsOk (map Z.of_nat (seq 0 100)) = true)
    by (vm_compute; reflexivity).
  rewrite forallb_forall in Hall. apply Hall.
  apply in_map_iff. exists (Z.to_nat k). split; [lia|].
  apply in_seq. lia.
Qed.

Lemma currency_shape (sign : string) (q k : Z) :
  0 <= k < 100 ->
  JS.endsInCentsAndEuro
    (sign
     ++ string_of_list_ascii (rev (JS.groupRev "."%char (rev (JS.digits q))))
     ++ ","
     ++ string_of_list_ascii
          (JS.zeros (2 - List.length (JS.digits k)) ++ JS.digits k)%list
     ++ JS.nbsp ++ JS.euro) = true.
Proof.
  intro Hk. pose proof (cents_two_digits k Hk) as Hc. unfold JS.centsOk in Hc.
  destruct (JS.zeros (2 - List.length (JS.digits k)) ++ JS.digits k)%list
    as [|d1 [|d2 [|? ?]]]; try discriminate Hc.
  apply andb_true_iff in Hc. destruct Hc as [Hd1 Hd2].
  unfold JS.endsInCentsAndEuro.
  rewrite !list_of_append, !list_ascii_of_string_of_list_ascii.
  rewrite !rev_app_distr.
  cbn [JS.euro JS.nbsp list_ascii_of_string rev app].
  rewrite Hd1, Hd2. reflexivity.
Qed.

(** The reference formatter writes every finite amount with two decimals
    before the euro sign. *)
Lemma currencyDeDE_two_decimals (x : JS.Number) :
  JS.isFinite x = true -> JS.endsInCentsAndEuro (JS.currencyDeDE x) = true.
Proof.
  intro Hf. unfold JS.currencyDeDE.
  destruct x as [s|s| |s m e]; try discriminate Hf.
  - destruct (JS.shortestDecimal (S754_zero s)) as [num den].
    apply currency_shape. apply Z.mod_pos_bound. lia.
  - destruct (JS.shortestDecimal (S754_finite s m e)) as [num den].
    apply currency_shape. apply Z.mod_pos_bound. lia.
Qed.

End Currency.

(* ================================================================== *)
(** * Properties of the exported document *)
(* ================================================================== *)

Section Blocks.

Context `{Platform}.

Lemma truthy_nonempty (s : string) : JS.truthy s = true <-> s <> "".
Proof. destruct s; simpl; split; try congruence; intros; reflexivity || discriminate. Qed.

Lemma calls_renderBlocks (st : State) (y : Z) :
  calls (renderBlocks st) y
  = [ setFontSize 11;
      text (Str "Techniker:") marginX y None;
      setFont "helvetica" "normal";
      text (Lines (technicianLines st)) marginX (y + 6) None;
      setFont "helvetica" "bold";
      text (Str "Kunde:") (pageWidth / 2 + 5) y None;
      setFont "helvetica" "normal";
      text (Lines (customerLines st)) (pageWidth / 2 + 5) (y + 6) None ].
Proof. reflexivity. Qed.

(** C5, as the code has it.  The technician block and the customer block
    hold the non-empty candidate lines; each block is (number of lines + 1)
    times the line height of 6 tall; both are printed 6 below the cursor;
    and the cursor then advances by the taller of the two heights plus a gap
    of 4. *)
Theorem blocks_height_and_advance (st : State) (y : Z) :
  let n_t := Z.of_nat (List.length (technicianLines st)) in
  let n_c := Z.of_nat (List.length (customerLines st)) in
  (forall l, In l (technicianLines st) -> l <> "")
  /\ (forall l, In l (customerLines st) -> l <> "")
  /\ technicianBlockHeight st = (n_t + 1) * 6
  /\ customerBlockHeight st = (n_c + 1) * 6
  /\ In (text (Lines (technicianLines st)) marginX (y + 6) None)
        (calls (renderBlocks st) y)
  /\ In (text (Lines (customerLines st)) (pageWidth / 2 + 5) (y + 6) None)
        (calls (renderBlocks st) y)
  /\ cursorAfter (renderBlocks st) y
     = y + Z.max (technicianBlockHeight st) (customerBlockHeight st) + 4.
Proof.
  intros n_t n_c.
  split. { intros l Hl. apply filter_In in Hl. now apply truthy_nonempty. }
  split. { intros l Hl. apply filter_In in Hl. now apply truthy_nonempty. }
  split; [reflexivity|]. split; [reflexivity|].
  split. { rewrite calls_renderBlocks. do 3 right. left. reflexivity. }
  split. { rewrite calls_renderBlocks. do 7 right. left. reflexivity. }
  unfold cursorAfter, renderBlocks, bind, pdf, cursorY, advance. cbn [snd fst]. lia.
Qed.

End Blocks.

(** C5 with an advance of exactly the taller height fails: for the form
    with the company "alsleben" chosen, which exports a document, the
    technician block is 24 tall and the customer block 12, and the cursor
    advances by 28, so that the first summary line is printed at 67. *)
Lemma blocks_advance_is_not_the_taller_height :
  let st := handleOrderChange Company "alsleben" (initialState "2025" "7d0c") in
  snd (@handleExportPdf Reference.platform st)
  = Some (@document Reference.platform st)
  /\ technicianBlockHeight st = 24 /\ customerBlockHeight st = 12
  /\ cursorAfter (@renderBlocks Reference.platform st) 39 = 39 + 28
  /\ cursorAfter (@renderBlocks Reference.platform st) 39
     <> 39 + Z.max (technicianBlockHeight st) (customerBlockHeight st)
  /\ In (text (Str "Auftragsnummer: -") 20 67 None)
        (@document Reference.platform st).
Proof.
  split; [reflexivity|]. split; [reflexivity|]. split; [reflexivity|].
  split; [reflexivity|]. split; [vm_compute; discriminate|].
  vm_compute. do 13 right. left. reflexivity.
Qed.

Section Rows.

Context `{Platform}.

Lemma or_else_dash (s : string) : JS.or_else s "-" <> "".
Proof. destruct s; simpl; discriminate. Qed.

Lemma calls_renderRow (s : ServiceEntry) (y : Z) :
  calls (renderRow s) y
  = [ text (Str (dateText s)) (marginX + 3) (y + 5) None;
      text (Lines (descLines s)) (marginX + dateWidth + 3) (y + 5) None;
      text (Str (hoursText s)) (marginX + dateWidth + descWidth + 3) (y + 5) None;
      text (Str (rateText s))
        (marginX + dateWidth + descWidth + hoursWidth + 3) (y + 5) None;
      line marginX (y + rowHeight s) (marginX + tableWidth) (y + rowHeight s) ].
Proof. reflexivity. Qed.

Lemma cursorAfter_renderRow (s : ServiceEntry) (y : Z) :
  cursorAfter (renderRow s) y = y + rowHeight s.
Proof. reflexivity. Qed.

Lemma calls_rows (l : list ServiceEntry) (y : Z) :
  calls (forEach l renderRow) y
  = flat_map (fun r => calls (renderRow (fst r)) (snd r)) (rowsFrom rowHeight l y).
Proof.
  revert y; induction l as [|s l IH]; intro y.
  - reflexivity.
  - cbn [forEach rowsFrom flat_map fst snd].
    rewrite (calls_seq _ _ _ (appends_rows l)), cursorAfter_renderRow, IH.
    reflexivity.
Qed.

Lemma cursorAfter_rows (l : list ServiceEntry) (y : Z) :
  cursorAfter (forEach l renderRow) y = y + fold_right Z.add 0 (map rowHeight l).
Proof.
  revert y; induction l as [|s l IH]; intro y.
  - unfold cursorAfter; simpl; lia.
  - cbn [forEach map fold_right].
    rewrite (cursorAfter_seq _ _ _ (appends_rows l)), cursorAfter_renderRow, IH.
    lia.
Qed.

Lemma rowsFrom_entries {A : Type} (h : A -> Z) (l : list A) (y : Z) :
  map fst (rowsFrom h l y) = l.
Proof. revert y; induction l; intro y; simpl; congruence. Qed.

(** C6.  Provided the line breaker returns at least one line for a text
    that is not empty: every service entry is rendered in list order; its
    description (a dash when empty) is broken to the width of the
    description column less the padding of 3 on each side, which gives one
    or more lines that stay inside the column; the row is
    max(lines * 6, 8) tall; a rule is drawn across the table at the bottom
    of the row; and the cursor advances by exactly the row height. *)
Theorem rows_layout :
  (forall t w, t <> "" -> splitTextToSize t w <> []) ->
  forall (l : list ServiceEntry) (y0 : Z),
    (forall s y,
        descLines s
        = splitTextToSize (JS.or_else (description s) "-") (descWidth - 6)
        /\ (1 <= List.length (descLines s))%nat
        /\ (marginX + dateWidth <= marginX + dateWidth + 3
            /\ marginX + dateWidth + 3 + (descWidth - 6)
               <= marginX + dateWidth + descWidth)%Q
        /\ rowHeight s = Z.max (Z.of_nat (List.length (descLines s)) * 6) 8
        /\ In (text (Lines (descLines s)) (marginX + dateWidth + 3) (y + 5) None)
              (calls (renderRow s) y)
        /\ last (calls (renderRow s) y) (save "")
           = line marginX (y + rowHeight s) (marginX + tableWidth) (y + rowHeight s)
        /\ cursorAfter (renderRow s) y = y + rowHeight s)
    /\ map fst (rowsFrom rowHeight l y0) = l
    /\ calls (forEach l renderRow) y0
       = flat_map (fun r => calls (renderRow (fst r)) (snd r))
                  (rowsFrom rowHeight l y0)
    /\ cursorAfter (forEach l renderRow) y0
       = y0 + fold_right Z.add 0 (map rowHeight l).
Proof.
  intros Hsplit l y0. split; [|split; [|split]].
  - intros s y. split; [reflexivity|]. split.
    { unfold descLines.
      pose proof (Hsplit _ (descWidth - 6)%Q (or_else_dash (description s))) as Hne.
      destruct (splitTextToSize _ _); [congruence | simpl; lia]. }
    split.
    { unfold descWidth, tableWidth, marginX, dateWidth, hoursWidth, priceWidth.
      split; lra. }
    split; [reflexivity|]. split.
    { rewrite calls_renderRow. right. left. reflexivity. }
    split; reflexivity.
  - apply rowsFrom_entries.
  - apply calls_rows.
  - apply cursorAfter_rows.
Qed.

End Rows.

(** C6 on the reference platform, for a list of two entries. *)
Lemma rows_layout_witness :
  cursorAfter
    (forEach [createEmptyService "7d0c"; createEmptyService "a1f3"]
             (@renderRow Reference.platform)) 91
  = 91 + 16.
Proof.
  assert (Hsplit : forall (t : string) (w : Q),
             t <> "" -> @splitTextToSize Reference.platform t w <> [])
    by (intros t w _; discriminate).
  destruct (@rows_layout Reference.platform Hsplit
              [createEmptyService "7d0c"; createEmptyService "a1f3"] 91)
    as (_ & _ & _ & ->).
  reflexivity.
Defined.

Section Company.

Context `{Platform}.

Lemma truthy_true (s : string) : s <> "" -> JS.truthy s = true.
Proof. destruct s; [congruence | reflexivity]. Qed.

Lemma export_with_company (st : State) :
  company (order st) <> "" -> handleExportPdf st = (st, Some (document st)).
Proof.
  intro Hc. unfold handleExportPdf. now rewrite (truthy_true _ Hc).
Qed.

Lemma export_without_company (st : State) :
  company (order st) = "" -> handleExportPdf st = (setCompanyTouched true st, None).
Proof.
  intro Hc. unfold handleExportPdf. now rewrite Hc.
Qed.

(** The technician block is part of every document, 6 below the cursor the
    title leaves at 39. *)
Lemma technician_block_in_document (st : State) :
  In (text (Lines (technicianLines st)) marginX 45 None) (document st).
Proof.
  rewrite document_layout. right. apply in_or_app. right. apply in_or_app. left.
  rewrite calls_renderBlocks. do 3 right. left. reflexivity.
Qed.


(** C7.  With the company "alsleben" the lookup yields the label
    "IT Systemhaus Alsleben GmbH" and the address
    "Treskowallee 114, 10319 Berlin"; both are lines of the technician
    block, and the exported document prints that block. *)
Theorem alsleben_in_technician_block (st : State) :
  company (order st) = "alsleben" ->
  companyLabel (order st) = "IT Systemhaus Alsleben GmbH"
  /\ companyAddress (order st) = "Treskowallee 114, 10319 Berlin"
  /\ In "IT Systemhaus Alsleben GmbH" (technicianLines st)
  /\ In "Treskowallee 114, 10319 Berlin" (technicianLines st)
  /\ snd (handleExportPdf st) = Some (document st)
  /\ In (text (Lines (technicianLines st)) marginX 45 None) (document st).
Proof.
  intro Hc.
  assert (Hl : companyLabel (order st) = "IT Systemhaus Alsleben GmbH")
    by (unfold companyLabel, findCompany; rewrite Hc; reflexivity).
  assert (Ha : companyAddress (order st) = "Treskowallee 114, 10319 Berlin")
    by (unfold companyAddress, findCompany; rewrite Hc; reflexivity).
  split; [exact Hl|]. split; [exact Ha|].
  split. { unfold technicianLines. rewrite Hl, Ha. apply filter_In.
           split; [|reflexivity]. do 2 right. left. reflexivity. }
  split. { unfold technicianLines. rewrite Hl, Ha. apply filter_In.
           split; [|reflexivity]. do 3 right. left. reflexivity. }
  split. { rewrite export_with_company; [reflexivity|]. rewrite Hc. discriminate. }
  apply technician_block_in_document.
Qed.

Lemma row_of_entry {A : Type} (h : A -> Z) (l : list A) (a : A) (y : Z) :
  In a l -> exists t, In (a, t) (rowsFrom h l y).
Proof.
  revert y; induction l as [|b l IH]; intros y Hin; [contradiction|].
  destruct Hin as [->|Hin].
  - exists y. now left.
  - destruct (IH (y + h b) Hin) as [t Ht]. exists t. now right.
Qed.

Lemma row_in_document (st : State) (s : ServiceEntry) :
  In s (services st) ->
  exists y, forall c, In c (calls (renderRow s) y) -> In c (document st).
Proof.
  intro Hin.
  destruct (row_of_entry rowHeight (services st) s
              (cursorAfter (renderBlocks st) 39 + 6 + 6 + 6 + 6 + 8) Hin) as [t Ht].
  exists t. intros c Hc.
  rewrite document_layout. right.
  do 4 (apply in_or_app; right). apply in_or_app; left.
  rewrite calls_rows. apply in_flat_map. exists (s, t). split; [exact Ht | exact Hc].
Qed.

(** The calls of the summary phase: the three lines, 6 apart. *)
Lemma calls_renderSummary (st : State) (y : Z) :
  calls (renderSummary st) y
  = [ setFont "helvetica" "normal";
      text (Str ("Auftragsnummer: " ++ JS.or_else (orderNumber (order st)) "-"))
        marginX y None;
      text (Str (JS.trim ("Zeitraum: " ++ JS.or_else (month (order st)) "-"
                          ++ " " ++ JS.or_else (year (order st)) "")))
        marginX (y + 6) None;
      text (Str ("Zahlungsart: " ++ paymentMethod st)) marginX (y + 6 + 6) None ].
Proof. reflexivity. Qed.

Lemma summary_in_document (st : State) (c : PdfCall) :
  In c (calls (renderSummary st) (summaryY st)) -> In c (document st).
Proof.
  intro Hc. rewrite document_layout. right.
  do 2 (apply in_or_app; right). apply in_or_app; left.
  replace (cursorAfter (renderBlocks st) 39) with (summaryY st); [exact Hc|].
  unfold summaryY.
  change (cursorAfter (renderBlocks st) 39)
    with (39 + (Z.max (technicianBlockHeight st) (customerBlockHeight st) + 4)).
  lia.
Qed.



End Company.

(** C7 on the reference platform. *)
Lemma alsleben_in_technician_block_witness :
  let st := handleOrderChange Company "alsleben" (initialState "2025" "7d0c") in
  In "IT Systemhaus Alsleben GmbH" (technicianLines st)
  /\ In "Treskowallee 114, 10319 Berlin" (technicianLines st).
Proof.
  intro st.
  destruct (@alsleben_in_technician_block Reference.platform st eq_refl)
    as (_ & _ & Hl & Ha & _).
  split; [exact Hl | exact Ha].
Defined.


Section Cells.

Context `{Platform}.

(** The cursor at which the signature phase starts. *)
Lemma signatures_start (st : State) :
  cursorAfter (forEach (services st) renderRow)
    (cursorAfter (renderBlocks st) 39 + 6 + 6 + 6 + 6 + 8) + 8 + 6 + 20
  = ruleY st.
Proof.
  rewrite cursorAfter_rows. unfold ruleY.
  change (cursorAfter (renderBlocks st) 39)
    with (39 + (Z.max (technicianBlockHeight st) (customerBlockHeight st) + 4)).
  lia.
Qed.

(** The calls of the totals phase. *)
Lemma calls_renderTotals (st : State) (y : Z) :
  calls (renderTotals st) y
  = [ text (Str ("Gesamtstunden: " ++ JS.toFixed 2 (totalHours (services st))))
        marginX (y + 8) None;
      text (Str ("Gesamtpreis: " ++ formatCurrency (totalAmount (services st))))
        marginX (y + 8 + 6) None ].
Proof. reflexivity. Qed.

(** The two totals are printed 26 and 20 above the signature rules. *)
Lemma totals_in_document (st : State) :
  In (text (Str ("Gesamtstunden: " ++ JS.toFixed 2 (totalHours (services st))))
        marginX (ruleY st - 26) None) (document st)
  /\ In (text (Str ("Gesamtpreis: " ++ formatCurrency (totalAmount (services st))))
           marginX (ruleY st - 20) None) (document st).
Proof.
  assert (Hin : forall c,
             In c (calls (renderTotals st) (ruleY st - 8 - 6 - 20)) ->
             In c (document st)).
  { intros c Hc. rewrite document_layout. right.
    do 5 (apply in_or_app; right). apply in_or_app; left.
    rewrite <- signatures_start in Hc.
    replace (cursorAfter (forEach (services st) renderRow)
               (cursorAfter (renderBlocks st) 39 + 6 + 6 + 6 + 6 + 8))
      with (cursorAfter (forEach (services st) renderRow)
              (cursorAfter (renderBlocks st) 39 + 6 + 6 + 6 + 6 + 8)
            + 8 + 6 + 20 - 8 - 6 - 20) by lia.
    exact Hc. }
  split; apply Hin; rewrite calls_renderTotals.
  - left. f_equal. lia.
  - right. left. f_equal. lia.
Qed.

(** C4, as the code has it.  In the row of a service entry, hours that do
    not parse as a finite number are printed as a dash; hours that parse
    and are below 10^21 in magnitude are printed by [toFixed(2)], a numeral
    with exactly two decimals; a price that does not parse is printed as a
    dash, one that parses is printed as [formatCurrency] writes it, in the
    de-DE notation of euro amounts, which ends in a comma, two decimals and
    the euro sign.  The two cells are in the document for every entry of
    the form, and the two totals are printed below the table.  For two
    entries with hours "2" and "abc" and rates "10.50" and "", the total of
    hours is printed as 2.00, the total amount as 10,50 with the euro sign,
    and the second row shows a dash for hours and for price. *)
Theorem row_cells_format (s : ServiceEntry) (y : Z) :
  (parses (hours s) = false -> hoursText s = "-")
  /\ (parses (hours s) = true ->
      JS.atLeast1e21 (JS.parseFloat (hours s)) = false ->
      hoursText s = JS.toFixed 2 (JS.parseFloat (hours s))
      /\ JS.twoDecimals (hoursText s) = true)
  /\ (parses (rate s) = false -> rateText s = "-")
  /\ (parses (rate s) = true ->
      rateText s = formatCurrency (JS.parseFloat (rate s))
      /\ JS.endsInCentsAndEuro (rateText s) = true)
  /\ In (text (Str (hoursText s)) (marginX + dateWidth + descWidth + 3) (y + 5) None)
        (calls (renderRow s) y)
  /\ In (text (Str (rateText s))
           (marginX + dateWidth + descWidth + hoursWidth + 3) (y + 5) None)
        (calls (renderRow s) y)
  /\ (forall st, In s (services st) ->
      exists y',
        In (text (Str (hoursText s)) (marginX + dateWidth + descWidth + 3)
              (y' + 5) None) (document st)
        /\ In (text (Str (rateText s))
                 (marginX + dateWidth + descWidth + hoursWidth + 3)
                 (y' + 5) None) (document st))
  /\ (forall st,
      In (text (Str ("Gesamtstunden: "
                     ++ JS.toFixed 2 (totalHours (services st))))
            marginX (ruleY st - 26) None) (document st)
      /\ In (text (Str ("Gesamtpreis: "
                        ++ formatCurrency (totalAmount (services st))))
               marginX (ruleY st - 20) None) (document st))
  /\ (forall id1 date1 text1 id2 date2 text2,
        let first := {| id := id1; date := date1; description := text1;
                        hours := "2"; rate := "10.50" |} in
        let second := {| id := id2; date := date2; description := text2;
                         hours := "abc"; rate := "" |} in
        JS.toFixed 2 (totalHours [first; second]) = "2.00"
        /\ formatCurrency (totalAmount [first; second])
           = "10,50" ++ JS.nbsp ++ JS.euro
        /\ hoursText first = "2.00"
        /\ rateText first = "10,50" ++ JS.nbsp ++ JS.euro
        /\ hoursText second = "-"
        /\ rateText second = "-").
Proof.
  unfold parses, hoursText, rateText.
  split. { now intros ->. }
  split. { intros Hf Hlt. rewrite Hf. split; [reflexivity|].
           now apply toFixed_twoDecimals. }
  split. { now intros ->. }
  split. { intros Hf. rewrite Hf. split; [reflexivity|].
           now apply currencyDeDE_two_decimals. }
  split. { rewrite calls_renderRow. do 2 right. left. reflexivity. }
  split. { rewrite calls_renderRow. do 3 right. left. reflexivity. }
  split.
  { intros st Hs. destruct (row_in_document st s Hs) as [y' Hy].
    exists y'. split; apply Hy; rewrite calls_renderRow.
    - do 2 right. left. reflexivity.
    - do 3 right. left. reflexivity. }
  split; [apply totals_in_document|].
  intros. repeat split; vm_compute; reflexivity.
Qed.

End Cells.

(** C4 on the reference platform: two and a half hours for 1234.5 euros,
    and a price of 1.005 euros, whose shortest decimal rounds up. *)
Lemma row_cells_format_witness :
  let s := {| id := "7d0c"; date := "03.11.2025"; description := "Wartung";
              hours := "2.5"; rate := "1234.5" |} in
  let s' := {| id := "7d0d"; date := ""; description := "";
               hours := ""; rate := "1.005" |} in
  hoursText s = "2.50"
  /\ JS.twoDecimals (hoursText s) = true
  /\ rateText s = "1.234,50" ++ JS.nbsp ++ JS.euro
  /\ JS.endsInCentsAndEuro (rateText s) = true
  /\ rateText s' = "1,01" ++ JS.nbsp ++ JS.euro.
Proof.
  intros s s'.
  destruct (@row_cells_format Reference.platform s 99)
    as (_ & Hh & _ & Hr & _).
  destruct (@row_cells_format Reference.platform s' 99)
    as (_ & _ & _ & Hr' & _).
  destruct (Hh eq_refl eq_refl) as [Ht Hd].
  destruct (Hr eq_refl) as [Hrt Hre].
  destruct (Hr' eq_refl) as [Hrt' _].
  split; [rewrite Ht; reflexivity|].
  split; [exact Hd|].
  split; [rewrite Hrt; reflexivity|].
  split; [exact Hre|].
  rewrite Hrt'. reflexivity.
Defined.

(** C4 with two decimals for all parseable hours fails: hours of 1e21 parse
    as a finite number and are printed in exponent notation, without
    decimals. *)
Lemma hours_1e21_without_decimals :
  let s := {| id := "7d0c"; date := ""; description := "";
              hours := "1e21"; rate := "" |} in
  parses (hours s) = true
  /\ hoursText s = "1e+21"
  /\ JS.twoDecimals (hoursText s) = false.
Proof. vm_compute. repeat split. Qed.


(* ================================================================== *)
(** * Properties of the form state *)
(* ================================================================== *)

Section Services.

Context `{Platform}.

Lemma filter_Subsequence {A : Type} (p : A -> bool) (l : list A) :
  Subsequence (filter p l) l.
Proof.
  induction l as [|a l IH]; simpl.
  - constructor.
  - destruct (p a); now constructor.
Qed.

Lemma Subsequence_refl {A : Type} (l : list A) : Subsequence l l.
Proof. induction l; now constructor. Qed.

Lemma Subsequence_In {A : Type} (l1 l2 : list A) :
  Subsequence l1 l2 -> forall a, In a l1 -> In a l2.
Proof.
  induction 1; intros a Ha; simpl in *; intuition.
Qed.

Lemma Subsequence_NoDup {A : Type} (l1 l2 : list A) :
  Subsequence l1 l2 -> NoDup l2 -> NoDup l1.
Proof.
  induction 1; intro Hnd; [constructor| |]; inversion Hnd; subst; auto.
  constructor; auto. intro Hin. eapply Subsequence_In in Hin; eauto.
Qed.

Lemma Subsequence_map {A B : Type} (f : A -> B) (l1 l2 : list A) :
  Subsequence l1 l2 -> Subsequence (map f l1) (map f l2).
Proof. induction 1; simpl; now constructor. Qed.

(** Among entries with distinct identifiers, removing by identifier takes
    away one entry at most. *)
Lemma remove_at_most_one (i : string) (l : list ServiceEntry) :
  NoDup (map id l) ->
  (List.length l
   <= S (List.length (filter (fun s => negb (String.eqb (id s) i)) l)))%nat.
Proof.
  induction l as [|a l IH]; intro Hnd; simpl; [lia|].
  inversion Hnd as [|x xs Hnotin Hnd']; subst.
  destruct (String.eqb_spec (id a) i) as [E|E]; simpl.
  - assert (Hall : filter (fun s => negb (String.eqb (id s) i)) l = l).
    { apply forallb_filter_id. apply forallb_forall. intros s Hs.
      destruct (String.eqb_spec (id s) i) as [E'|]; [|reflexivity].
      exfalso. apply Hnotin. rewrite E, <- E'. now apply in_map. }
    rewrite Hall. lia.
  - specialize (IH Hnd'). lia.
Qed.

Lemma updateService_id (field : ServiceField) (v : string) (s : ServiceEntry) :
  id (updateService field v s) = id s.
Proof. destruct field; reflexivity. Qed.

Lemma change_keeps_ids (i : string) (field : ServiceField) (v : string)
      (l : list ServiceEntry) :
  map id (map (fun s => if String.eqb (id s) i then updateService field v s else s) l)
  = map id l.
Proof.
  rewrite map_map. apply map_ext. intro s.
  destruct (String.eqb (id s) i); [apply updateService_id | reflexivity].
Qed.

Lemma fresh_not_in (uuid : string) (st : State) :
  fresh uuid st = true -> ~ In uuid (map id (services st)).
Proof.
  unfold fresh. intros Hf Hin. apply negb_true_iff in Hf.
  apply in_map_iff in Hin. destruct Hin as (s & Hs & Hin).
  assert (Hex : existsb (fun service => String.eqb (id service) uuid) (services st) = true).
  { apply existsb_exists. exists s. split; [exact Hin|]. now apply String.eqb_eq. }
  congruence.
Qed.

Lemma NoDup_snoc {A : Type} (l : list A) (a : A) :
  NoDup l -> ~ In a l -> NoDup (l ++ [a]).
Proof.
  induction l as [|b l IH]; intros Hnd Hnotin; simpl.
  - constructor; [intros []|constructor].
  - inversion Hnd; subst. constructor.
    + intro Hin. apply in_app_or in Hin. destruct Hin as [Hin|[->|[]]]; auto.
      apply Hnotin. now left.
    + apply IH; auto. intro Hin. apply Hnotin. now right.
Qed.

(** Every handler keeps the list well formed, when an added entry carries
    a fresh identifier. *)
Lemma step_wellFormed (a : Action) (st : State) :
  match a with AddService uuid => fresh uuid st = true | _ => True end ->
  wellFormed (services st) -> wellFormed (services (step a st)).
Proof.
  intros Hfresh [Hne Hnd].
  destruct a; try (split; assumption); simpl.
  - (* ServiceChange *)
    split.
    + destruct (services st); [congruence | discriminate].
    + now rewrite change_keeps_ids.
  - (* AddService *)
    split.
    + destruct (services st); discriminate.
    + rewrite map_app. apply NoDup_snoc; [exact Hnd | now apply fresh_not_in].
  - (* RemoveService *)
    destruct (Nat.eqb_spec (List.length (services st)) 1) as [E|E];
      [split; assumption|].
    split.
    + pose proof (remove_at_most_one i (services st) Hnd) as Hle.
      assert (Hlen : (2 <= List.length (services st))%nat).
      { destruct (services st) as [|s [|s' l]]; [congruence | simpl in E; lia |].
        simpl; lia. }
      destruct (filter _ (services st)); [simpl in Hle; lia | discriminate].
    + eapply Subsequence_NoDup; [|exact Hnd].
      apply Subsequence_map, filter_Subsequence.
  - (* ExportPdf *)
    unfold handleExportPdf. destruct (negb _); split; assumption.
Qed.

Lemma run_wellFormed (acts : list Action) (st : State) :
  admissible acts st = true ->
  wellFormed (services st) -> wellFormed (services (run acts st)).
Proof.
  revert st; induction acts as [|a acts IH]; intros st Hadm Hwf; [exact Hwf|].
  simpl in Hadm. apply andb_true_iff in Hadm. destruct Hadm as [Ha Hadm].
  simpl. apply IH; [exact Hadm|]. apply step_wellFormed; [|exact Hwf].
  destruct a; auto.
Qed.

Lemma removeService_last (i : string) (st : State) :
  List.length (services st) = 1%nat -> removeService i st = st.
Proof.
  intro E. destruct st as [c o p l s t ts cs]. unfold removeService, setServices.
  simpl in *. now rewrite E.
Qed.

(** C3.  In every state the component reaches from its initial state, with
    identifiers that do not repeat, the list of service entries has at
    least one entry.  Removing by identifier changes nothing when one entry
    is left, and otherwise leaves at least one entry and keeps the others in
    their order; adding appends one empty entry at the end; changing a field
    keeps the length and the identifiers. *)
Theorem services_never_empty (thisYear uuid : string) (acts : list Action) :
  admissible acts (initialState thisYear uuid) = true ->
  let st := run acts (initialState thisYear uuid) in
  (1 <= List.length (services st))%nat
  /\ (forall i, List.length (services st) = 1%nat -> removeService i st = st)
  /\ (forall i,
        (1 <= List.length (services (removeService i st)))%nat
        /\ Subsequence (services (removeService i st)) (services st))
  /\ (forall u,
        services (addService u st)
        = (services st ++ [createEmptyService u])%list)
  /\ (forall i field v,
        List.length (services (handleServiceChange i field v st))
        = List.length (services st)
        /\ map id (services (handleServiceChange i field v st))
           = map id (services st)).
Proof.
  intros Hadm st.
  assert (Hwf : wellFormed (services st)).
  { apply run_wellFormed; [exact Hadm|]. split; [discriminate|].
    simpl. constructor; [intros []|constructor]. }
  assert (Hlen : forall l : list ServiceEntry, l <> [] -> (1 <= List.length l)%nat)
    by (intros [|? ?] ?; [congruence | simpl; lia]).
  split; [apply Hlen, Hwf|].
  split; [intros i; apply removeService_last|].
  split.
  { intro i. split.
    - apply Hlen. apply (step_wellFormed (RemoveService i) st I Hwf).
    - simpl. destruct (List.length (services st) =? 1)%nat;
        [apply Subsequence_refl | apply filter_Subsequence]. }
  split; [reflexivity|].
  intros i field v. simpl. split; [apply length_map | apply change_keeps_ids].
Qed.

(** C9.  Removing the second technician empties [order.technicianTwo] and
    hides its field; the other fields of the order, and the rest of the
    state, stay as they are. *)
Theorem remove_second_technician (st : State) :
  let st' := handleRemoveSecondTechnician st in
  technicianTwo (order st') = ""
  /\ secondTechnicianFieldShown st' = false
  /\ orderNumber (order st') = orderNumber (order st)
  /\ technician (order st') = technician (order st)
  /\ month (order st') = month (order st)
  /\ year (order st') = year (order st)
  /\ company (order st') = company (order st)
  /\ customer st' = customer st
  /\ paymentMethod st' = paymentMethod st
  /\ services st' = services st
  /\ companyTouched st' = companyTouched st
  /\ technicianSignature st' = technicianSignature st
  /\ customerSignature st' = customerSignature st.
Proof. repeat split. Qed.

End Services.

(** C3 on a run that adds a second entry and then removes both by
    identifier: the second removal is ignored. *)
Lemma services_never_empty_witness :
  let acts := [AddService "a1f3"; RemoveService "7d0c"; RemoveService "a1f3"] in
  List.length
    (services (@run Reference.platform acts (initialState "2025" "7d0c"))) = 1%nat.
Proof.
  intro acts.
  destruct (@services_never_empty Reference.platform "2025" "7d0c" acts eq_refl)
    as (Hge & _).
  apply Nat.le_antisymm; [vm_compute; apply le_n | exact Hge].
Defined.

(* ================================================================== *)
(** * Properties of the signature pad *)
(* ================================================================== *)

Import SignaturePad.

Section Numbers.


Lemma round_sign (s : bool) (m e : Z) (l : location) :
  match binary_round_aux JS.prec JS.emax s m e l with
  | S754_zero s' | S754_infinity s' | S754_finite s' _ _ => s' = s
  | S754_nan => True
  end.
Proof.
  unfold binary_round_aux.
  destruct (shr_fexp JS.prec JS.emax m e l) as [mrs e1].
  destruct (shr_fexp JS.prec JS.emax _ e1 loc_Exact) as [mrs2 e2].
  destruct (shr_m mrs2); [reflexivity| |exact I].
  destruct (e2 <=? JS.emax - JS.prec); reflexivity.
Qed.

Lemma ofQ_unsigned (q : Q) : (0 <= q)%Q -> JS.unsigned (JS.ofQ q).
Proof.
  intro Hq. unfold JS.ofQ. destruct q as [n d]. cbn [Qnum Qden].
  destruct n as [|n|n].
  - reflexivity.
  - destruct (SFdiv_core_binary JS.prec JS.emax (Z.pos n) 0 (Z.pos d) 0)
      as [[m e] l].
    exact (round_sign false m e l).
  - exfalso. unfold Qle in Hq. simpl in Hq. lia.
Qed.

Lemma mul_unsigned (x y : JS.Number) :
  JS.unsigned x -> JS.unsigned y -> JS.unsigned (JS.mul x y).
Proof.
  unfold JS.unsigned, JS.mul, SFmul.
  destruct x as [sx|sx| |sx mx ex], y as [sy|sy| |sy my ey]; intros Hx Hy;
    subst; try reflexivity; try exact I.
  exact (round_sign (xorb false false) _ _ _).
Qed.

Lemma mul_comm (x y : JS.Number) : JS.mul x y = JS.mul y x.
Proof.
  unfold JS.mul, SFmul.
  destruct x as [sx|sx| |sx mx ex], y as [sy|sy| |sy my ey];
    rewrite ?(xorb_comm sx sy); try reflexivity.
  now rewrite (Pos.mul_comm mx my), (Z.add_comm ex ey).
Qed.

Lemma add_zero (x : JS.Number) : JS.unsigned x -> JS.add JS.zero x = x.
Proof.
  unfold JS.unsigned, JS.add, JS.zero, SFadd.
  destruct x as [s|s| |s m e]; intro Hs; subst; reflexivity.
Qed.

(** The magnitude of a finite number is a fraction with a positive
    denominator. *)
Lemma magnitude_den (s : bool) (m : positive) (e : Z) :
  0 < snd (JS.magnitude (S754_finite s m e))
  /\ 0 <= fst (JS.magnitude (S754_finite s m e)).
Proof.
  unfold JS.magnitude. destruct (0 <=? e) eqn:E; cbn [fst snd].
  - split; [lia|]. apply Z.leb_le in E.
    apply Z.mul_nonneg_nonneg; [lia|]. now apply Z.pow_nonneg.
  - apply Z.leb_gt in E. split; [|lia]. apply Z.pow_pos_nonneg; lia.
Qed.

Lemma exact_finite (s : bool) (m : positive) (e : Z) :
  JS.exact (S754_finite s m e)
  = Some (Qred ((if s then - fst (JS.magnitude (S754_finite s m e))
                 else fst (JS.magnitude (S754_finite s m e)))
                # Z.to_pos (snd (JS.magnitude (S754_finite s m e))))).
Proof. unfold JS.exact. now destruct (JS.magnitude (S754_finite s m e)). Qed.

Lemma exact_unsigned (x : JS.Number) (v : Q) :
  JS.unsigned x -> JS.exact x = Some v -> (0 <= v)%Q.
Proof.
  destruct x as [s|s| |s m e]; intros Hs He; try discriminate He.
  - injection He as <-. apply Qle_refl.
  - cbn [JS.unsigned] in Hs. subst s. rewrite exact_finite in He.
    pose proof (magnitude_den false m e) as [Hd Hn].
    destruct (JS.magnitude (S754_finite false m e)) as [num den].
    cbn [fst snd] in Hd, Hn, He.
    assert (Hv : Qred (num # Z.to_pos den) = v) by congruence.
    rewrite <- Hv, Qred_correct. unfold Qle. simpl. lia.
Qed.

(** The size that a canvas takes from a number that is not negative is at
    most that number, and it is its integer part below 2^31. *)
Lemma size_below (default : Z) (x : JS.Number) (v : Q) :
  0 <= default <= 2147483647 ->
  JS.unsigned x -> JS.exact x = Some v ->
  0 <= reflected default (toUnsignedLong x)
  /\ (inject_Z (reflected default (toUnsignedLong x)) <= v)%Q
  /\ ((v < inject_Z (2 ^ 31))%Q ->
      reflected default (toUnsignedLong x) = Qfloor v).
Proof.
  intros Hd Hs He.
  destruct x as [s|s| |s m e]; try discriminate He.
  - injection He as <-. cbn [toUnsignedLong]. unfold reflected. simpl.
    split; [lia|]. split; [apply Qle_refl|reflexivity].
  - cbn [JS.unsigned] in Hs. subst s. rewrite exact_finite in He.
    unfold toUnsignedLong.
    pose proof (magnitude_den false m e) as [Hden Hnum].
    destruct (JS.magnitude (S754_finite false m e)) as [num den].
    cbn [fst snd] in Hden, Hnum, He.
    assert (Hv : Qred (num # Z.to_pos den) = v) by congruence.
    rewrite <- Hv. clear Hv He.
    set (n := num / den).
    assert (Hn0 : 0 <= n) by (apply Z.div_pos; lia).
    assert (Hn : n * den <= num) by (unfold n; rewrite Z.mul_comm; apply Z.mul_div_le; lia).
    assert (Hmod : 0 <= n mod 2 ^ 32 <= n).
    { split; [apply Z.mod_pos_bound; lia|]. apply Z.mod_le; lia. }
    assert (Hq : (inject_Z n <= num # Z.to_pos den)%Q).
    { unfold Qle. simpl. rewrite Z2Pos.id by lia. lia. }
    assert (Hfl : Qfloor (Qred (num # Z.to_pos den)) = n).
    { rewrite (Qfloor_comp _ _ (Qred_correct _)). unfold Qfloor.
      rewrite Z2Pos.id by lia. reflexivity. }
    unfold reflected.
    destruct (n mod 2 ^ 32 <=? 2147483647) eqn:E.
    + split; [lia|]. split.
      * rewrite Qred_correct. apply Qle_trans with (inject_Z n); [|exact Hq].
        rewrite <- Zle_Qle. lia.
      * intro Hlt. rewrite Hfl.
        apply Z.mod_small. split; [exact Hn0|].
        assert (Hn31 : n < 2 ^ 31).
        { rewrite Zlt_Qlt. apply Qle_lt_trans with (Qred (num # Z.to_pos den)).
          - rewrite Qred_correct. exact Hq.
          - exact Hlt. }
        lia.
    + apply Z.leb_gt in E. split; [lia|]. split.
      * rewrite Qred_correct. apply Qle_trans with (inject_Z n); [|exact Hq].
        rewrite <- Zle_Qle. lia.
      * intro Hlt. exfalso.
        assert (Hn31 : n < 2 ^ 31).
        { rewrite Zlt_Qlt. apply Qle_lt_trans with (Qred (num # Z.to_pos den)).
          - rewrite Qred_correct. exact Hq.
          - exact Hlt. }
        lia.
Qed.

Lemma size_of_none (default : Z) (x : JS.Number) :
  JS.exact x = None -> reflected default (toUnsignedLong x) = 0.
Proof.
  destruct x as [s|s| |s m e]; intro He; try reflexivity; try discriminate He.
  unfold JS.exact in He. destruct (JS.magnitude _). discriminate He.
Qed.

End Numbers.

Section Pad.

Context {H : Type} `{Browser}.

Lemma overlap_inside (s : Q * Q) (i : Z) :
  (fst s <= inject_Z i)%Q -> (inject_Z (i + 1) <= snd s)%Q ->
  (overlap s i == 1)%Q.
Proof.
  intros Hlo Hhi. unfold overlap.
  apply Qle_bool_iff in Hlo, Hhi. rewrite Hlo, Hhi.
  assert (E : inject_Z (i + 1) = (inject_Z i + 1)%Q) by apply inject_Z_plus.
  destruct (Qle_bool (inject_Z (i + 1)) (inject_Z i)) eqn:Eb.
  - apply Qle_bool_iff in Eb. rewrite <- Zle_Qle in Eb. lia.
  - rewrite E. ring.
Qed.

Lemma overlap_outside (s : Q * Q) (i : Z) :
  (snd s <= inject_Z i)%Q \/ (inject_Z (i + 1) <= fst s)%Q ->
  overlap s i = 0%Q.
Proof.
  intro Hout. unfold overlap.
  assert (Hi : (inject_Z i <= inject_Z (i + 1))%Q) by (rewrite <- Zle_Qle; lia).
  match goal with |- (if Qle_bool ?hi ?lo then _ else _) = _ =>
    assert (Hle : (hi <= lo)%Q); [|apply Qle_bool_iff in Hle; now rewrite Hle] end.
  destruct (Qle_bool (fst s) (inject_Z i)) eqn:E1;
    destruct (Qle_bool (inject_Z (i + 1)) (snd s)) eqn:E2;
    try apply Qle_bool_iff in E1; try apply Qle_bool_iff in E2;
    try (assert (E1' : ~ (fst s <= inject_Z i)%Q)
           by (rewrite <- Qle_bool_iff; congruence));
    try (assert (E2' : ~ (inject_Z (i + 1) <= snd s)%Q)
           by (rewrite <- Qle_bool_iff; congruence));
    destruct Hout; lra.
Qed.

Lemma composite_inside (c : Q) (over under : Pixel) :
  (c == 1)%Q -> composite c over under = over.
Proof.
  intro Hc. unfold composite.
  assert (E : Qle_bool 1 c = true) by (apply Qle_bool_iff; rewrite Hc; apply Qle_refl).
  now rewrite E.
Qed.

Lemma composite_outside (c : Q) (over under : Pixel) :
  (c == 0)%Q -> composite c over under = under.
Proof.
  intro Hc. unfold composite.
  assert (E1 : Qle_bool 1 c = false).
  { destruct (Qle_bool 1 c) eqn:E; [|reflexivity].
    apply Qle_bool_iff in E. rewrite Hc in E. exfalso. revert E. apply Qlt_not_le.
    reflexivity. }
  assert (E2 : Qle_bool c 0 = true) by (apply Qle_bool_iff; rewrite Hc; apply Qle_refl).
  now rewrite E1, E2.
Qed.

(** A pixel inside the image of the rectangle is taken whole, a pixel
    outside is not touched. *)
Lemma coverage_inside (t x y w h : Q) (sx sy : Q * Q) (i j : Z) :
  span t x w = Some sx -> span t y h = Some sy ->
  (fst sx <= inject_Z i)%Q -> (inject_Z (i + 1) <= snd sx)%Q ->
  (fst sy <= inject_Z j)%Q -> (inject_Z (j + 1) <= snd sy)%Q ->
  (coverage t x y w h i j == 1)%Q.
Proof.
  intros Ex Ey Hx0 Hx1 Hy0 Hy1. unfold coverage. rewrite Ex, Ey.
  rewrite (overlap_inside sx i Hx0 Hx1), (overlap_inside sy j Hy0 Hy1). ring.
Qed.

Lemma coverage_outside (t x y w h : Q) (sx sy : Q * Q) (i j : Z) :
  span t x w = Some sx -> span t y h = Some sy ->
  (snd sx <= inject_Z i)%Q \/ (inject_Z (i + 1) <= fst sx)%Q
  \/ (snd sy <= inject_Z j)%Q \/ (inject_Z (j + 1) <= fst sy)%Q ->
  (coverage t x y w h i j == 0)%Q.
Proof.
  intros Ex Ey Hout. unfold coverage. rewrite Ex, Ey.
  destruct Hout as [Hx|[Hx|[Hy|Hy]]].
  - rewrite (overlap_outside sx i (or_introl Hx)). ring.
  - rewrite (overlap_outside sx i (or_intror Hx)). ring.
  - rewrite (overlap_outside sy j (or_introl Hy)). ring.
  - rewrite (overlap_outside sy j (or_intror Hy)). ring.
Qed.

(** The image of a side that starts at 0, under a scaling and for a length
    that are not negative: it starts at 0 and ends at the Number product of
    the two, when that is finite. *)
Lemma span_from_zero (t len v : Q) :
  (0 <= t)%Q -> (0 <= len)%Q ->
  JS.exact (JS.mul (JS.ofQ len) (JS.ofQ t)) = Some v ->
  span t 0 len = Some (0%Q, v).
Proof.
  intros Ht Hl Hv. unfold span.
  pose proof (ofQ_unsigned t Ht) as Ha. pose proof (ofQ_unsigned len Hl) as Hb.
  change (JS.ofQ 0) with JS.zero.
  rewrite (add_zero _ Hb), (mul_comm (JS.ofQ t) (JS.ofQ len)), Hv.
  pose proof (exact_unsigned _ v (mul_unsigned _ _ Hb Ha) Hv) as Hv0.
  assert (E0 : JS.exact (JS.mul (JS.ofQ t) JS.zero) = Some 0%Q).
  { destruct (JS.ofQ t) as [s|s| |s m e]; try reflexivity.
    - destruct (JS.ofQ len); discriminate Hv.
    - destruct (JS.ofQ len); discriminate Hv. }
  rewrite E0. apply Qle_bool_iff in Hv0. now rewrite Hv0.
Qed.

Lemma rect_inside (t x y w h : Q) (sx sy : Q * Q) (over under : Pixel) (i j : Z) :
  span t x w = Some sx -> span t y h = Some sy ->
  (fst sx <= inject_Z i)%Q -> (inject_Z (i + 1) <= snd sx)%Q ->
  (fst sy <= inject_Z j)%Q -> (inject_Z (j + 1) <= snd sy)%Q ->
  composite (coverage t x y w h i j) over under = over.
Proof.
  intros. apply composite_inside. now apply (coverage_inside _ _ _ _ _ sx sy).
Qed.

Lemma rect_outside (t x y w h : Q) (sx sy : Q * Q) (over under : Pixel) (i j : Z) :
  span t x w = Some sx -> span t y h = Some sy ->
  (snd sx <= inject_Z i)%Q \/ (inject_Z (i + 1) <= fst sx)%Q
  \/ (snd sy <= inject_Z j)%Q \/ (inject_Z (j + 1) <= fst sy)%Q ->
  composite (coverage t x y w h i j) over under = under.
Proof.
  intros. apply composite_outside. now apply (coverage_outside _ _ _ _ _ sx sy).
Qed.

Lemma ratio_sign (env : Env) :
  (0 <= (if Qeq_bool (devicePixelRatio env) 0 then 1 else devicePixelRatio env))%Q.
Proof.
  destruct (Qeq_bool (devicePixelRatio env) 0).
  - discriminate.
  - apply devicePixelRatioSign.
Qed.

(** The pixels of a canvas sized by the Number product of a length and a
    scaling lie inside the image of that length. *)
Lemma sized_inside (default : Z) (t len : Q) (i : Z) :
  0 <= default <= 2147483647 ->
  (0 <= t)%Q -> (0 <= len)%Q ->
  0 <= i < reflected default (toUnsignedLong (JS.mul (JS.ofQ len) (JS.ofQ t))) ->
  exists s, span t 0 len = Some s
            /\ (fst s <= inject_Z i)%Q /\ (inject_Z (i + 1) <= snd s)%Q.
Proof.
  intros Hd Ht Hl Hi.
  destruct (JS.exact (JS.mul (JS.ofQ len) (JS.ofQ t))) as [v|] eqn:Ev.
  - exists (0%Q, v). split; [now apply span_from_zero|]. cbn [fst snd].
    pose proof (mul_unsigned _ _ (ofQ_unsigned len Hl) (ofQ_unsigned t Ht)) as Hu.
    destruct (size_below default _ v Hd Hu Ev) as (_ & Hle & _).
    split.
    + change 0%Q with (inject_Z 0). rewrite <- Zle_Qle. lia.
    + apply Qle_trans with (2 := Hle). rewrite <- Zle_Qle. lia.
  - rewrite (size_of_none default _ Ev) in Hi. lia.
Qed.

(** [resizeCanvas] on a canvas with a context: the new size, the new
    context and a bitmap that shows the background only. *)
Lemma resize_blank (env : Env) (rect : Rect) (canvas : Canvas) :
  parentRect env = Some rect -> context2d canvas <> None ->
  let ratio := if Qeq_bool (devicePixelRatio env) 0 then 1%Q
               else devicePixelRatio env in
  let canvas' := resizeCanvas env canvas in
  width canvas'
  = reflected 300 (toUnsignedLong (JS.mul (JS.ofQ (rectWidth rect)) (JS.ofQ ratio)))
  /\ height canvas'
     = reflected 150
         (toUnsignedLong (JS.mul (JS.ofQ (rectHeight rect)) (JS.ofQ ratio)))
  /\ styleWidth canvas' = Some (rectWidth rect)
  /\ styleHeight canvas' = Some (rectHeight rect)
  /\ context2d canvas'
     = Some {| scale := ratio; lineCap := "round"; lineJoin := "round";
               lineWidth := 2; strokeStyle := getStrokeColor env;
               fillStyle := getBackgroundColor env; path := [] |}
  /\ blank (getBackgroundColor env) canvas'.
Proof.
  intros Hp Hx ratio canvas'. unfold canvas', resizeCanvas. rewrite Hp.
  cbn [context2d setStyle setHeight setWidth resetOnResize option_map].
  destruct (context2d canvas) as [ctx|]; [|congruence].
  cbn [option_map]. fold ratio.
  split; [reflexivity|]. split; [reflexivity|]. split; [reflexivity|].
  split; [reflexivity|]. split; [reflexivity|].
  intros i j Hi Hj.
  cbn [width height withDrawing setStyle setHeight setWidth resetOnResize]
    in Hi, Hj.
  cbn [withDrawing bitmap]. unfold fillRect. cbn [scale fillStyle].
  destruct (rectSides rect) as [Hw Hh].
  destruct (sized_inside 300 ratio (rectWidth rect) i ltac:(lia)
              (ratio_sign env) Hw Hi) as (sx & Ex & Hx0 & Hx1).
  destruct (sized_inside 150 ratio (rectHeight rect) j ltac:(lia)
              (ratio_sign env) Hh Hj) as (sy & Ey & Hy0 & Hy1).
  apply composite_inside.
  exact (coverage_inside _ _ _ _ _ sx sy i j Ex Ey Hx0 Hx1 Hy0 Hy1).
Qed.

(** After the first effect the bitmap shows the background colour only,
    whatever the pixel ratio. *)
Lemma mount_blank (env : Env) (rect : Rect) :
  parentRect env = Some rect ->
  exists canvas,
    canvasRef (mount env true) = Some canvas
    /\ context2d canvas <> None
    /\ blank (getBackgroundColor env) canvas.
Proof.
  intro Hp. unfold mount. cbn [canvasRef].
  eexists. split; [reflexivity|].
  match goal with |- context [resizeCanvas env ?c] =>
    destruct (resize_blank env rect c Hp ltac:(discriminate))
      as (_ & _ & _ & _ & Hc & Hb) end.
  split; [|exact Hb]. rewrite Hc. discriminate.
Qed.

(** What [handleClear] does to a pad whose canvas and context exist. *)
Lemma handleClear_mounted (props : Props) (env : Env) (pad : Pad)
      (canvas : Canvas) (ctx : Context2D) (host : H) :
  canvasRef pad = Some canvas -> context2d canvas = Some ctx ->
  handleClear props env pad host
  = ({| canvasRef :=
          Some (withDrawing
                  (fillRect (withFillStyle (getBackgroundColor env) ctx) 0 0
                     (inject_Z (width canvas)) (inject_Z (height canvas))
                     (clearRect ctx 0 0 (inject_Z (width canvas))
                        (inject_Z (height canvas)) (bitmap canvas)))
                  (withFillStyle (getBackgroundColor env) ctx) canvas);
        drawing := drawing pad;
        lastX := lastX pad; lastY := lastY pad |},
     match onChange props with
     | Some notify => notify None host
     | None => host
     end).
Proof. intros Hc Hx. unfold handleClear. now rewrite Hc, Hx. Qed.

(** When the image of the rectangle that [handleClear] fills holds the
    bitmap, the bitmap shows the background only. *)
Lemma clear_blank (bg : string) (ctx : Context2D) (canvas : Canvas) :
  holds (scale ctx) (width canvas) (height canvas) = true ->
  blank bg
    (withDrawing
       (fillRect (withFillStyle bg ctx) 0 0
          (inject_Z (width canvas)) (inject_Z (height canvas))
          (clearRect ctx 0 0 (inject_Z (width canvas))
             (inject_Z (height canvas)) (bitmap canvas)))
       (withFillStyle bg ctx) canvas).
Proof.
  intros Hh i j [Hi0 Hi] [Hj0 Hj]. cbn [width height withDrawing bitmap] in *.
  unfold fillRect. cbn [scale fillStyle withFillStyle].
  unfold holds in Hh.
  destruct (span (scale ctx) 0 (inject_Z (width canvas))) as [sx|] eqn:Ex;
    [|discriminate Hh].
  destruct (span (scale ctx) 0 (inject_Z (height canvas))) as [sy|] eqn:Ey;
    [|discriminate Hh].
  rewrite !andb_true_iff, !Qle_bool_iff in Hh.
  destruct Hh as (((Hx0 & Hx1) & Hy0) & Hy1).
  apply composite_inside.
  apply (coverage_inside _ _ _ _ _ sx sy i j Ex Ey).
  - apply Qle_trans with (1 := Hx0). change 0%Q with (inject_Z 0).
    rewrite <- Zle_Qle. lia.
  - apply Qle_trans with (2 := Hx1). rewrite <- Zle_Qle. lia.
  - apply Qle_trans with (1 := Hy0). change 0%Q with (inject_Z 0).
    rewrite <- Zle_Qle. lia.
  - apply Qle_trans with (2 := Hy1). rewrite <- Zle_Qle. lia.
Qed.

(** A pixel beyond the image of the filled rectangle keeps what it
    showed. *)
Lemma clear_untouched (bg : string) (ctx : Context2D) (canvas : Canvas)
      (sx sy : Q * Q) (i j : Z) :
  span (scale ctx) 0 (inject_Z (width canvas)) = Some sx ->
  span (scale ctx) 0 (inject_Z (height canvas)) = Some sy ->
  (snd sx <= inject_Z i)%Q \/ (snd sy <= inject_Z j)%Q ->
  fillRect (withFillStyle bg ctx) 0 0
    (inject_Z (width canvas)) (inject_Z (height canvas))
    (clearRect ctx 0 0 (inject_Z (width canvas))
       (inject_Z (height canvas)) (bitmap canvas)) i j
  = bitmap canvas i j.
Proof.
  intros Ex Ey Hout. unfold fillRect, clearRect. cbn [scale withFillStyle].
  assert (Hc : (coverage (scale ctx) 0 0 (inject_Z (width canvas))
                  (inject_Z (height canvas)) i j == 0)%Q).
  { apply (coverage_outside _ _ _ _ _ sx sy i j Ex Ey).
    destruct Hout as [Hx|Hy]; [left; exact Hx|right; right; left; exact Hy]. }
  now rewrite !(composite_outside _ _ _ Hc).
Qed.

(** [stopDrawing] on a pad whose canvas and context exist: the flag is
    lowered and the bitmap is exported, whatever the flag was. *)
Lemma stopDrawing_mounted (props : Props) (notify : option string -> H -> H)
      (pad : Pad) (canvas : Canvas) (host : H) :
  canvasRef pad = Some canvas -> context2d canvas <> None ->
  onChange props = Some notify ->
  stopDrawing props pad host
  = ({| canvasRef := Some canvas; drawing := false;
        lastX := lastX pad; lastY := lastY pad |},
     notify (Some (toDataURL (width canvas) (height canvas) (bitmap canvas))) host).
Proof.
  intros Hc Hx Hn. unfold stopDrawing, emitChange. rewrite Hc.
  destruct (context2d canvas); [|congruence].
  cbn [canvasRef]. now rewrite Hn.
Qed.

(** A pad that was mounted and never drawn on exports its blank bitmap on
    the first pointerup, pointerleave or pointercancel. *)
Lemma fresh_pad_exports_blank (props : Props) (notify : option string -> H -> H)
      (env : Env) (rect : Rect) (host : H) :
  parentRect env = Some rect -> onChange props = Some notify ->
  exists canvas,
    canvasRef (mount env true) = Some canvas
    /\ blank (getBackgroundColor env) canvas
    /\ snd (stopDrawing props (mount env true) host)
       = notify (Some (toDataURL (width canvas) (height canvas) (bitmap canvas)))
           host.
Proof.
  intros Hp Hn. destruct (mount_blank env rect Hp) as (canvas & Hc & Hx & Hb).
  exists canvas. split; [exact Hc|]. split; [exact Hb|].
  now rewrite (stopDrawing_mounted props notify _ canvas host Hc Hx Hn).
Qed.

(** The pad of the zoomed-out page after the stroke: a bitmap of 100 by 50
    under a scaling of 1/2, whose filled rectangle is the upper left
    quarter. *)
Lemma signedZoomedOut_canvas :
  exists canvas ctx,
    canvasRef Reference.signedZoomedOut = Some canvas
    /\ context2d canvas = Some ctx
    /\ width canvas = 100 /\ height canvas = 50 /\ scale ctx = 1 # 2.
Proof.
  eexists. eexists. split; [reflexivity|]. split; [reflexivity|].
  repeat split; vm_compute; reflexivity.
Qed.

Lemma quarter_spans :
  span (1 # 2) 0 (inject_Z 100) = Some (0%Q, 50%Q)
  /\ span (1 # 2) 0 (inject_Z 50) = Some (0%Q, 25%Q).
Proof. split; vm_compute; reflexivity. Qed.

(** What the reset button does to a bitmap of 100 by 50 under a scaling of
    1/2. *)
Lemma clear_quarter (bg : string) (ctx : Context2D) (canvas : Canvas) :
  width canvas = 100 -> height canvas = 50 -> scale ctx = 1 # 2 ->
  let after :=
    fillRect (withFillStyle bg ctx) 0 0
      (inject_Z (width canvas)) (inject_Z (height canvas))
      (clearRect ctx 0 0 (inject_Z (width canvas))
         (inject_Z (height canvas)) (bitmap canvas)) in
  (forall i j, 0 <= i < 50 -> 0 <= j < 25 -> after i j = Painted bg)
  /\ (forall i j, 50 <= i \/ 25 <= j -> after i j = bitmap canvas i j).
Proof.
  intros Hw Hh Hs after. unfold after, fillRect, clearRect.
  cbn [scale fillStyle withFillStyle]. rewrite Hw, Hh, Hs.
  destruct quarter_spans as [Ex Ey].
  split.
  - intros i j [Hi0 Hi] [Hj0 Hj].
    apply (rect_inside _ _ _ _ _ _ _ _ _ i j Ex Ey); cbn [fst snd].
    + change 0%Q with (inject_Z 0). rewrite <- Zle_Qle. lia.
    + change 50%Q with (inject_Z 50). rewrite <- Zle_Qle. lia.
    + change 0%Q with (inject_Z 0). rewrite <- Zle_Qle. lia.
    + change 25%Q with (inject_Z 25). rewrite <- Zle_Qle. lia.
  - intros i j Hout.
    assert (Ho : (snd (0%Q, 50%Q) <= inject_Z i)%Q
                 \/ (inject_Z (i + 1) <= fst (0%Q, 50%Q))%Q
                 \/ (snd (0%Q, 25%Q) <= inject_Z j)%Q
                 \/ (inject_Z (j + 1) <= fst (0%Q, 25%Q))%Q).
    { cbn [fst snd]. destruct Hout as [Hi|Hj].
      - left. change 50%Q with (inject_Z 50). rewrite <- Zle_Qle. lia.
      - right. right. left. change 25%Q with (inject_Z 25).
        rewrite <- Zle_Qle. lia. }
    rewrite !(rect_outside _ _ _ _ _ _ _ _ _ i j Ex Ey Ho). reflexivity.
Qed.

End Pad.

(** C10.  Every pointerup, pointerleave and pointercancel on a pad whose
    canvas and context exist exports the bitmap to the form state, whether
    or not a stroke was in progress; on a pad that was mounted and never
    pressed, the image is that of a bitmap that shows the background only.
    Over a freshly cleared pad the export replaces the absent signature by
    the image of the cleared bitmap, and that bitmap is not always blank: on
    the page zoomed out to 50 % the reset button fills the upper left
    quarter only, so that on every browser the image that any of the three
    events stores after it keeps what was drawn in the other three
    quarters, and with the reference rasteriser and encoder it shows the
    ink at device pixel (80, 40) and is not the image of a blank bitmap. *)
Theorem idle_export_after_clear_keeps_ink :
  (forall (B : Browser) (env : Env) (e : PadEvent) (pad : Pad) (canvas : Canvas)
          (st : State),
      In e [pointerup; pointerleave; pointercancel] ->
      canvasRef pad = Some canvas -> context2d canvas <> None ->
      let image := toDataURL (width canvas) (height canvas) (bitmap canvas) in
      let idle := {| canvasRef := Some canvas; drawing := false;
                     lastX := lastX pad; lastY := lastY pad |} in
      dispatch technicianPad env e (pad, st)
      = (idle, setTechnicianSignature (Some image) st)
      /\ dispatch customerPad env e (pad, st)
         = (idle, setCustomerSignature (Some image) st))
  /\ (forall (B : Browser) (env : Env) (rect : Rect) (e : PadEvent) (st : State),
      In e [pointerup; pointerleave; pointercancel] ->
      parentRect env = Some rect ->
      exists canvas,
        canvasRef (mount env true) = Some canvas
        /\ blank (getBackgroundColor env) canvas
        /\ technicianSignature
             (snd (dispatch technicianPad env e (mount env true, st)))
           = Some (toDataURL (width canvas) (height canvas) (bitmap canvas)))
  /\ (forall (B : Browser) (e : PadEvent),
      In e [pointerup; pointerleave; pointercancel] ->
      let signed :=
        dispatch technicianPad Reference.zoomedOut pointerup
          (Reference.signedZoomedOut, initialState "2025" "7d0c") in
      let cleared := dispatch technicianPad Reference.zoomedOut click signed in
      let idle := dispatch technicianPad Reference.zoomedOut e cleared in
      technicianSignature (snd cleared) = None
      /\ drawing (fst cleared) = false
      /\ exists before after,
           canvasRef (fst signed) = Some before
           /\ canvasRef (fst cleared) = Some after
           /\ technicianSignature (snd idle)
              = Some (toDataURL 100 50 (bitmap after))
           /\ (forall i j, 50 <= i \/ 25 <= j ->
               bitmap after i j = bitmap before i j))
  /\ (let signed :=
        @dispatch _ Reference.browser technicianPad Reference.zoomedOut pointerup
          (@Reference.signedZoomedOut Reference.browser,
           initialState "2025" "7d0c") in
      let cleared :=
        @dispatch _ Reference.browser technicianPad Reference.zoomedOut click
          signed in
      let idle :=
        @dispatch _ Reference.browser technicianPad Reference.zoomedOut
          pointerleave cleared in
      exists after image,
        canvasRef (fst cleared) = Some after
        /\ bitmap after 80 40 = Painted "#0f172a"
        /\ ~ blank "#ffffff" after
        /\ technicianSignature (snd idle) = Some image
        /\ image <> Reference.dump 100 50 (fun _ _ => Painted "#ffffff")).
Proof.
  split; [|split; [|split]].
  - intros B env e pad canvas st He Hc Hx image idle.
    assert (Hs : forall props notify,
               onChange props = Some notify ->
               stopDrawing props pad st = (idle, notify (Some image) st)).
    { intros props notify Hn.
      exact (stopDrawing_mounted props notify pad canvas st Hc Hx Hn). }
    destruct He as [<-|[<-|[<-|[]]]]; cbn [dispatch fst snd];
      (split; [exact (Hs technicianPad _ eq_refl)|exact (Hs customerPad _ eq_refl)]).
  - intros B env rect e st He Hp.
    destruct (fresh_pad_exports_blank technicianPad setTechnicianSignature
                env rect st Hp eq_refl) as (canvas & Hc & Hb & Hs).
    exists canvas. split; [exact Hc|]. split; [exact Hb|].
    destruct He as [<-|[<-|[<-|[]]]]; cbn [dispatch fst snd];
      rewrite Hs; reflexivity.
  - intros B e He signed cleared idle.
    destruct (@signedZoomedOut_canvas B)
      as (canvas & ctx & Hc & Hx & Hw & Hh & Hs).
    assert (Hx' : context2d canvas <> None) by (rewrite Hx; discriminate).
    assert (Es : signed
                 = ({| canvasRef := Some canvas; drawing := false;
                       lastX := lastX Reference.signedZoomedOut;
                       lastY := lastY Reference.signedZoomedOut |},
                    setTechnicianSignature
                      (Some (toDataURL (width canvas) (height canvas)
                               (bitmap canvas)))
                      (initialState "2025" "7d0c")))
      by exact (stopDrawing_mounted technicianPad setTechnicianSignature
                  _ canvas _ Hc Hx' eq_refl).
    assert (Ec : cleared = handleClear technicianPad Reference.zoomedOut
                             (fst signed) (snd signed)) by reflexivity.
    rewrite Es in Ec. cbn [fst snd] in Ec.
    unfold handleClear in Ec. cbn [canvasRef] in Ec. rewrite Hx in Ec.
    cbn [onChange technicianPad drawing lastX lastY] in Ec.
    set (after := withDrawing _ _ canvas) in Ec.
    split; [rewrite Ec; reflexivity|]. split; [rewrite Ec; reflexivity|].
    exists canvas, after.
    split; [rewrite Es; reflexivity|]. split; [rewrite Ec; reflexivity|].
    split.
    + assert (Ei : idle = stopDrawing technicianPad (fst cleared) (snd cleared))
        by (destruct He as [<-|[<-|[<-|[]]]]; reflexivity).
      rewrite Ei, Ec. cbn [fst snd].
      unfold stopDrawing, emitChange. cbn [canvasRef].
      unfold after. cbn [context2d withDrawing width height snd onChange
                         technicianPad technicianSignature
                         setTechnicianSignature bitmap].
      now rewrite Hw, Hh.
    + unfold after. cbn [bitmap withDrawing].
      exact (proj2 (clear_quarter _ ctx canvas Hw Hh Hs)).
  - intros signed cleared idle.
    eexists. eexists.
    split; [reflexivity|]. split; [vm_compute; reflexivity|].
    split.
    { intro Hb.
      assert (Hin : 0 <= 80 < 100 /\ 0 <= 40 < 50) by lia.
      specialize (Hb 80 40 (proj1 Hin) (proj2 Hin)).
      vm_compute in Hb. discriminate Hb. }
    split; [reflexivity|].
    apply String.eqb_neq. vm_compute. reflexivity.
Qed.

(** C8.  On a page zoomed out to 50 %, a pad of 200 by 100 CSS pixels has a
    bitmap of 100 by 50 and a context scaled by 1/2.  After a stroke and a
    pointerup, the clear action does notify the form state with no
    signature, but it fills the rectangle (0, 0, 100, 50) of user space,
    which is the upper left quarter of the bitmap: on every browser the
    other three quarters keep what was drawn, and with the reference
    rasteriser the ink at device pixel (80, 40) stays, so that the bitmap is
    not blank. *)
Theorem clear_leaves_ink_when_zoomed_out :
  (forall B : Browser,
      let signed :=
        stopDrawing technicianPad Reference.signedZoomedOut
          (initialState "2025" "7d0c") in
      let cleared :=
        handleClear technicianPad Reference.zoomedOut (fst signed) (snd signed) in
      technicianSignature (snd signed) <> None
      /\ technicianSignature (snd cleared) = None
      /\ exists before after ctx,
           canvasRef (fst signed) = Some before
           /\ canvasRef (fst cleared) = Some after
           /\ context2d after = Some ctx
           /\ scale ctx = 1 # 2
           /\ width after = 100 /\ height after = 50
           /\ (forall i j, 0 <= i < 50 -> 0 <= j < 25 ->
               bitmap after i j = Painted "#ffffff")
           /\ (forall i j, 50 <= i \/ 25 <= j ->
               bitmap after i j = bitmap before i j))
  /\ (let signed :=
        @stopDrawing _ Reference.browser technicianPad
          (@Reference.signedZoomedOut Reference.browser)
          (initialState "2025" "7d0c") in
      let cleared :=
        handleClear technicianPad Reference.zoomedOut (fst signed) (snd signed) in
      exists after,
        canvasRef (fst cleared) = Some after
        /\ bitmap after 80 40 = Painted "#0f172a"
        /\ ~ blank "#ffffff" after).
Proof.
  split.
  - intros B signed cleared.
    destruct (@signedZoomedOut_canvas B)
      as (canvas & ctx & Hc & Hx & Hw & Hh & Hs).
    assert (Hx' : context2d canvas <> None) by (rewrite Hx; discriminate).
    assert (Es : signed
                 = ({| canvasRef := Some canvas; drawing := false;
                       lastX := lastX Reference.signedZoomedOut;
                       lastY := lastY Reference.signedZoomedOut |},
                    setTechnicianSignature
                      (Some (toDataURL (width canvas) (height canvas)
                               (bitmap canvas)))
                      (initialState "2025" "7d0c")))
      by exact (stopDrawing_mounted technicianPad setTechnicianSignature
                  _ canvas _ Hc Hx' eq_refl).
    assert (Ec : cleared = handleClear technicianPad Reference.zoomedOut
                             (fst signed) (snd signed)) by reflexivity.
    rewrite Es in Ec. cbn [fst snd] in Ec.
    unfold handleClear in Ec. cbn [canvasRef] in Ec. rewrite Hx in Ec.
    cbn [onChange technicianPad drawing lastX lastY] in Ec.
    split; [rewrite Es; discriminate|]. split; [rewrite Ec; reflexivity|].
    eexists. eexists. eexists.
    split; [rewrite Es; reflexivity|]. split; [rewrite Ec; reflexivity|].
    split; [reflexivity|].
    split; [exact Hs|]. split; [exact Hw|]. split; [exact Hh|].
    cbn [bitmap withDrawing].
    destruct (clear_quarter (getBackgroundColor Reference.zoomedOut) ctx canvas
                Hw Hh Hs) as [Hin Hout].
    split; [exact Hin | exact Hout].
  - intros signed cleared.
    eexists. split; [reflexivity|]. split; [vm_compute; reflexivity|].
    intro Hb.
    assert (Hin : 0 <= 80 < 100 /\ 0 <= 40 < 50) by lia.
    specialize (Hb 80 40 (proj1 Hin) (proj2 Hin)).
    vm_compute in Hb. discriminate Hb.
Qed.

(* ================================================================== *)
(** * Further properties of the form state *)
(* ================================================================== *)

Section FieldUpdates.

(** X1.  Changing a field of the order or of the customer stores the value
    under that key and nothing else: the field reads back the value, every
    other field of the record and every other part of the state is kept, a
    second change of the same field overrides the first, and changes of
    different fields can be made in either order. *)
Theorem field_change_round_trip (st : State) :
  (forall f v,
      orderField f (order (handleOrderChange f v st)) = v
      /\ (forall g, g <> f ->
          orderField g (order (handleOrderChange f v st)) = orderField g (order st))
      /\ setOrder (fun _ => order st) (handleOrderChange f v st) = st
      /\ (forall w, handleOrderChange f w (handleOrderChange f v st)
                    = handleOrderChange f w st)
      /\ (forall g w, g <> f ->
          handleOrderChange f v (handleOrderChange g w st)
          = handleOrderChange g w (handleOrderChange f v st)))
  /\ (forall f v,
      customerField f (customer (handleCustomerChange f v st)) = v
      /\ (forall g, g <> f ->
          customerField g (customer (handleCustomerChange f v st))
          = customerField g (customer st))
      /\ setCustomer (fun _ => customer st) (handleCustomerChange f v st) = st
      /\ (forall w, handleCustomerChange f w (handleCustomerChange f v st)
                    = handleCustomerChange f w st)
      /\ (forall g w, g <> f ->
          handleCustomerChange f v (handleCustomerChange g w st)
          = handleCustomerChange g w (handleCustomerChange f v st))).
Proof.
  destruct st as [c o p l s t ts cs]. split; intros f v.
  - split; [destruct f; reflexivity|].
    split; [intros g Hg; destruct f, g; try reflexivity; congruence|].
    split; [destruct o; destruct f; reflexivity|].
    split; [intro w; destruct f; reflexivity|].
    intros g w Hg; destruct f, g; try reflexivity; congruence.
  - split; [destruct f; reflexivity|].
    split; [intros g Hg; destruct f, g; try reflexivity; congruence|].
    split; [destruct c; destruct f; reflexivity|].
    split; [intro w; destruct f; reflexivity|].
    intros g w Hg; destruct f, g; try reflexivity; congruence.
Qed.

End FieldUpdates.

Section ServiceUpdates.

Context `{Platform}.

Lemma updateService_read (field : ServiceField) (v : string) (s : ServiceEntry) :
  serviceField field (updateService field v s) = v
  /\ forall g, g <> field ->
       serviceField g (updateService field v s) = serviceField g s.
Proof.
  split; [destruct field; reflexivity|].
  intros g Hg; destruct field, g; try reflexivity; congruence.
Qed.

Lemma change_unknown (i : string) (field : ServiceField) (v : string)
      (l : list ServiceEntry) :
  ~ In i (map id l) ->
  map (fun s => if String.eqb (id s) i then updateService field v s else s) l = l.
Proof.
  induction l as [|a l IH]; intro Hn; simpl; [reflexivity|].
  destruct (String.eqb_spec (id a) i) as [E|E].
  - exfalso. apply Hn. left. exact E.
  - f_equal. apply IH. intro Hin. apply Hn. now right.
Qed.

(** X2.  [handleServiceChange] rewrites the addressed entries in place: the
    list keeps its length and order, an entry with another identifier is
    untouched, an entry with the given identifier gets the value in the
    given field and keeps its identifier and its other fields.  For an
    identifier that no entry carries the state is unchanged, and making the
    same change twice is the same as making it once. *)
Theorem service_change_in_place (st : State) (i : string)
        (field : ServiceField) (v : string) :
  Forall2 (changed i field v)
          (services st) (services (handleServiceChange i field v st))
  /\ (~ In i (map id (services st)) -> handleServiceChange i field v st = st)
  /\ handleServiceChange i field v (handleServiceChange i field v st)
     = handleServiceChange i field v st.
Proof.
  split; [|split].
  - simpl. induction (services st) as [|a l IH]; simpl; constructor; [|exact IH].
    unfold changed. destruct (String.eqb_spec (id a) i) as [E|E].
    + split; [apply updateService_id|]. split; [|congruence].
      intros _. apply updateService_read.
    + split; [reflexivity|]. split; [congruence|reflexivity].
  - intro Hn. destruct st as [c o p l s t ts cs].
    unfold handleServiceChange, setServices. simpl in *.
    now rewrite change_unknown.
  - destruct st as [c o p l s t ts cs].
    unfold handleServiceChange, setServices. simpl. f_equal.
    rewrite map_map. apply map_ext. intro a.
    destruct (String.eqb_spec (id a) i) as [E|E].
    + rewrite updateService_id.
      destruct (String.eqb_spec (id a) i); [|congruence].
      destruct a, field; reflexivity.
    + destruct (String.eqb_spec (id a) i); [congruence|reflexivity].
Qed.

Lemma totalHours_by_hours (l1 l2 : list ServiceEntry) :
  map hours l1 = map hours l2 -> totalHours l1 = totalHours l2.
Proof.
  unfold totalHours. generalize JS.zero.
  revert l2; induction l1 as [|a l1 IH]; intros [|b l2] acc E;
    try discriminate E; [reflexivity|].
  simpl in E. injection E as Eh Et. simpl. rewrite Eh. now apply IH.
Qed.

Lemma totalAmount_by_rate (l1 l2 : list ServiceEntry) :
  map rate l1 = map rate l2 -> totalAmount l1 = totalAmount l2.
Proof.
  unfold totalAmount. generalize JS.zero.
  revert l2; induction l1 as [|a l1 IH]; intros [|b l2] acc E;
    try discriminate E; [reflexivity|].
  simpl in E. injection E as Eh Et. simpl. rewrite Eh. now apply IH.
Qed.

Lemma change_keeps_field (i : string) (field g : ServiceField) (v : string)
      (l : list ServiceEntry) :
  g <> field ->
  map (serviceField g)
      (map (fun s => if String.eqb (id s) i then updateService field v s else s) l)
  = map (serviceField g) l.
Proof.
  intro Hg. rewrite map_map. apply map_ext. intro s.
  destruct (String.eqb (id s) i); [|reflexivity].
  now apply updateService_read.
Qed.

(** X3.  The totals follow the hours and the rates only: changing a date or
    a description changes neither total, changing hours keeps the total
    amount, changing a rate keeps the total of hours, and so do the handlers
    that do not touch the list of entries. *)
Theorem totals_frame (st : State) (i v : string) (field : ServiceField) :
  (field <> Hours ->
   totalHours (services (handleServiceChange i field v st))
   = totalHours (services st))
  /\ (field <> Rate ->
      totalAmount (services (handleServiceChange i field v st))
      = totalAmount (services st))
  /\ (forall a,
        match a with
        | ServiceChange _ _ _ | AddService _ | RemoveService _ => True
        | _ => services (step a st) = services st
        end).
Proof.
  split; [|split].
  - intro Hf. apply totalHours_by_hours.
    apply (change_keeps_field i field Hours v (services st)). congruence.
  - intro Hf. apply totalAmount_by_rate.
    apply (change_keeps_field i field Rate v (services st)). congruence.
  - intros a. destruct a; try exact I; try reflexivity.
    simpl. unfold handleExportPdf. now destruct (negb _).
Qed.

Lemma filter_all {A : Type} (p : A -> bool) (l : list A) :
  (forall a, In a l -> p a = true) -> filter p l = l.
Proof.
  intro Hall. apply forallb_filter_id. now apply forallb_forall.
Qed.

Lemma remove_one (i : string) (l : list ServiceEntry) :
  NoDup (map id l) -> In i (map id l) ->
  S (List.length (filter (fun s => negb (String.eqb (id s) i)) l)) = List.length l.
Proof.
  induction l as [|a l IH]; intros Hnd Hin; [contradiction|].
  inversion Hnd as [|x xs Hnotin Hnd']; subst. simpl.
  destruct (String.eqb_spec (id a) i) as [E|E]; simpl.
  - rewrite filter_all; [reflexivity|].
    intros s Hs. destruct (String.eqb_spec (id s) i) as [E'|]; [|reflexivity].
    exfalso. apply Hnotin. rewrite E, <- E'. now apply in_map.
  - f_equal. apply IH; [exact Hnd'|]. destruct Hin as [Hin|Hin]; [congruence|exact Hin].
Qed.

(** X4.  With more than one entry in the list, [removeService] takes away
    exactly the entries with the given identifier and keeps the others; when
    the identifiers are distinct and the identifier is in the list, the list
    gets shorter by one.  Whatever the length, removing an identifier that
    no entry carries leaves the state unchanged. *)
Theorem removeService_effect (st : State) (i : string) :
  List.length (services st) <> 1%nat ->
  (forall s, In s (services (removeService i st))
             <-> In s (services st) /\ id s <> i)
  /\ ~ In i (map id (services (removeService i st)))
  /\ (NoDup (map id (services st)) -> In i (map id (services st)) ->
      S (List.length (services (removeService i st)))
      = List.length (services st))
  /\ (~ In i (map id (services st)) -> removeService i st = st).
Proof.
  intro Hlen. simpl.
  destruct (Nat.eqb_spec (List.length (services st)) 1) as [E|_]; [contradiction|].
  split; [|split; [|split]].
  - intro s. rewrite filter_In. split; intros [Hin Hid]; split; try exact Hin.
    + destruct (String.eqb_spec (id s) i); [discriminate Hid | assumption].
    + destruct (String.eqb_spec (id s) i); [contradiction | reflexivity].
  - intro Hin. apply in_map_iff in Hin. destruct Hin as (s & Hs & Hin).
    apply filter_In in Hin. destruct Hin as [_ Hid].
    destruct (String.eqb_spec (id s) i); [discriminate Hid | contradiction].
  - apply remove_one.
  - intro Hn. destruct st as [c o p l s t ts cs].
    unfold removeService, setServices. simpl in *.
    destruct (List.length l =? 1)%nat; [reflexivity|].
    rewrite filter_all; [reflexivity|].
    intros a Ha. destruct (String.eqb_spec (id a) i) as [E'|]; [|reflexivity].
    exfalso. apply Hn. rewrite <- E'. now apply in_map.
Qed.

(** X5.  Removing the entry that was just added gives the state back, when
    its identifier is fresh and the list was not empty. *)
Theorem add_then_remove (st : State) (uuid : string) :
  fresh uuid st = true -> services st <> [] ->
  removeService uuid (addService uuid st) = st.
Proof.
  intros Hf Hne. pose proof (fresh_not_in uuid st Hf) as Hn.
  destruct st as [c o p l s t ts cs].
  unfold removeService, addService, setServices. simpl in *.
  destruct (Nat.eqb_spec (List.length (l ++ [createEmptyService uuid])) 1) as [E|_].
  - rewrite length_app in E. simpl in E. destruct l; [congruence | simpl in E; lia].
  - rewrite filter_app. simpl. rewrite String.eqb_refl. simpl.
    rewrite app_nil_r. rewrite filter_all; [reflexivity|].
    intros a Ha. destruct (String.eqb_spec (id a) uuid) as [E'|]; [|reflexivity].
    exfalso. apply Hn. rewrite <- E'. now apply in_map.
Qed.

End ServiceUpdates.

(** X4 on a list of two entries. *)
Lemma removeService_effect_witness :
  let st := addService "a1f3" (initialState "2025" "7d0c") in
  map id (services (removeService "7d0c" st)) = ["a1f3"].
Proof.
  intro st.
  destruct (removeService_effect st "7d0c" ltac:(discriminate)) as (_ & Hn & _).
  reflexivity.
Defined.

(** X5 on the initial form. *)
Lemma add_then_remove_witness :
  removeService "a1f3" (addService "a1f3" (initialState "2025" "7d0c"))
  = initialState "2025" "7d0c".
Proof.
  apply add_then_remove; [reflexivity | discriminate].
Defined.

(* ================================================================== *)
(** * Further properties of the exported document *)
(* ================================================================== *)

Section Document.

Context `{Platform}.

Lemma listed_lookup (o : Order) :
  (listed o = true /\ companyLabel o <> "" /\ companyAddress o <> "")
  \/ (listed o = false /\ companyLabel o = "" /\ companyAddress o = "").
Proof.
  unfold listed, companyLabel, companyAddress, findCompany, companyOptions.
  cbn [existsb find value label address orb].
  destruct (String.eqb "alsleben" (company o)).
  { left. split; [reflexivity|]. split; discriminate. }
  destruct (String.eqb "talk-phone" (company o)).
  { left. split; [reflexivity|]. split; discriminate. }
  right. repeat split.
Qed.

Lemma technicianLines_count (st : State) :
  Z.of_nat (List.length (technicianLines st))
  = 1 + present (technicianTwo (order st))
    + (if listed (order st) then 2 else 0).
Proof.
  unfold technicianLines, present.
  destruct (listed_lookup (order st)) as [(-> & Hl & Ha)|(-> & -> & ->)].
  - destruct (companyLabel (order st)); [congruence|].
    destruct (companyAddress (order st)); [congruence|].
    destruct (technician (order st)); destruct (technicianTwo (order st));
      reflexivity.
  - destruct (technician (order st)); destruct (technicianTwo (order st));
      reflexivity.
Qed.

Lemma customerLines_count (st : State) :
  Z.of_nat (List.length (customerLines st))
  = 1 + present (street (customer st)) + present (city (customer st))
    + present (phone (customer st)) + present (email (customer st)).
Proof.
  unfold customerLines, present.
  destruct (fullName (customer st)); destruct (street (customer st));
    destruct (city (customer st)); destruct (phone (customer st));
    destruct (email (customer st)); reflexivity.
Qed.

Lemma block_heights_bounds (st : State) :
  12 <= technicianBlockHeight st <= 30 /\ 12 <= customerBlockHeight st <= 36.
Proof.
  unfold technicianBlockHeight, customerBlockHeight.
  rewrite technicianLines_count, customerLines_count. unfold present.
  destruct (listed (order st)); destruct (JS.truthy (technicianTwo (order st)));
    destruct (JS.truthy (street (customer st)));
    destruct (JS.truthy (city (customer st)));
    destruct (JS.truthy (phone (customer st)));
    destruct (JS.truthy (email (customer st))); lia.
Qed.

(** X6.  The technician block has one line for the technician, one for a
    second technician that is not empty, and two (label and address) for a
    company that is among the options; a company that is not among them
    gives an empty label and an empty address and no line.  The customer
    block has one line for the name and one for each of street, city, phone
    and e-mail that is not empty.  So the blocks are between 12 and 30, and
    between 12 and 36 tall. *)
Theorem block_line_counts (st : State) :
  Z.of_nat (List.length (technicianLines st))
  = 1 + present (technicianTwo (order st))
    + (if listed (order st) then 2 else 0)
  /\ Z.of_nat (List.length (customerLines st))
     = 1 + present (street (customer st)) + present (city (customer st))
       + present (phone (customer st)) + present (email (customer st))
  /\ (listed (order st) = false ->
      companyLabel (order st) = "" /\ companyAddress (order st) = "")
  /\ 12 <= technicianBlockHeight st <= 30
  /\ 12 <= customerBlockHeight st <= 36.
Proof.
  split; [apply technicianLines_count|]. split; [apply customerLines_count|].
  split; [|apply block_heights_bounds].
  intro Hl. destruct (listed_lookup (order st)) as [(E & _)|(_ & ? & ?)];
    [congruence | now split].
Qed.

(** The calls of the signature phase. *)
Lemma calls_renderSignatures (st : State) (y : Z) :
  calls (renderSignatures st) y
  = (signatureImage (technicianSignature st) marginX (y + 20)
     ++ signatureImage (customerSignature st)
          (pageWidth - marginX - signatureWidth) (y + 20)
     ++ [ line marginX (y + 20) (marginX + signatureWidth + 20) (y + 20);
          line (pageWidth - marginX - signatureWidth - 20) (y + 20)
            (pageWidth - marginX) (y + 20);
          text (Str "Datum, Unterschrift Techniker") marginX (y + 20 + 6) None;
          text (Str "Datum, Unterschrift Kunde")
            (pageWidth - marginX - signatureWidth - 10) (y + 20 + 6) None ])%list.
Proof.
  unfold renderSignatures, addSignature, signatureImage, calls, bind, pdf,
    advance, cursorY, ret.
  destruct (technicianSignature st) as [d|]; [destruct (JS.truthy d)|];
    (destruct (customerSignature st) as [e|]; [destruct (JS.truthy e)|]);
    reflexivity.
Qed.

Lemma images_app (a b : list PdfCall) :
  images (a ++ b) = (images a ++ images b)%list.
Proof. apply filter_app. Qed.

Lemma images_rows (l : list ServiceEntry) (y : Z) :
  images (calls (forEach l renderRow) y) = [].
Proof.
  rewrite calls_rows. generalize (rowsFrom rowHeight l y). intro rows.
  induction rows as [|r rows IH]; [reflexivity|].
  cbn [flat_map]. rewrite images_app, IH, calls_renderRow. reflexivity.
Qed.

Lemma images_signature (sig : option string) (x : Q) (y : Z) :
  images (signatureImage sig x y) = signatureImage sig x y.
Proof.
  unfold signatureImage. destruct sig as [d|]; [destruct (JS.truthy d)|];
    reflexivity.
Qed.

(** The images of the document are those of the two signatures. *)
Lemma document_images (st : State) :
  images (document st)
  = (signatureImage (technicianSignature st) marginX (ruleY st)
     ++ signatureImage (customerSignature st)
          (pageWidth - marginX - signatureWidth) (ruleY st))%list.
Proof.
  rewrite document_layout. cbv zeta.
  rewrite calls_renderSignatures, signatures_start.
  change (jsPDF "p" "mm" "a4" :: calls renderTitle 25 ++ ?r)%list
    with ((jsPDF "p" "mm" "a4" :: calls renderTitle 25) ++ r)%list.
  rewrite !images_app, images_rows, !images_signature.
  change (images (jsPDF "p" "mm" "a4" :: calls renderTitle 25))
    with (@nil PdfCall).
  change (images (calls (renderBlocks st) 39)) with (@nil PdfCall).
  change (images (calls (renderSummary st) ?y)) with (@nil PdfCall).
  change (images (calls renderTableHeader ?y)) with (@nil PdfCall).
  change (images (calls (renderTotals st) ?y)) with (@nil PdfCall).
  change (images [save "leistungsnachweis.pdf"]) with (@nil PdfCall).
  change (images [line ?a ?b ?c ?d; line ?e ?f ?g ?h; text ?t ?x ?y ?z;
                  text ?t' ?x' ?y' ?z']) with (@nil PdfCall).
  cbn [app]. now rewrite !app_nil_r.
Qed.


Lemma rows_height_bound (l : list ServiceEntry) :
  8 * Z.of_nat (List.length l) <= fold_right Z.add 0 (map rowHeight l).
Proof.
  induction l as [|a l IH]; [simpl; lia|].
  cbn [map fold_right List.length]. unfold rowHeight at 1. lia.
Qed.

Lemma signature_phase_in_document (st : State) (c : PdfCall) :
  In c (calls (renderSignatures st)
          (cursorAfter (forEach (services st) renderRow)
             (cursorAfter (renderBlocks st) 39 + 6 + 6 + 6 + 6 + 8) + 8 + 6)) ->
  In c (document st).
Proof.
  intro Hc. rewrite document_layout. right.
  do 6 (apply in_or_app; right). apply in_or_app; left. exact Hc.
Qed.

(** X7.  The only images of the document are the signatures: one for each
    signature that is neither null nor empty, the technician's at the left
    margin and the customer's against the right margin, both 60 wide and 23
    tall and standing on the rules.  The two rules and their captions are
    drawn whether or not there is a signature, at the height the blocks and
    the rows push them to, at least 121 + 8 for each entry. *)
Theorem signature_block (st : State) :
  images (document st)
  = (signatureImage (technicianSignature st) marginX (ruleY st)
     ++ signatureImage (customerSignature st)
          (pageWidth - marginX - signatureWidth) (ruleY st))%list
  /\ In (line marginX (ruleY st) (marginX + signatureWidth + 20) (ruleY st))
        (document st)
  /\ In (line (pageWidth - marginX - signatureWidth - 20) (ruleY st)
           (pageWidth - marginX) (ruleY st))
        (document st)
  /\ In (text (Str "Datum, Unterschrift Techniker") marginX (ruleY st + 6) None)
        (document st)
  /\ In (text (Str "Datum, Unterschrift Kunde")
           (pageWidth - marginX - signatureWidth - 10) (ruleY st + 6) None)
        (document st)
  /\ 121 + 8 * Z.of_nat (List.length (services st)) <= ruleY st.
Proof.
  split; [apply document_images|].
  assert (Hin : forall c,
             In c [ line marginX (ruleY st) (marginX + signatureWidth + 20) (ruleY st);
                    line (pageWidth - marginX - signatureWidth - 20) (ruleY st)
                      (pageWidth - marginX) (ruleY st);
                    text (Str "Datum, Unterschrift Techniker") marginX
                      (ruleY st + 6) None;
                    text (Str "Datum, Unterschrift Kunde")
                      (pageWidth - marginX - signatureWidth - 10)
                      (ruleY st + 6) None ] ->
             In c (document st)).
  { intros c Hc. apply signature_phase_in_document.
    rewrite calls_renderSignatures, signatures_start.
    apply in_or_app; right. apply in_or_app; right. exact Hc. }
  split; [apply Hin; left; reflexivity|].
  split; [apply Hin; right; left; reflexivity|].
  split; [apply Hin; do 2 right; left; reflexivity|].
  split; [apply Hin; do 3 right; left; reflexivity|].
  unfold ruleY. pose proof (block_heights_bounds st) as [Ht _].
  pose proof (rows_height_bound (services st)). lia.
Qed.

(** X8.  The columns of the table fill its width, which is the page less
    the two margins; every cell of a row starts where the header label of
    its column starts, 3 inside the column; and the rule below a row is as
    long as the header rectangle is wide.  On a page wider than 146 the
    columns follow each other from the left margin to the right one and the
    text of a description has room. *)
Theorem table_geometry (s : ServiceEntry) (y y' : Z) :
  (146 < pageWidth)%Q ->
  (dateWidth + descWidth + hoursWidth + priceWidth == tableWidth)%Q
  /\ (marginX + tableWidth + marginX == pageWidth)%Q
  /\ (marginX < marginX + dateWidth
      /\ marginX + dateWidth + 6 < marginX + dateWidth + descWidth
      /\ marginX + dateWidth + descWidth
         < marginX + dateWidth + descWidth + hoursWidth
      /\ marginX + dateWidth + descWidth + hoursWidth < marginX + tableWidth)%Q
  /\ calls renderTableHeader y
     = [ setFillColor 240 240 240;
         rect marginX y tableWidth headerHeight "F";
         setFont "helvetica" "bold";
         text (Str "Datum") (marginX + 3) (y + 6) None;
         text (Str "Beschreibung") (marginX + dateWidth + 3) (y + 6) None;
         text (Str "Stunden") (marginX + dateWidth + descWidth + 3) (y + 6) None;
         text (Str "Preis") (marginX + dateWidth + descWidth + hoursWidth + 3)
           (y + 6) None;
         setFont "helvetica" "normal" ]
  /\ calls (renderRow s) y'
     = [ text (Str (dateText s)) (marginX + 3) (y' + 5) None;
         text (Lines (descLines s)) (marginX + dateWidth + 3) (y' + 5) None;
         text (Str (hoursText s)) (marginX + dateWidth + descWidth + 3)
           (y' + 5) None;
         text (Str (rateText s))
           (marginX + dateWidth + descWidth + hoursWidth + 3) (y' + 5) None;
         line marginX (y' + rowHeight s) (marginX + tableWidth)
           (y' + rowHeight s) ].
Proof.
  intro Hw.
  unfold descWidth, tableWidth, marginX, dateWidth, hoursWidth, priceWidth.
  split; [ring|]. split; [ring|].
  split; [repeat split; lra|].
  split; reflexivity.
Qed.

Lemma document_ignores_flags (st : State) (b : bool) :
  document (setCompanyTouched b st) = document st
  /\ document (setShowSecondTechnician b st) = document st.
Proof. split; reflexivity. Qed.

(** X9.  A refused export can be retried: it produces nothing and raises
    the marker of the company field, leaving every other part of the state
    as it is; refusing again changes nothing more; and once a company is
    chosen the marker is gone and the export succeeds with the document of
    the form as if no attempt had failed.  A successful export leaves the
    state as it is. *)
Theorem export_retry (st : State) (c : string) :
  company (order st) = "" -> c <> "" ->
  let refused := fst (handleExportPdf st) in
  let chosen := handleOrderChange Company c refused in
  refused = setCompanyTouched true st
  /\ snd (handleExportPdf st) = None
  /\ companyError refused = true
  /\ handleExportPdf refused = (refused, None)
  /\ chosen = setCompanyTouched true (handleOrderChange Company c st)
  /\ companyError chosen = false
  /\ handleExportPdf chosen
     = (chosen, Some (document (handleOrderChange Company c st)))
  /\ fst (handleExportPdf chosen) = chosen.
Proof.
  intros Hc Hne refused chosen.
  assert (Hr : refused = setCompanyTouched true st)
    by (unfold refused; now rewrite export_without_company).
  split; [exact Hr|].
  split. { now rewrite export_without_company. }
  split. { rewrite Hr. unfold companyError. simpl. now rewrite Hc. }
  split. { rewrite Hr. now rewrite export_without_company. }
  split. { unfold chosen. rewrite Hr. reflexivity. }
  assert (Hch : company (order chosen) = c) by reflexivity.
  split. { unfold companyError. rewrite Hch. destruct c; [congruence|].
           cbn. now rewrite andb_false_r. }
  assert (He : handleExportPdf chosen = (chosen, Some (document chosen)))
    by (apply export_with_company; now rewrite Hch).
  split; [|now rewrite He].
  rewrite He. unfold chosen. rewrite Hr. reflexivity.
Qed.

End Document.

(** X8 on the reference platform. *)
Lemma table_geometry_witness :
  (@descWidth Reference.platform == 315007 # 4500)%Q.
Proof.
  destruct (@table_geometry Reference.platform (createEmptyService "7d0c") 91 99
              eq_refl) as (Hsum & _).
  vm_compute. reflexivity.
Defined.

(** X9 on the initial form, with the second company. *)
Lemma export_retry_witness :
  let st := initialState "2025" "7d0c" in
  fst (@handleExportPdf Reference.platform st) = setCompanyTouched true st
  /\ snd (@handleExportPdf Reference.platform
            (handleOrderChange Company "talk-phone"
               (fst (@handleExportPdf Reference.platform st))))
     = Some (@document Reference.platform
               (handleOrderChange Company "talk-phone" st)).
Proof.
  intro st.
  destruct (@export_retry Reference.platform st "talk-phone" eq_refl
              ltac:(discriminate)) as (Hr & _ & _ & _ & _ & _ & E & _).
  split; [exact Hr|]. rewrite E. reflexivity.
Defined.

Section Runs.

Context `{Platform}.

Lemma offered_admissible (acts : list Action) (st : State) :
  offeredRun acts st = true -> admissible acts st = true.
Proof.
  revert st; induction acts as [|a acts IH]; intros st Ho; [reflexivity|].
  simpl in Ho. apply andb_true_iff in Ho. destruct Ho as [Ha Ho].
  simpl. rewrite (IH _ Ho), andb_true_r.
  destruct a; try reflexivity. exact Ha.
Qed.

Lemma step_consistent (a : Action) (st : State) :
  offered a st = true -> consistent st -> consistent (step a st).
Proof.
  intros Ho (Hp & Hc & Ht). unfold consistent.
  destruct a; simpl in *; try (repeat split; assumption).
  - (* OrderChange *)
    destruct field; simpl in *; try (repeat split; assumption).
    + split; [exact Hp|]. split; [exact Hc|]. intro E. congruence.
    + split; [exact Hp|]. split; [|exact Ht].
      right. unfold listed. simpl company. exact Ho.
  - (* AddSecondTechnician *)
    split; [exact Hp|]. split; [exact Hc|]. discriminate.
  - (* PaymentMethod *)
    split; [|split; assumption].
    repeat (apply orb_true_iff in Ho; destruct Ho as [Ho|Ho]);
      try discriminate Ho; apply String.eqb_eq in Ho; subst p; simpl; tauto.
  - (* ExportPdf *)
    unfold handleExportPdf. destruct (negb _); repeat split; assumption.
Qed.

Lemma run_consistent (acts : list Action) (st : State) :
  offeredRun acts st = true -> consistent st -> consistent (run acts st).
Proof.
  revert st; induction acts as [|a acts IH]; intros st Ho Hc; [exact Hc|].
  simpl in Ho. apply andb_true_iff in Ho. destruct Ho as [Ha Ho].
  simpl. apply IH; [exact Ho|]. now apply step_consistent.
Qed.

(** X10.  In every state that the form reaches through what the page
    offers, the payment method is one of the three options, the company is
    empty or one of the options, a second technician whose field is hidden
    is empty, and the entries are at least one with distinct identifiers.
    So whenever such a state exports a document, the company is one of the
    options and its label and address are lines of the technician block. *)
Theorem offered_runs_keep_form_consistent (thisYear uuid : string)
        (acts : list Action) :
  offeredRun acts (initialState thisYear uuid) = true ->
  let st := run acts (initialState thisYear uuid) in
  In (paymentMethod st) paymentOptions
  /\ (company (order st) = "" \/ listed (order st) = true)
  /\ (showSecondTechnician st = false -> technicianTwo (order st) = "")
  /\ wellFormed (services st)
  /\ (forall doc, snd (handleExportPdf st) = Some doc ->
      listed (order st) = true
      /\ In (companyLabel (order st)) (technicianLines st)
      /\ In (companyAddress (order st)) (technicianLines st)
      /\ companyLabel (order st) <> "").
Proof.
  intros Ho st.
  assert (Hc : consistent st).
  { apply run_consistent; [exact Ho|]. repeat split; [left; reflexivity | now left]. }
  assert (Hw : wellFormed (services st)).
  { apply run_wellFormed; [now apply offered_admissible|].
    split; [discriminate|]. simpl. constructor; [intros []|constructor]. }
  destruct Hc as (Hp & Hcomp & Ht).
  split; [exact Hp|]. split; [exact Hcomp|]. split; [exact Ht|].
  split; [exact Hw|].
  intros doc Hdoc.
  assert (Hl : listed (order st) = true).
  { destruct Hcomp as [E|E]; [|exact E].
    rewrite (export_without_company st E) in Hdoc. discriminate. }
  split; [exact Hl|].
  destruct (listed_lookup (order st)) as [(_ & Hlab & Hadr)|(E & _)];
    [|congruence].
  split; [|split; [|exact Hlab]].
  - unfold technicianLines. apply filter_In.
    split; [do 2 right; left; reflexivity | now apply truthy_true].
  - unfold technicianLines. apply filter_In.
    split; [do 3 right; left; reflexivity | now apply truthy_true].
Qed.

Lemma trimEnd_blank (s : string) : JS.trimEnd (s ++ " ") = JS.trimEnd s.
Proof.
  unfold JS.trimEnd. rewrite list_of_append.
  change (list_ascii_of_string " ") with [" "%char].
  rewrite rev_app_distr. reflexivity.
Qed.

(** X11.  The document prints the three summary lines, 6 apart: the order
    number, the period and the payment method.  The period line is
    trimmed: with an empty year, the blank that the template puts after the
    month is not printed, and with an empty month as well the line that is
    printed reads "Zeitraum: -". *)
Theorem summary_period_line (st : State) :
  In (text (Str ("Auftragsnummer: " ++ JS.or_else (orderNumber (order st)) "-"))
        marginX (summaryY st) None) (document st)
  /\ In (text (Str (JS.trim ("Zeitraum: " ++ JS.or_else (month (order st)) "-"
                             ++ " " ++ JS.or_else (year (order st)) "")))
           marginX (summaryY st + 6) None) (document st)
  /\ In (text (Str ("Zahlungsart: " ++ paymentMethod st))
           marginX (summaryY st + 12) None) (document st)
  /\ (year (order st) = "" ->
      In (text (Str (JS.trimEnd ("Zeitraum: "
                                 ++ JS.or_else (month (order st)) "-")))
            marginX (summaryY st + 6) None) (document st))
  /\ (year (order st) = "" -> month (order st) = "" ->
      In (text (Str "Zeitraum: -") marginX (summaryY st + 6) None) (document st)).
Proof.
  assert (H2 : In (text (Str (JS.trim ("Zeitraum: "
                                       ++ JS.or_else (month (order st)) "-"
                                       ++ " "
                                       ++ JS.or_else (year (order st)) "")))
                     marginX (summaryY st + 6) None) (document st)).
  { apply summary_in_document. rewrite calls_renderSummary.
    do 2 right. left. reflexivity. }
  assert (E : year (order st) = "" ->
              JS.trim ("Zeitraum: " ++ JS.or_else (month (order st)) "-" ++ " "
                       ++ JS.or_else (year (order st)) "")
              = JS.trimEnd ("Zeitraum: " ++ JS.or_else (month (order st)) "-")).
  { intro Hy. rewrite Hy. change (JS.or_else "" "") with "".
    replace ("Zeitraum: " ++ JS.or_else (month (order st)) "-" ++ " " ++ "")
      with (("Zeitraum: " ++ JS.or_else (month (order st)) "-") ++ " ")
      by reflexivity.
    unfold JS.trim.
    change (JS.trimStart
              (("Zeitraum: " ++ JS.or_else (month (order st)) "-") ++ " "))
      with (("Zeitraum: " ++ JS.or_else (month (order st)) "-") ++ " ").
    apply trimEnd_blank. }
  split.
  { apply summary_in_document. rewrite calls_renderSummary.
    right. left. reflexivity. }
  split; [exact H2|].
  split.
  { apply summary_in_document. rewrite calls_renderSummary.
    do 3 right. left. f_equal. lia. }
  split.
  { intro Hy. rewrite (E Hy) in H2. exact H2. }
  intros Hy Hm. rewrite (E Hy), Hm in H2. exact H2.
Qed.

Lemma sum_none {A : Type} (keep : A -> bool) (val : A -> JS.Number)
      (l : list A) :
  (forall a, In a l -> keep a = false) ->
  sum (map val (filter keep l)) = JS.zero.
Proof.
  intro Hn. replace (filter keep l) with (@nil A); [reflexivity|].
  symmetry. induction l as [|a l IH]; [reflexivity|].
  simpl. rewrite (Hn a (or_introl eq_refl)). apply IH.
  intros b Hb. apply Hn. now right.
Qed.

(** X12.  When no entry has hours that parse, the total of hours is zero
    and is printed as 0.00; when no rate parses, the total amount is zero
    and is printed as 0,00 with the euro sign: a column of the table left
    blank prints its total, not a dash. *)
Theorem totals_of_unparseable (st : State) :
  ((forall s, In s (services st) -> parses (hours s) = false) ->
   totalHours (services st) = JS.zero
   /\ In (text (Str "Gesamtstunden: 0.00") marginX (ruleY st - 26) None)
         (document st))
  /\ ((forall s, In s (services st) -> parses (rate s) = false) ->
      totalAmount (services st) = JS.zero
      /\ In (text (Str ("Gesamtpreis: 0,00" ++ JS.nbsp ++ JS.euro)) marginX
               (ruleY st - 20) None)
            (document st)).
Proof.
  destruct (totals_in_document st) as [Hh Ha].
  split.
  - intro Hn.
    assert (E : totalHours (services st) = JS.zero)
      by (rewrite totalHours_sum; now apply sum_none).
    split; [exact E|]. rewrite E in Hh. exact Hh.
  - intro Hn.
    assert (E : totalAmount (services st) = JS.zero)
      by (rewrite totalAmount_sum; now apply sum_none).
    split; [exact E|]. rewrite E in Ha. exact Ha.
Qed.

End Runs.

(** X10 on a run that chooses a company and adds and removes the second
    technician. *)
Lemma offered_runs_keep_form_consistent_witness :
  let acts := [ OrderChange Company "alsleben"; AddSecondTechnician;
                OrderChange TechnicianTwo "Anna Schulz";
                RemoveSecondTechnician; PaymentMethod "Rechnung" ] in
  technicianTwo
    (order (@run Reference.platform acts (initialState "2025" "7d0c"))) = "".
Proof.
  intro acts.
  destruct (@offered_runs_keep_form_consistent Reference.platform
              "2025" "7d0c" acts eq_refl) as (_ & _ & Ht & _).
  apply Ht. reflexivity.
Defined.

(** X11 on the initial form with the year deleted and a company chosen. *)
Lemma summary_period_line_witness :
  let st := handleOrderChange Company "alsleben"
              (handleOrderChange Year "" (initialState "2025" "7d0c")) in
  In (text (Str "Zeitraum: -") 20 73 None) (@document Reference.platform st).
Proof.
  intro st.
  destruct (@summary_period_line Reference.platform st) as (_ & _ & _ & _ & E).
  exact (E eq_refl eq_refl).
Defined.

(** X12 on a form with a company chosen, a price of 5 euros and no
    hours. *)
Lemma totals_of_unparseable_witness :
  let st := handleServiceChange "7d0c" Rate "5"
              (handleOrderChange Company "alsleben"
                 (initialState "2025" "7d0c")) in
  In (text (Str "Gesamtstunden: 0.00") 20 115 None)
     (@document Reference.platform st).
Proof.
  intro st.
  destruct (@totals_of_unparseable Reference.platform st) as (Hh & _).
  assert (Hn : forall s, In s (services st) -> parses (hours s) = false).
  { intros s [<-|[]]. reflexivity. }
  exact (proj2 (Hh Hn)).
Defined.

(* ================================================================== *)
(** * Further properties of the signature pad *)
(* ================================================================== *)

Section Gestures.

Context {H : Type} `{Browser}.

(** X13.  A resize of the window discards what was drawn: on a pad whose
    canvas has a context and a parent, the bitmap gets the size that the
    canvas makes of the Number products of the sides of the parent and the
    pixel ratio (1 for a ratio of 0), which below 2^31 is their integer
    part; the context is scaled by that ratio with an empty path; and every
    pixel shows the background colour, whatever the bitmap held and for
    every ratio.  A stroke in progress stays in progress.  Without a parent
    the pad is left as it is. *)
Theorem resize_discards_strokes (env : Env) (pad : Pad) (canvas : Canvas) :
  canvasRef pad = Some canvas -> context2d canvas <> None ->
  (forall rect, parentRect env = Some rect ->
     let ratio := if Qeq_bool (devicePixelRatio env) 0 then 1%Q
                  else devicePixelRatio env in
     let w := JS.mul (JS.ofQ (rectWidth rect)) (JS.ofQ ratio) in
     let h := JS.mul (JS.ofQ (rectHeight rect)) (JS.ofQ ratio) in
     exists canvas' ctx',
       canvasRef (handleResize env pad) = Some canvas'
       /\ width canvas' = reflected 300 (toUnsignedLong w)
       /\ height canvas' = reflected 150 (toUnsignedLong h)
       /\ (forall v, JS.exact w = Some v -> (v < inject_Z (2 ^ 31))%Q ->
           width canvas' = Qfloor v)
       /\ (forall v, JS.exact h = Some v -> (v < inject_Z (2 ^ 31))%Q ->
           height canvas' = Qfloor v)
       /\ context2d canvas' = Some ctx'
       /\ scale ctx' = ratio /\ path ctx' = []
       /\ blank (getBackgroundColor env) canvas'
       /\ drawing (handleResize env pad) = drawing pad)
  /\ (parentRect env = None -> handleResize env pad = pad).
Proof.
  intros Hc Hx. split.
  - intros rect Hp ratio w h.
    destruct (resize_blank env rect canvas Hp Hx)
      as (Hw & Hh & _ & _ & Hctx & Hb).
    destruct (rectSides rect) as [Hrw Hrh].
    pose proof (ratio_sign env) as Hr.
    unfold handleResize. rewrite Hc. cbn [canvasRef drawing].
    eexists. eexists. split; [reflexivity|].
    split; [exact Hw|]. split; [exact Hh|].
    split.
    { intros v Hv Hlt. rewrite Hw.
      exact (proj2 (proj2 (size_below 300 _ v ltac:(lia)
                             (mul_unsigned _ _ (ofQ_unsigned _ Hrw)
                                (ofQ_unsigned _ Hr)) Hv)) Hlt). }
    split.
    { intros v Hv Hlt. rewrite Hh.
      exact (proj2 (proj2 (size_below 150 _ v ltac:(lia)
                             (mul_unsigned _ _ (ofQ_unsigned _ Hrh)
                                (ofQ_unsigned _ Hr)) Hv)) Hlt). }
    split; [exact Hctx|].
    split; [reflexivity|]. split; [reflexivity|]. split; [exact Hb|reflexivity].
  - intro Hp. unfold handleResize, resizeCanvas. rewrite Hc, Hp.
    destruct pad; simpl in *; now subst.
Qed.

Lemma move_idle (env : Env) (event : PointerEvent) (pad : Pad) :
  drawing pad = false -> handlePointerMove env event pad = pad.
Proof.
  intro Hd. unfold handlePointerMove. rewrite Hd.
  destruct (canvasRef pad) as [c|]; [destruct (context2d c)|]; reflexivity.
Qed.

Lemma drag_idle (env : Env) (events : list PointerEvent) (pad : Pad) :
  drawing pad = false -> drag env events pad = pad.
Proof.
  intro Hd. unfold drag. induction events as [|e es IH]; [reflexivity|].
  simpl. now rewrite move_idle.
Qed.

Lemma move_unmounted (env : Env) (event : PointerEvent) (pad : Pad) :
  (forall c, canvasRef pad = Some c -> context2d c = None) ->
  handlePointerMove env event pad = pad.
Proof.
  intro Hn. unfold handlePointerMove.
  destruct (canvasRef pad) as [c|]; [|reflexivity].
  now rewrite (Hn c eq_refl).
Qed.

(** X14.  Pointer moves draw only between a pointerdown and the next
    pointerup, pointerleave or pointercancel: on a pad that is not drawing,
    as after mounting or after [stopDrawing], any run of pointermove events
    leaves the pad, its bitmap included, as it is. *)
Theorem moves_draw_only_while_drawing (props : Props (H := H)) (env env' : Env)
        (events : list PointerEvent) (pad : Pad) (host : H) (has2d : bool) :
  (drawing pad = false -> drag env events pad = pad)
  /\ drag env events (fst (stopDrawing props pad host))
     = fst (stopDrawing props pad host)
  /\ drag env events (mount env' has2d) = mount env' has2d.
Proof.
  split; [apply drag_idle|]. split; [|now apply drag_idle].
  unfold stopDrawing.
  destruct (canvasRef pad) as [c|] eqn:Ec.
  - destruct (context2d c) eqn:Ex.
    + now apply drag_idle.
    + cbn [fst]. unfold drag. induction events as [|e es IH]; [reflexivity|].
      simpl. rewrite move_unmounted; [exact IH|].
      intros c' Hc'. rewrite Ec in Hc'. injection Hc' as <-. exact Ex.
  - cbn [fst]. unfold drag. induction events as [|e es IH]; [reflexivity|].
    simpl. rewrite move_unmounted; [exact IH|].
    intros c' Hc'. rewrite Ec in Hc'. discriminate.
Qed.

Lemma strokes_withPath (ctx : Context2D) (q p new : list (Q * Q)) (b : Bitmap) :
  strokes (withPath q ctx) p new b = strokes ctx p new b.
Proof.
  revert p b. induction new as [|a r IH]; intros p b; [reflexivity|].
  simpl. rewrite IH. reflexivity.
Qed.

Lemma drag_path (env : Env) (events : list PointerEvent) (canvas : Canvas)
      (ctx : Context2D) (x y : Q) :
  strokeStyle ctx = getStrokeColor env ->
  context2d canvas = Some ctx ->
  exists x' y',
    drag env events
      {| canvasRef := Some canvas; drawing := true; lastX := x; lastY := y |}
    = {| canvasRef :=
           Some (withDrawing
                   (strokes ctx (path ctx) (map (getPos env) events)
                      (bitmap canvas))
                   (withPath (path ctx ++ map (getPos env) events)%list ctx)
                   canvas);
         drawing := true; lastX := x'; lastY := y' |}.
Proof.
  revert canvas ctx x y.
  induction events as [|e es IH]; intros canvas ctx x y Hs Hx.
  - exists x, y. unfold drag. simpl. rewrite app_nil_r.
    destruct canvas, ctx; simpl in *. now subst.
  - unfold drag. simpl. unfold handlePointerMove at 2.
    cbn [canvasRef drawing negb]. rewrite Hx. cbn [negb].
    set (ctx1 := withPath (path (withStrokeStyle (getStrokeColor env) ctx)
                           ++ [getPos env e])%list
                   (withStrokeStyle (getStrokeColor env) ctx)).
    assert (E1 : ctx1 = withPath (path ctx ++ [getPos env e])%list ctx).
    { unfold ctx1. destruct ctx; simpl in *. now subst. }
    set (canvas1 := withDrawing (strokePath ctx1 (bitmap canvas)) ctx1 canvas).
    destruct (IH canvas1 ctx1 (fst (getPos env e)) (snd (getPos env e)))
      as (x' & y' & E).
    { rewrite E1. exact Hs. }
    { reflexivity. }
    exists x', y'. unfold drag in E. rewrite E. f_equal. f_equal.
    unfold canvas1. rewrite E1. rewrite strokes_withPath.
    cbn [path withPath bitmap withDrawing].
    rewrite <- app_assoc. reflexivity.
Qed.

(** X15.  A gesture: after a pointerdown at [e0] and the pointermoves [es]
    on a pad with a context, the pad is drawing, the path of the context
    holds the positions of all these events, in order and relative to the
    canvas, the stroke colour is the one of the theme, and the bitmap is the
    one before the gesture with the growing path stroked in that colour,
    once for each move.  Size and scaling of the canvas are as before: a pointerdown alone
    paints nothing. *)
Theorem gesture_path (env : Env) (e0 : PointerEvent) (es : list PointerEvent)
        (pad : Pad) (canvas : Canvas) (ctx : Context2D) :
  canvasRef pad = Some canvas -> context2d canvas = Some ctx ->
  let pad' := drag env es (handlePointerDown env e0 pad) in
  exists canvas' ctx',
    canvasRef pad' = Some canvas' /\ context2d canvas' = Some ctx'
    /\ drawing pad' = true
    /\ path ctx' = map (getPos env) (e0 :: es)
    /\ strokeStyle ctx' = getStrokeColor env
    /\ scale ctx' = scale ctx /\ fillStyle ctx' = fillStyle ctx
    /\ width canvas' = width canvas /\ height canvas' = height canvas
    /\ bitmap canvas'
       = strokes (withStrokeStyle (getStrokeColor env) ctx) [getPos env e0]
           (map (getPos env) es) (bitmap canvas).
Proof.
  intros Hc Hx pad'. unfold pad', handlePointerDown. rewrite Hc, Hx.
  set (ctx0 := withPath [getPos env e0] (withStrokeStyle (getStrokeColor env) ctx)).
  destruct (drag_path env es (withDrawing (bitmap canvas) ctx0 canvas) ctx0
              (fst (getPos env e0)) (snd (getPos env e0)))
    as (x' & y' & E); [reflexivity|reflexivity|].
  rewrite E. eexists. eexists.
  split; [reflexivity|]. split; [reflexivity|]. split; [reflexivity|].
  split; [reflexivity|]. split; [reflexivity|]. split; [reflexivity|].
  split; [reflexivity|]. split; [reflexivity|]. split; [reflexivity|].
  cbn [bitmap withDrawing]. unfold ctx0. rewrite strokes_withPath.
  reflexivity.
Qed.

Lemma play_snoc (props : Props (H := H)) (env : Env) (events : list PadEvent)
      (e : PadEvent) (s : Pad * H) :
  play props env (events ++ [e]) s = dispatch props env e (play props env events s).
Proof. unfold play. now rewrite fold_left_app. Qed.

Lemma play_invariant (P : Pad * H -> Prop) (props : Props (H := H)) (env : Env)
      (events : list PadEvent) (s : Pad * H) :
  P s -> (forall e s, P s -> P (dispatch props env e s)) ->
  P (play props env events s).
Proof.
  intros Hs Hstep. revert s Hs. unfold play.
  induction events as [|e es IH]; intros s Hs; [exact Hs|].
  simpl. apply IH. now apply Hstep.
Qed.

(** The pad after an event does not depend on who listens to it. *)
Lemma dispatch_pad (props props' : Props (H := H)) (env : Env) (e : PadEvent)
      (pad : Pad) (host host' : H) :
  fst (dispatch props env e (pad, host)) = fst (dispatch props' env e (pad, host')).
Proof.
  destruct e; cbn [dispatch fst snd]; try reflexivity;
    unfold stopDrawing, handleClear;
    destruct (canvasRef pad) as [c|]; try reflexivity;
    destruct (context2d c); reflexivity.
Qed.

Lemma play_pad (props props' : Props (H := H)) (env : Env) (events : list PadEvent)
      (pad : Pad) (host host' : H) :
  fst (play props env events (pad, host)) = fst (play props' env events (pad, host')).
Proof.
  revert pad host host'. unfold play.
  induction events as [|e es IH]; intros pad host host'; [reflexivity|].
  simpl.
  pose proof (dispatch_pad props props' env e pad host host') as E.
  destruct (dispatch props env e (pad, host)) as [p1 h1].
  destruct (dispatch props' env e (pad, host')) as [p2 h2].
  cbn [fst] in E. subst p2. apply IH.
Qed.

(** A pad without a canvas, or whose canvas gives no 2D context. *)
Lemma inert_dispatch (props : Props (H := H)) (env : Env) (e : PadEvent)
      (pad : Pad) (host : H) :
  (forall c, canvasRef pad = Some c -> context2d c = None) ->
  snd (dispatch props env e (pad, host)) = host
  /\ (forall c, canvasRef (fst (dispatch props env e (pad, host))) = Some c ->
      context2d c = None)
  /\ (e <> resize -> fst (dispatch props env e (pad, host)) = pad).
Proof.
  intro Hn.
  destruct e; cbn [dispatch fst snd];
    unfold handlePointerDown, handlePointerMove, stopDrawing, handleClear,
      handleResize;
    destruct (canvasRef pad) as [c|] eqn:Ec;
    try (rewrite (Hn c eq_refl)); cbn [fst snd];
    try (split; [reflexivity|split; [|reflexivity]];
         intros c' Hc'; rewrite Ec in Hc'; first [discriminate | now inversion Hc'; subst; apply Hn]).
  - split; [reflexivity|]. split; [|congruence].
    cbn [canvasRef]. intros c' Hc'. injection Hc' as <-.
    pose proof (Hn c eq_refl) as Hx.
    unfold resizeCanvas. destruct (parentRect env); [|exact Hx].
    cbn [context2d setStyle setHeight setWidth resetOnResize option_map].
    rewrite Hx. cbn [option_map context2d setStyle setHeight setWidth resetOnResize].
    now rewrite Hx.
Qed.

(** X16.  A pad that has no canvas, or whose canvas gives no 2D context:
    whatever the events, nothing is drawn and the owner is never notified,
    neither of an image nor of a cleared pad.  Only a resize still changes
    the pad, which keeps being without a context. *)
Theorem pad_without_context_is_inert (props : Props (H := H)) (env : Env)
        (events : list PadEvent) (pad : Pad) (host : H) :
  (forall c, canvasRef pad = Some c -> context2d c = None) ->
  snd (play props env events (pad, host)) = host
  /\ (~ In resize events -> fst (play props env events (pad, host)) = pad)
  /\ (forall c, canvasRef (fst (play props env events (pad, host))) = Some c ->
      context2d c = None).
Proof.
  revert pad. unfold play.
  induction events as [|e es IH]; intros pad Hn.
  - split; [reflexivity|]. split; [reflexivity|exact Hn].
  - cbn [fold_left].
    destruct (inert_dispatch props env e pad host Hn) as (Hh & Hn' & Hp).
    destruct (dispatch props env e (pad, host)) as [pad1 host1].
    cbn [fst snd] in Hh, Hn', Hp. subst host1.
    destruct (IH pad1 Hn') as (IH1 & IH2 & IH3).
    split; [exact IH1|]. split; [|exact IH3].
    intro Hnot. rewrite IH2.
    + apply Hp. intro He. apply Hnot. now left.
    + intro Hin. apply Hnot. now right.
Qed.

(** X17.  A pad mounted in a page whose pad area, pixel ratio and theme
    stay as they are keeps, through every run of events, a canvas of the
    size that the first effect gave it, the Number products of the sides of
    the area and the ratio made into sizes, and a context scaled by the
    ratio with round caps and joins, a line width of 2 and the colours of
    the theme.  So whenever the rectangle that the reset button fills,
    [(0, 0, canvas.width, canvas.height)] scaled by the ratio, holds the
    bitmap, a click on the button leaves a bitmap that shows the background
    only, whatever was drawn before. *)
Theorem mounted_pad_invariant (props : Props (H := H)) (env : Env) (rect : Rect)
        (events : list PadEvent) (host : H) :
  parentRect env = Some rect ->
  let ratio := if Qeq_bool (devicePixelRatio env) 0 then 1%Q
               else devicePixelRatio env in
  let w := reflected 300
             (toUnsignedLong (JS.mul (JS.ofQ (rectWidth rect)) (JS.ofQ ratio))) in
  let h := reflected 150
             (toUnsignedLong (JS.mul (JS.ofQ (rectHeight rect)) (JS.ofQ ratio))) in
  (exists canvas ctx,
     canvasRef (fst (play props env events (mount env true, host))) = Some canvas
     /\ context2d canvas = Some ctx
     /\ width canvas = w /\ height canvas = h
     /\ scale ctx = ratio
     /\ lineCap ctx = "round" /\ lineJoin ctx = "round" /\ lineWidth ctx = 2%Q
     /\ strokeStyle ctx = getStrokeColor env
     /\ fillStyle ctx = getBackgroundColor env)
  /\ (holds ratio w h = true ->
      exists canvas,
        canvasRef (fst (play props env (events ++ [click]) (mount env true, host)))
        = Some canvas
        /\ blank (getBackgroundColor env) canvas).
Proof.
  intros Hp ratio w h.
  set (P := fun s : Pad * H =>
              exists canvas ctx,
                canvasRef (fst s) = Some canvas
                /\ context2d canvas = Some ctx
                /\ width canvas = w /\ height canvas = h
                /\ scale ctx = ratio
                /\ lineCap ctx = "round" /\ lineJoin ctx = "round"
                /\ lineWidth ctx = 2%Q
                /\ strokeStyle ctx = getStrokeColor env
                /\ fillStyle ctx = getBackgroundColor env).
  assert (Hresize : forall canvas, context2d canvas <> None ->
            exists ctx,
              context2d (resizeCanvas env canvas) = Some ctx
              /\ width (resizeCanvas env canvas) = w
              /\ height (resizeCanvas env canvas) = h
              /\ scale ctx = ratio
              /\ lineCap ctx = "round" /\ lineJoin ctx = "round"
              /\ lineWidth ctx = 2%Q
              /\ strokeStyle ctx = getStrokeColor env
              /\ fillStyle ctx = getBackgroundColor env).
  { intros canvas Hx.
    destruct (resize_blank env rect canvas Hp Hx) as (Hw & Hh & _ & _ & Hc & _).
    eexists. split; [exact Hc|]. split; [exact Hw|]. split; [exact Hh|].
    repeat split. }
  assert (Hinv : P (play props env events (mount env true, host))).
  { apply play_invariant.
    - unfold P, mount. cbn [fst canvasRef].
      match goal with |- context [resizeCanvas env ?c] =>
        destruct (Hresize c) as (ctx & Hc & Hrest); [discriminate|] end.
      eexists. exists ctx. split; [reflexivity|]. split; [exact Hc|exact Hrest].
    - intros e [pad h0] (canvas & ctx & Hc & Hx & Hw & Hh & Hs & H1 & H2 & H3 & H4 & H5).
      cbn [fst] in Hc. unfold P.
      destruct e; cbn [dispatch fst snd].
      + unfold handlePointerDown. rewrite Hc, Hx. cbn [canvasRef].
        eexists. eexists. split; [reflexivity|]. split; [reflexivity|].
        cbn. repeat split; assumption.
      + unfold handlePointerMove. rewrite Hc, Hx.
        destruct (negb (drawing pad)).
        * exists canvas, ctx. repeat split; assumption.
        * cbn [canvasRef].
          eexists. eexists. split; [reflexivity|]. split; [reflexivity|].
          cbn. repeat split; assumption.
      + unfold stopDrawing. rewrite Hc, Hx. cbn [fst canvasRef].
        exists canvas, ctx. repeat split; assumption.
      + unfold stopDrawing. rewrite Hc, Hx. cbn [fst canvasRef].
        exists canvas, ctx. repeat split; assumption.
      + unfold stopDrawing. rewrite Hc, Hx. cbn [fst canvasRef].
        exists canvas, ctx. repeat split; assumption.
      + unfold handleClear. rewrite Hc, Hx. cbn [fst canvasRef].
        eexists. eexists. split; [reflexivity|]. split; [reflexivity|].
        cbn. repeat split; assumption.
      + unfold handleResize. rewrite Hc. cbn [canvasRef].
        destruct (Hresize canvas) as (ctx' & Hc' & Hrest);
          [rewrite Hx; discriminate|].
        eexists. exists ctx'. split; [reflexivity|]. split; [exact Hc'|exact Hrest]. }
  split; [exact Hinv|].
  intro Hr. rewrite play_snoc.
  destruct (play props env events (mount env true, host)) as [pad h0].
  destruct Hinv as (canvas & ctx & Hc & Hx & Hw & Hh & Hs & _).
  cbn [fst] in Hc. cbn [dispatch fst snd].
  unfold handleClear. rewrite Hc, Hx. cbn [fst canvasRef].
  eexists. split; [reflexivity|].
  apply clear_blank. now rewrite Hs, Hw, Hh.
Qed.

End Gestures.

Section PadsAndForm.

Context `{Browser} `{Platform}.

Lemma withoutImages_app (a b : list PdfCall) :
  withoutImages (a ++ b) = (withoutImages a ++ withoutImages b)%list.
Proof. apply filter_app. Qed.

Lemma withoutImages_signature (sig : option string) (x : Q) (y : Z) :
  withoutImages (signatureImage sig x y) = [].
Proof.
  unfold signatureImage. destruct sig as [d|]; [destruct (JS.truthy d)|];
    reflexivity.
Qed.

(** Apart from its images the document is a function of the customer, the
    order, the payment method and the entries. *)
Lemma document_withoutImages (st st' : State) :
  customer st' = customer st -> order st' = order st ->
  paymentMethod st' = paymentMethod st -> services st' = services st ->
  withoutImages (document st') = withoutImages (document st).
Proof.
  intros Hc Ho Hp Hs.
  destruct st as [c o p s f1 f2 t1 t2], st' as [c' o' p' s' f1' f2' t1' t2'].
  cbn [customer order paymentMethod services] in Hc, Ho, Hp, Hs. subst.
  rewrite !document_layout. cbv zeta.
  rewrite !calls_renderSignatures.
  change (jsPDF "p" "mm" "a4" :: calls renderTitle 25 ++ ?r)%list
    with ((jsPDF "p" "mm" "a4" :: calls renderTitle 25) ++ r)%list.
  rewrite !withoutImages_app, !withoutImages_signature.
  reflexivity.
Qed.

Lemma technician_events_frame (env : Env) (events : list PadEvent) (pad : Pad)
      (st : State) :
  exists x, snd (play technicianPad env events (pad, st))
            = setTechnicianSignature x st.
Proof.
  apply (play_invariant
           (fun s => exists x, snd s = setTechnicianSignature x st)).
  - exists (technicianSignature st). now destruct st.
  - intros e [p h] [x Hx]. cbn [snd] in Hx. subst h.
    destruct e; cbn [dispatch fst snd]; try (now exists x);
      unfold stopDrawing, handleClear, emitChange;
      (destruct (canvasRef p) as [c|] eqn:Ec; [|now exists x]);
      (destruct (context2d c); [|now exists x]);
      cbn [snd canvasRef onChange technicianPad]; try rewrite Ec;
      eexists; reflexivity.
Qed.

Lemma customer_events_frame (env : Env) (events : list PadEvent) (pad : Pad)
      (st : State) :
  exists x, snd (play customerPad env events (pad, st))
            = setCustomerSignature x st.
Proof.
  apply (play_invariant
           (fun s => exists x, snd s = setCustomerSignature x st)).
  - exists (customerSignature st). now destruct st.
  - intros e [p h] [x Hx]. cbn [snd] in Hx. subst h.
    destruct e; cbn [dispatch fst snd]; try (now exists x);
      unfold stopDrawing, handleClear, emitChange;
      (destruct (canvasRef p) as [c|] eqn:Ec; [|now exists x]);
      (destruct (context2d c); [|now exists x]);
      cbn [snd canvasRef onChange customerPad]; try rewrite Ec;
      eexists; reflexivity.
Qed.

(** X18.  The two pads are independent.  Whatever happens on the
    technician's pad, the form afterwards is the form before with at most
    the technician's signature replaced: the customer's signature and its
    image in the document stay, and so does every call of the document that
    is not an image.  The same holds of the customer's pad with the roles
    exchanged, and a pad goes through the same states whichever of the two
    it is. *)
Theorem pads_are_independent (env : Env) (events : list PadEvent) (pad : Pad)
        (st : State) :
  let technician := play technicianPad env events (pad, st) in
  let customer := play customerPad env events (pad, st) in
  (exists x, snd technician = setTechnicianSignature x st)
  /\ (exists x, snd customer = setCustomerSignature x st)
  /\ images (document (snd technician))
     = (signatureImage (technicianSignature (snd technician)) marginX (ruleY st)
        ++ signatureImage (customerSignature st)
             (pageWidth - marginX - signatureWidth) (ruleY st))%list
  /\ images (document (snd customer))
     = (signatureImage (technicianSignature st) marginX (ruleY st)
        ++ signatureImage (customerSignature (snd customer))
             (pageWidth - marginX - signatureWidth) (ruleY st))%list
  /\ withoutImages (document (snd technician)) = withoutImages (document st)
  /\ withoutImages (document (snd customer)) = withoutImages (document st)
  /\ fst technician = fst customer.
Proof.
  intros technician customer.
  destruct (technician_events_frame env events pad st) as [x Hx].
  destruct (customer_events_frame env events pad st) as [y Hy].
  fold technician in Hx. fold customer in Hy.
  split; [now exists x|]. split; [now exists y|].
  split; [rewrite Hx, document_images; reflexivity|].
  split; [rewrite Hy, document_images; reflexivity|].
  split; [rewrite Hx; now apply document_withoutImages|].
  split; [rewrite Hy; now apply document_withoutImages|].
  apply play_pad.
Qed.

(** X19.  From the pad to the document.  After a pointerup on the
    technician's pad the document carries the exported bitmap as its
    technician image, standing on the left rule, unless the data URL is
    empty.  A resize of the window after that blanks the canvas but tells
    the form nothing: the document still carries the image of what was
    drawn.  A click on the reset button takes the image out of the document,
    and the customer's image is there or not as before. *)
Theorem signature_reaches_document (env : Env) (pad : Pad) (canvas : Canvas)
        (st : State) :
  canvasRef pad = Some canvas -> context2d canvas <> None ->
  let url := toDataURL (width canvas) (height canvas) (bitmap canvas) in
  let customerImage :=
    signatureImage (customerSignature st)
      (pageWidth - marginX - signatureWidth) (ruleY st) in
  let signed := play technicianPad env [pointerup] (pad, st) in
  let resized := play technicianPad env [pointerup; resize] (pad, st) in
  let cleared := play technicianPad env [pointerup; click] (pad, st) in
  images (document (snd signed))
  = (signatureImage (Some url) marginX (ruleY st) ++ customerImage)%list
  /\ (url <> "" ->
      In (addImage url "PNG" marginX (ruleY st - 23) 60 23)
         (document (snd signed)))
  /\ snd resized = snd signed
  /\ (forall rect, parentRect env = Some rect ->
      exists canvas', canvasRef (fst resized) = Some canvas'
                      /\ blank (getBackgroundColor env) canvas')
  /\ images (document (snd cleared)) = customerImage.
Proof.
  intros Hc Hx url customerImage signed resized cleared.
  assert (Hs : signed
               = ({| canvasRef := Some canvas; drawing := false;
                     lastX := lastX pad; lastY := lastY pad |},
                  setTechnicianSignature (Some url) st)).
  { unfold signed, play. cbn [fold_left dispatch fst snd].
    now rewrite (stopDrawing_mounted technicianPad setTechnicianSignature
                   pad canvas st Hc Hx eq_refl). }
  assert (Hi : images (document (snd signed))
               = (signatureImage (Some url) marginX (ruleY st)
                  ++ customerImage)%list).
  { rewrite Hs. cbn [snd]. rewrite document_images. reflexivity. }
  split; [exact Hi|].
  split.
  { intro Hne.
    assert (Hin : In (addImage url "PNG" marginX (ruleY st - 23) 60 23)
                     (images (document (snd signed)))).
    { rewrite Hi. apply in_or_app. left. unfold signatureImage.
      destruct url as [|a u]; [congruence|]. left. reflexivity. }
    unfold images in Hin. apply filter_In in Hin. exact (proj1 Hin). }
  assert (Hr : resized = dispatch technicianPad env resize signed)
    by reflexivity.
  assert (Hcl : cleared = dispatch technicianPad env click signed)
    by reflexivity.
  split; [rewrite Hr; reflexivity|].
  split.
  { intros rect Hp. rewrite Hr, Hs. cbn [dispatch fst snd].
    unfold handleResize. cbn [canvasRef].
    eexists. split; [reflexivity|].
    now destruct (resize_blank env rect canvas Hp Hx) as (_ & _ & _ & _ & _ & Hb). }
  rewrite Hcl, Hs. cbn [dispatch fst snd].
  unfold handleClear. cbn [canvasRef].
  destruct (context2d canvas) as [ctx|]; [|congruence].
  cbn [snd onChange technicianPad].
  rewrite document_images. reflexivity.
Qed.

End PadsAndForm.

(** X13 on a canvas full of ink, in the middle of a stroke, on the page
    zoomed in to 120 %: the Number product of 300 and 1.2 is 360. *)
Lemma resize_discards_strokes_witness :
  let inked :=
    {| width := 3; height := 2; styleWidth := None; styleHeight := None;
       bitmap := fun _ _ => Painted "#0f172a";
       context2d := Some defaultContext |} in
  let pad := {| canvasRef := Some inked; drawing := true;
                lastX := 1; lastY := 1 |} in
  exists canvas,
    canvasRef (handleResize Reference.zoomedIn pad) = Some canvas
    /\ width canvas = 360 /\ height canvas = 120
    /\ blank "#ffffff" canvas
    /\ drawing (handleResize Reference.zoomedIn pad) = true.
Proof.
  intros inked pad.
  destruct (resize_discards_strokes Reference.zoomedIn pad inked eq_refl
              ltac:(discriminate)) as [Hr _].
  destruct (Hr (Reference.box 300 100) eq_refl)
    as (c & ctx & Hc & Hw & Hh & _ & _ & _ & _ & _ & Hb & Hd).
  exists c. split; [exact Hc|].
  split; [rewrite Hw; vm_compute; reflexivity|].
  split; [rewrite Hh; vm_compute; reflexivity|].
  split; [exact Hb|exact Hd].
Defined.

(** X15 on the stroke from (150, 80) to (160, 80) of the zoomed-out page. *)
Lemma gesture_path_witness :
  exists canvas ctx,
    canvasRef (@Reference.signedZoomedOut Reference.browser) = Some canvas
    /\ context2d canvas = Some ctx
    /\ path ctx = [(150, 80); (160, 80)]%Q
    /\ strokeStyle ctx = "#0f172a".
Proof.
  destruct (@gesture_path Reference.browser Reference.zoomedOut
              (Reference.pointerAt 150 80) [Reference.pointerAt 160 80]
              (mount Reference.zoomedOut true) _ _ eq_refl eq_refl)
    as (c & ctx & Hc & Hx & _ & Hp & Hs & _).
  exists c, ctx. split; [exact Hc|]. split; [exact Hx|].
  split; [rewrite Hp; reflexivity|rewrite Hs; reflexivity].
Defined.

(** X16 on a pad whose canvas gave no context. *)
Lemma pad_without_context_is_inert_witness :
  snd (@play _ Reference.browser technicianPad Reference.small
         [pointerdown (Reference.pointerAt 1 1);
          pointermove (Reference.pointerAt 2 1); pointerup; click]
         (mount Reference.small false, initialState "2025" "7d0c"))
  = initialState "2025" "7d0c".
Proof.
  refine (proj1 (@pad_without_context_is_inert _ Reference.browser technicianPad
                   Reference.small _ (mount Reference.small false) _ _)).
  intros c Hc. injection Hc as <-. reflexivity.
Defined.

(** X17 on the small page: a stroke, then the reset button. *)
Lemma mounted_pad_invariant_witness :
  exists canvas,
    canvasRef
      (fst (@play _ Reference.browser technicianPad Reference.small
              ([pointerdown (Reference.pointerAt 1 1);
                pointermove (Reference.pointerAt 2 1); pointerup] ++ [click])
              (mount Reference.small true, initialState "2025" "7d0c")))
    = Some canvas
    /\ blank "#ffffff" canvas.
Proof.
  refine (proj2 (@mounted_pad_invariant _ Reference.browser technicianPad
                   Reference.small (Reference.box 3 2) _ _ eq_refl) _).
  vm_compute. reflexivity.
Defined.

(** X19 on the small page: the stroke over two pixels of the first row
    is in the document of the initial form. *)
Lemma signature_reaches_document_witness :
  In (addImage
        ("data:image/png;base64,3x2:"
         ++ "#ffffff;#0f172a;#0f172a;#ffffff;#ffffff;#ffffff;")
        "PNG" 20 (129 - 23) 60 23)
     (@document Reference.platform
        (snd (@play _ Reference.browser technicianPad Reference.small
                [pointerdown (Reference.pointerAt 1 0);
                 pointermove (Reference.pointerAt 2 0); pointerup]
                (mount Reference.small true, initialState "2025" "7d0c")))).
Proof.
  pose (drawn := @play _ Reference.browser technicianPad Reference.small
                   [pointerdown (Reference.pointerAt 1 0);
                    pointermove (Reference.pointerAt 2 0)]
                   (mount Reference.small true, initialState "2025" "7d0c")).
  destruct (@signature_reaches_document Reference.browser Reference.platform
              Reference.small (fst drawn) _ (initialState "2025" "7d0c")
              eq_refl ltac:(discriminate))
    as (_ & Hin & _).
  exact (Hin ltac:(vm_compute; discriminate)).
Defined.

(** X2 on the initial form: a change addressed to an identifier that no
    entry carries. *)
Lemma service_change_in_place_witness :
  handleServiceChange "0000" Hours "2" (initialState "2025" "7d0c")
  = initialState "2025" "7d0c".
Proof.
  destruct (service_change_in_place (initialState "2025" "7d0c") "0000" Hours "2")
    as (_ & E & _).
  apply E. intros [E'|[]]. discriminate E'.
Defined.

(** X3 on the initial form: a date is entered. *)
Lemma totals_frame_witness :
  totalHours
    (services (handleServiceChange "7d0c" Date "01.02.2025"
                 (initialState "2025" "7d0c")))
  = totalHours (services (initialState "2025" "7d0c")).
Proof.
  destruct (@totals_frame Reference.platform (initialState "2025" "7d0c")
              "7d0c" "01.02.2025" Date) as (E & _).
  apply E. discriminate.
Defined.

(** X14 on the small page: moves over a pad that was never pressed. *)
Lemma moves_draw_only_while_drawing_witness :
  @drag Reference.browser Reference.small
    [Reference.pointerAt 1 1; Reference.pointerAt 2 1]
    (mount Reference.small true)
  = mount Reference.small true.
Proof.
  destruct (@moves_draw_only_while_drawing _ Reference.browser technicianPad
              Reference.small Reference.small
              [Reference.pointerAt 1 1; Reference.pointerAt 2 1]
              (mount Reference.small true) (initialState "2025" "7d0c") true)
    as (E & _).
  apply E. reflexivity.
Defined.
